(** * gnumeric-py: the formula evaluator of [gnumeric/expression_evaluation.py]

    A shallow embedding of the evaluator and the properties of its
    specification.  Python values are a tagged union, exceptions are an error
    monad, the host workbook is threaded as explicit state, and floats are
    IEEE binary64 numbers in the Standard Library's [spec_float]. *)

From Stdlib Require Import ZArith Bool List Ascii String Lia.
From Stdlib Require Import Decimal DecimalString DecimalZ DecimalPos DecimalN.
From Stdlib Require HexadecimalString HexadecimalN.
From Stdlib Require Import Floats.SpecFloat.
From stdpp Require Import base gmap strings.

Import ListNotations.
Local Open Scope string_scope.
Local Open Scope Z_scope.

(* ===================================================================== *)
(** ** Error taxonomy and exceptions *)
(* ===================================================================== *)

(** [class EvaluationError(enum.Enum)] *)
Inductive EvaluationError : Type :=
| DIV0 | VALUE | NA | NAME | NUM | REF | NULL.

(** The [.value] of each member: the text a spreadsheet cell shows. *)
Definition error_value (e : EvaluationError) : string :=
  match e with
  | DIV0 => "#DIV/0!"
  | VALUE => "#VALUE!"
  | NA => "#N/A"
  | NAME => "#NAME?"
  | NUM => "#NUM!"
  | REF => "#REF!"
  | NULL => "#NULL!"
  end.

(** The exceptions that the evaluator raises, catches or lets through.
    [TypeError] carries its message, which [function] inspects. *)
Inductive exn : Type :=
| ExpressionEvaluationException (error : EvaluationError)
| ZeroDivisionError
| OverflowError
| ValueError
| TypeError (msg : string)
| KeyError
| IndexError.

Inductive result (A : Type) : Type :=
| Ok (a : A)
| Raise (e : exn).
Arguments Ok {A} a.
Arguments Raise {A} e.

Definition rbind {A B} (r : result A) (k : A -> result B) : result B :=
  match r with
  | Ok a => k a
  | Raise e => Raise e
  end.

Notation "'do' x <- r ; k" := (rbind r (fun x => k))
  (at level 10, x name, r at level 100, k at level 200).

(* ===================================================================== *)
(** ** Python values *)
(* ===================================================================== *)

(** A Python [float] is an IEEE 754 binary64 number. *)
Definition prec : Z := 53.
Definition emax : Z := 1024.
Definition float64 : Type := spec_float.

(** The values that reach the evaluator: the results of its own rules and
    what the host stores in a cell.  [VObj] is an instance of any other class
    (the host's expression descriptor): its class name, its identity (the
    address [id(o)]), and its attribute [.value]. *)
Inductive pyval : Type :=
| VInt (n : Z)
| VFloat (f : float64)
| VStr (s : string)
| VBool (b : bool)
| VNone
| VObj (cls : string) (oid : N) (value : pyval).

(** [type(v)] *)
Inductive pytype : Type :=
| TInt | TFloat | TStr | TBool | TNoneType | TClass (cls : string).

Definition type_of (v : pyval) : pytype :=
  match v with
  | VInt _ => TInt
  | VFloat _ => TFloat
  | VStr _ => TStr
  | VBool _ => TBool
  | VNone => TNoneType
  | VObj cls _ _ => TClass cls
  end.

Definition pytype_eqb (t u : pytype) : bool :=
  match t, u with
  | TInt, TInt | TFloat, TFloat | TStr, TStr | TBool, TBool
  | TNoneType, TNoneType => true
  | TClass c, TClass d => String.eqb c d
  | _, _ => false
  end.

(** The name that a [TypeError] message prints for a type. *)
Definition type_name (t : pytype) : string :=
  match t with
  | TInt => "int"
  | TFloat => "float"
  | TStr => "str"
  | TBool => "bool"
  | TNoneType => "NoneType"
  | TClass c => c
  end.

(** [isinstance(v, (int, float))]: [bool] is a subclass of [int]. *)
Definition isinstance_int_float (v : pyval) : bool :=
  match v with
  | VInt _ | VBool _ | VFloat _ => true
  | _ => false
  end.

(** [isinstance(v, (int, float, str))] *)
Definition isinstance_int_float_str (v : pyval) : bool :=
  match v with
  | VInt _ | VBool _ | VFloat _ | VStr _ => true
  | _ => false
  end.

(* ===================================================================== *)
(** ** Python numbers *)
(* ===================================================================== *)

Definition bool_to_Z (b : bool) : Z := if b then 1 else 0.

(** The numeric view of an [int], [bool] or [float] operand. *)
Inductive num : Type :=
| NInt (n : Z)
| NFloat (f : float64).

Definition as_num (v : pyval) : option num :=
  match v with
  | VInt n => Some (NInt n)
  | VBool b => Some (NInt (bool_to_Z b))
  | VFloat f => Some (NFloat f)
  | _ => None
  end.

Definition is_finite (f : float64) : bool :=
  match f with
  | S754_zero _ | S754_finite _ _ _ => true
  | _ => false
  end.

Definition is_nan (f : float64) : bool :=
  match f with S754_nan => true | _ => false end.

Definition is_infinity (f : float64) : bool :=
  match f with S754_infinity _ => true | _ => false end.

Definition is_zero (f : float64) : bool :=
  match f with S754_zero _ => true | _ => false end.

(** [float(n)] for an int: rounded to nearest even; [OverflowError] when the
    int is too large to convert. *)
Definition float_of_Z (n : Z) : result float64 :=
  let f := binary_normalize prec emax n 0 false in
  if is_infinity f then Raise OverflowError else Ok f.

Definition to_float (x : num) : result float64 :=
  match x with
  | NInt n => float_of_Z n
  | NFloat f => Ok f
  end.

(** [f.is_integer()] and [int(f)] on a finite float. *)
Definition float_is_integer (f : float64) : bool :=
  match f with
  | S754_zero _ => true
  | S754_finite _ m e =>
      if 0 <=? e then true else Z.pos m mod 2 ^ (- e) =? 0
  | _ => false
  end.

Definition float_to_Z (f : float64) : Z :=
  match f with
  | S754_finite s m e =>
      let a := if 0 <=? e then Z.pos m * 2 ^ e else Z.pos m / 2 ^ (- e) in
      if s then - a else a
  | _ => 0
  end.

(** Exact three-way comparison of an int with a float ([None]: unordered). *)
Definition compare_Z_float (n : Z) (f : float64) : option comparison :=
  match f with
  | S754_nan => None
  | S754_infinity s => Some (if s then Gt else Lt)
  | S754_zero _ => Some (n ?= 0)
  | S754_finite s m e =>
      let v := if s then Z.neg m else Z.pos m in
      Some (if 0 <=? e then n ?= v * 2 ^ e else n * 2 ^ (- e) ?= v)
  end.

Definition num_compare (x y : num) : option comparison :=
  match x, y with
  | NInt a, NInt b => Some (a ?= b)
  | NFloat f, NFloat g => SFcompare f g
  | NInt a, NFloat g => compare_Z_float a g
  | NFloat f, NInt b => option_map CompOpp (compare_Z_float b f)
  end.

(** *** Arithmetic of the numeric tower

    [int] with [int] stays exact; any [float] operand converts the other one
    with [float_of_Z] and the operation is the IEEE one. *)

Definition py_add (x y : num) : result pyval :=
  match x, y with
  | NInt a, NInt b => Ok (VInt (a + b))
  | _, _ =>
      do f <- to_float x; do g <- to_float y;
      Ok (VFloat (SFadd prec emax f g))
  end.

Definition py_sub (x y : num) : result pyval :=
  match x, y with
  | NInt a, NInt b => Ok (VInt (a - b))
  | _, _ =>
      do f <- to_float x; do g <- to_float y;
      Ok (VFloat (SFsub prec emax f g))
  end.

Definition py_mul (x y : num) : result pyval :=
  match x, y with
  | NInt a, NInt b => Ok (VInt (a * b))
  | _, _ =>
      do f <- to_float x; do g <- to_float y;
      Ok (VFloat (SFmul prec emax f g))
  end.

(** [a / b] on two ints: the correctly rounded quotient. *)
Definition int_true_divide (a b : Z) : result pyval :=
  if b =? 0 then Raise ZeroDivisionError
  else
    let negate := xorb (a <? 0) (b <? 0) in
    if a =? 0 then Ok (VFloat (S754_zero negate))
    else
      let '(q, e, l) := SFdiv_core_binary prec emax (Z.abs a) 0 (Z.abs b) 0 in
      let f := binary_round_aux prec emax negate q e l in
      if is_infinity f then Raise OverflowError else Ok (VFloat f).

(** [a / b]: true division.  A zero divisor raises [ZeroDivisionError],
    for ints and for floats alike. *)
Definition py_truediv (x y : num) : result pyval :=
  match x, y with
  | NInt a, NInt b => int_true_divide a b
  | _, _ =>
      do f <- to_float x; do g <- to_float y;
      if is_zero g then Raise ZeroDivisionError
      else Ok (VFloat (SFdiv prec emax f g))
  end.

(** An odd integer, as [fmod(fabs(y), 2.0) == 1.0] tests it. *)
Definition float_is_odd (f : float64) : bool :=
  float_is_integer f && Z.odd (float_to_Z f).

Definition float_sign (f : float64) : bool :=
  match f with
  | S754_zero s | S754_infinity s | S754_finite s _ _ => s
  | S754_nan => false
  end.

Definition float_one : float64 := S754_finite false 4503599627370496 (-52).

Definition float_lt0 (f : float64) : bool := SFltb f (S754_zero false).
Definition float_gt0 (f : float64) : bool := SFltb (S754_zero false) f.

(* ===================================================================== *)
(** ** Python strings *)
(* ===================================================================== *)

Definition ascii_lower (c : ascii) : ascii :=
  let n := nat_of_ascii c in
  if ((65 <=? n) && (n <=? 90))%nat then ascii_of_nat (n + 32) else c.

(** A [str] is modelled by its ASCII text, which is what the grammar's
    tokens hold.  [s.lower()], on ASCII text: the letters A-Z are folded,
    every other character stays.  (On other text [str.lower] folds more
    letters; what is proved about the case of text is stated for ASCII
    text.) *)
Fixpoint lower (s : string) : string :=
  match s with
  | EmptyString => EmptyString
  | String c r => String (ascii_lower c) (lower r)
  end.

(** [s.startswith(p)] and [p in s]. *)
Definition startswith (s p : string) : bool := String.prefix p s.

Fixpoint contains (p s : string) : bool :=
  String.prefix p s ||
  match s with
  | EmptyString => false
  | String _ r => contains p r
  end.

(** [str(n)] and [int(s)] for an int.  [int] accepts an optional sign and
    decimal digits, which is all a NUMBER token can hold. *)
Definition str_of_Z (n : Z) : string := NilZero.string_of_int (Z.to_int n).

Definition digits_to_Z (s : string) : option Z :=
  match NilZero.uint_of_string s with
  | Some d => Some (Z.of_uint d)
  | None => None
  end.

Definition py_int (s : string) : option Z :=
  match s with
  | String "+" r => digits_to_Z r
  | String "-" r => option_map Z.opp (digits_to_Z r)
  | _ => digits_to_Z s
  end.

Definition str_of_nat (n : nat) : string := str_of_Z (Z.of_nat n).

(** The hexadecimal digits of an address, for the default [repr]. *)
Definition hex_of_N (n : N) : string :=
  lower (HexadecimalString.NilZero.string_of_uint (N.to_hex_uint n)).

(** *** [float(s)] for a NUMBER token

    The decimal value [m * 10^e] rounded to the nearest binary64 number, ties
    to even, as CPython's string-to-float conversion is. *)

Definition float_of_decimal (neg : bool) (m e : Z) : float64 :=
  match m with
  | Z0 => S754_zero neg
  | Zpos _ =>
      if 0 <=? e then binary_normalize prec emax (if neg then - (m * 10 ^ e) else m * 10 ^ e) 0 neg
      else
        let '(q, e', l) := SFdiv_core_binary prec emax m 0 (10 ^ (- e)) 0 in
        binary_round_aux prec emax neg q e' l
  | Zneg _ => S754_nan
  end.

Definition is_digit (c : ascii) : bool :=
  let n := nat_of_ascii c in ((48 <=? n) && (n <=? 57))%nat.

Definition is_letter (c : ascii) : bool :=
  let n := nat_of_ascii c in
  (((65 <=? n) && (n <=? 90)) || ((97 <=? n) && (n <=? 122)))%nat.

(** The longest prefix of digits, and what follows it. *)
Fixpoint span_digits (s : string) : string * string :=
  match s with
  | String c r =>
      if is_digit c then let '(d, t) := span_digits r in (String c d, t)
      else (EmptyString, s)
  | EmptyString => (EmptyString, EmptyString)
  end.

Definition nat_value (digits : string) : Z :=
  match NilEmpty.uint_of_string digits with
  | Some d => Z.of_uint d
  | None => 0
  end.

Definition float_exponent (s : string) : option Z :=
  match s with
  | EmptyString => Some 0
  | String c r =>
      if (Ascii.eqb c "e" || Ascii.eqb c "E")%char then py_int r else None
  end.

Definition py_float (s : string) : option float64 :=
  let '(neg, s1) :=
    match s with
    | String "-" r => (true, r)
    | String "+" r => (false, r)
    | _ => (false, s)
    end in
  let '(ip, s2) := span_digits s1 in
  let '(fp, s3) :=
    match s2 with
    | String "." r => span_digits r
    | _ => (EmptyString, s2)
    end in
  match (ip ++ fp)%string with
  | EmptyString => None
  | String _ _ as ds =>
      match float_exponent s3 with
      | Some ex => Some (float_of_decimal neg (nat_value ds) (ex - Z.of_nat (String.length fp)))
      | None => None
      end
  end.

(* ===================================================================== *)
(** ** The evaluator's pure rules *)
(* ===================================================================== *)

Section Rules.

(** Two services of the language runtime that are outside this program:
    [str(f)] of a float (the shortest decimal text that reads back as [f])
    and the C library's [pow]. *)
Variable float_repr : float64 -> string.
Variable libm_pow : float64 -> float64 -> float64.

(** [str(v)]: the default textual representation. *)
Definition py_str (v : pyval) : string :=
  match v with
  | VInt n => str_of_Z n
  | VFloat f => float_repr f
  | VStr s => s
  | VBool b => if b then "True" else "False"
  | VNone => "None"
  | VObj cls oid _ => "<" ++ cls ++ " object at 0x" ++ hex_of_N oid ++ ">"
  end.

(** [def to_str(value) -> str] *)
Definition to_str (value : pyval) : string :=
  let value :=
    match value with
    | VFloat f => if float_is_integer f then VInt (float_to_Z f) else value
    | VBool b => VStr (if b then "TRUE" else "FALSE")
    | _ => value
    end in
  py_str value.

(** [ExpressionEvaluator.number] *)
Definition number (val : string) : result pyval :=
  match py_int val with
  | Some n => Ok (VInt n)
  | None =>
      match py_float val with
      | Some f => Ok (VFloat f)
      | None => Raise ValueError
      end
  end.

(** [ExpressionEvaluator.string]: [a.value[1:-1]] *)
Definition drop_last (s : string) : string :=
  String.substring 0 (String.length s - 1) s.

Definition string_rule (a : string) : pyval :=
  VStr (drop_last (String.substring 1 (String.length a - 1) a)).

(** [ExpressionEvaluator.error_ref] *)
Definition error_ref : result pyval :=
  Raise (ExpressionEvaluationException REF).

(** [ExpressionEvaluator.concat] *)
Definition concat (a b : pyval) : result pyval :=
  let a := to_str a in
  let b := to_str b in
  Ok (VStr (a ++ b)).

(** *** Rich comparison *)

(** [a == b] *)
Definition py_eq (a b : pyval) : bool :=
  match as_num a, as_num b with
  | Some x, Some y =>
      match num_compare x y with Some Eq => true | _ => false end
  | _, _ =>
      match a, b with
      | VStr s, VStr t => String.eqb s t
      | VNone, VNone => true
      | VObj _ i _, VObj _ j _ => N.eqb i j
      | _, _ => false
      end
  end.

(** [a < b], [a <= b], [a > b], [a >= b]: [test] reads the three-way
    result; an unordered pair (a NaN) fails every test. *)
Definition py_order (sym : string) (test : comparison -> bool)
    (a b : pyval) : result bool :=
  match as_num a, as_num b with
  | Some x, Some y =>
      Ok match num_compare x y with Some c => test c | None => false end
  | _, _ =>
      match a, b with
      | VStr s, VStr t => Ok (test (String.compare s t))
      | _, _ =>
          Raise (TypeError ("'" ++ sym ++ "' not supported between instances of '"
                            ++ type_name (type_of a) ++ "' and '"
                            ++ type_name (type_of b) ++ "'"))
      end
  end.

Definition is_lt (c : comparison) : bool := match c with Lt => true | _ => false end.
Definition is_le (c : comparison) : bool := match c with Gt => false | _ => true end.
Definition is_gt (c : comparison) : bool := match c with Gt => true | _ => false end.
Definition is_ge (c : comparison) : bool := match c with Lt => false | _ => true end.

(** The dict [type_val_mapper]; a missing key is a [KeyError]. *)
Definition type_val_mapper (t : pytype) : result Z :=
  match t with
  | TFloat => Ok 0
  | TStr => Ok 50
  | TBool => Ok 100
  | _ => Raise KeyError
  end.

(** [ExpressionEvaluator.logical] *)
Definition logical (a : pyval) (op : string) (b : pyval) : result pyval :=
  let a := match a with VStr s => VStr (lower s) | _ => a end in
  let b := match b with VStr s => VStr (lower s) | _ => b end in
  let a_type := if pytype_eqb (type_of a) TInt then TFloat else type_of a in
  let b_type := if pytype_eqb (type_of b) TInt then TFloat else type_of b in
  do ab <- (if negb (pytype_eqb a_type b_type) then
              do x <- type_val_mapper a_type;
              do y <- type_val_mapper b_type;
              Ok (VInt x, VInt y)
            else Ok (a, b));
  let '(a, b) := ab in
  if String.eqb op "=" then Ok (VBool (py_eq a b))
  else if String.eqb op "<>" then Ok (VBool (negb (py_eq a b)))
  else if String.eqb op "<" then do r <- py_order "<" is_lt a b; Ok (VBool r)
  else if String.eqb op "<=" then do r <- py_order "<=" is_le a b; Ok (VBool r)
  else if String.eqb op ">" then do r <- py_order ">" is_gt a b; Ok (VBool r)
  else if String.eqb op ">=" then do r <- py_order ">=" is_ge a b; Ok (VBool r)
  else Raise ValueError.

(** *** Arithmetic *)

(** [math.pow(a, b)]: both arguments become floats; the special values
    are answered directly and the rest goes to the C library, whose
    non-finite answers become [ValueError] (domain) or [OverflowError]
    (range). *)
Definition math_pow (a b : num) : result pyval :=
  do x <- to_float a; do y <- to_float b;
  if negb (is_finite x) || negb (is_finite y) then
    Ok (VFloat
      (if is_nan x then (if is_zero y then float_one else x)
       else if is_nan y then (if SFeqb x float_one then float_one else y)
       else if is_infinity x then
         let odd_y := is_finite y && float_is_odd y in
         if float_gt0 y then (if odd_y then x else SFabs x)
         else if is_zero y then float_one
         else (if odd_y then S754_zero (float_sign x) else S754_zero false)
       else
         let ax := SFabs x in
         if SFeqb ax float_one then float_one
         else if float_gt0 y && SFltb float_one ax then y
         else if float_lt0 y && SFltb ax float_one then SFopp y
         else S754_zero false))
  else
    let r := libm_pow x y in
    if is_nan r then Raise ValueError
    else if is_infinity r then
      (if is_zero x then Raise ValueError else Raise OverflowError)
    else Ok (VFloat r).

(** [ExpressionEvaluator.arithmetic].  An operator other than the five of
    the grammar falls off the end of the method, which returns [None]. *)
Definition arithmetic (a : pyval) (op : string) (b : pyval) : result pyval :=
  if negb (isinstance_int_float a) || negb (isinstance_int_float b) then
    Raise (ExpressionEvaluationException VALUE)
  else
    match as_num a, as_num b with
    | Some x, Some y =>
        if String.eqb op "+" then py_add x y
        else if String.eqb op "-" then py_sub x y
        else if String.eqb op "*" then py_mul x y
        else if String.eqb op "/" then py_truediv x y
        else if String.eqb op "^" then
          match math_pow x y with
          | Raise OverflowError => Raise (ExpressionEvaluationException NUM)
          | r => r
          end
        else Ok VNone
    | _, _ => Raise (TypeError "unsupported operand type(s)")
    end.

(** *** The function registry *)

(** The builtin [abs]: exactly one argument, which must be a number. *)
Definition py_abs (args : list pyval) : result pyval :=
  match args with
  | [v] =>
      match v with
      | VInt n => Ok (VInt (Z.abs n))
      | VBool b => Ok (VInt (bool_to_Z b))
      | VFloat f => Ok (VFloat (SFabs f))
      | _ => Raise (TypeError ("bad operand type for abs(): '"
                               ++ type_name (type_of v) ++ "'"))
      end
  | _ =>
      Raise (TypeError ("abs() takes exactly one argument ("
                        ++ str_of_nat (List.length args) ++ " given)"))
  end.

(** [lambda val: len(str(val))]: a Python function of one positional
    parameter; a call with another number of arguments raises the
    interpreter's [TypeError] for Python functions. *)
Definition lambda_len (args : list pyval) : result pyval :=
  match args with
  | [val] => Ok (VInt (Z.of_nat (String.length (py_str val))))
  | [] =>
      Raise (TypeError "<lambda>() missing 1 required positional argument: 'val'")
  | _ =>
      Raise (TypeError ("<lambda>() takes 1 positional argument but "
                        ++ str_of_nat (List.length args) ++ " were given"))
  end.

(** The module-level dict [function_map]. *)
Definition function_map : gmap string (list pyval -> result pyval) :=
  <["abs" := py_abs]> (<["len" := lambda_len]> ∅).

(** [ExpressionEvaluator.function] *)
Definition function (name : string) (args : list pyval) : result pyval :=
  let r :=
    match function_map !! lower name with
    | Some f => f args
    | None => Raise KeyError
    end in
  match r with
  | Raise KeyError => Raise (ExpressionEvaluationException NAME)
  | Raise (TypeError msg) =>
      if startswith msg "bad operand type" then
        Raise (ExpressionEvaluationException VALUE)
      else if contains "takes exactly" msg then
        Raise (ExpressionEvaluationException NA)
      else Raise (TypeError msg)
  | _ => r
  end.

End Rules.

(* ===================================================================== *)
(** ** The host: workbook, sheets and cells *)
(* ===================================================================== *)

(** Modelled from the spec: the host classes [Cell], [Sheet] and [Workbook]
    and [gnumeric.utils.coordinate_from_spreadsheet] are not part of the
    evaluator's file.  They follow sections 4.3 and 6 of the specification
    and the host's unit tests: a sheet is a sparse grid of cells within its
    allowed rows and columns; [sheet.cell(row, column, create)] raises
    [IndexError] outside the grid and for an absent cell when [create] is
    false, and inserts an empty cell when [create] is true;
    [get_sheet_by_name] raises [KeyError] for an unknown title. *)
Record Cell : Type := { cell_row : Z; cell_column : Z; cell_value : pyval }.

(** Modelled from the spec: a [Sheet] with its allowed rows and columns and
    its populated cells, by zero-based (row, column), each with the value
    that [cell.value] gives. *)
Record Sheet : Type := {
  max_allowed_row : Z;
  max_allowed_column : Z;
  cells : gmap (Z * Z) pyval
}.

(** Modelled from the spec: the evaluation context, which is the cell that
    owns the formula.  [home] is [cell.worksheet], titled [home_title]; the
    record as a whole is [cell.worksheet.workbook], whose other sheets are
    [others]. *)
Record Workbook : Type := {
  home_title : string;
  home : Sheet;
  others : gmap string Sheet
}.

(** Modelled from the spec: [Workbook.get_sheet_by_name]. *)
Definition get_sheet_by_name (wb : Workbook) (name : string) : result Sheet :=
  if String.eqb name (home_title wb) then Ok (home wb)
  else
    match others wb !! name with
    | Some sh => Ok sh
    | None => Raise KeyError
    end.

(** Modelled from the spec: [Sheet.cell(row, column, create)], with the sheet
    after the call. *)
Definition sheet_cell (sh : Sheet) (row column : Z) (create : bool)
    : result Cell * Sheet :=
  if (row <? 0) || (max_allowed_row sh <? row)
     || (column <? 0) || (max_allowed_column sh <? column)
  then (Raise IndexError, sh)
  else
    match cells sh !! (row, column) with
    | Some v => (Ok {| cell_row := row; cell_column := column; cell_value := v |}, sh)
    | None =>
        if create then
          (Ok {| cell_row := row; cell_column := column; cell_value := VNone |},
           {| max_allowed_row := max_allowed_row sh;
              max_allowed_column := max_allowed_column sh;
              cells := <[(row, column) := VNone]> (cells sh) |})
        else (Raise IndexError, sh)
    end.

(** A sheet object is shared between the context cell and the workbook, so
    a change to it is seen through both: the sheet is stored back. *)
Definition put_sheet (wb : Workbook) (name : option string) (sh : Sheet) : Workbook :=
  match name with
  | None => {| home_title := home_title wb; home := sh; others := others wb |}
  | Some n =>
      if String.eqb n (home_title wb)
      then {| home_title := home_title wb; home := sh; others := others wb |}
      else {| home_title := home_title wb; home := home wb;
              others := <[n := sh]> (others wb) |}
  end.

Fixpoint remove_dollar (s : string) : string :=
  match s with
  | EmptyString => EmptyString
  | String c r => if Ascii.eqb c "$" then remove_dollar r else String c (remove_dollar r)
  end.

Fixpoint span_letters (s : string) : string * string :=
  match s with
  | String c r =>
      if is_letter c then let '(d, t) := span_letters r in (String c d, t)
      else (EmptyString, s)
  | EmptyString => (EmptyString, EmptyString)
  end.

(** The column number of column letters: A is 1, Z is 26, AA is 27. *)
Fixpoint column_number (acc : Z) (letters : string) : Z :=
  match letters with
  | EmptyString => acc
  | String c r =>
      column_number (acc * 26 + (Z.of_nat (nat_of_ascii (ascii_lower c)) - 96)) r
  end.

(** Modelled from the spec: [coordinate_from_spreadsheet] turns column
    letters and row digits into the zero-based [(row, column)], ignoring the
    absolute-reference markers; a row below 1 is an [IndexError].  Letters
    count in either case. *)
Definition coordinate_from_spreadsheet (s : string) : result (Z * Z) :=
  let '(letters, digits) := span_letters (remove_dollar s) in
  match letters, digits_to_Z digits with
  | String _ _, Some row =>
      if row <? 1 then Raise IndexError
      else Ok (row - 1, column_number 0 letters - 1)
  | EmptyString, _ => Raise IndexError
  | _, None => Raise ValueError
  end.

(* ===================================================================== *)
(** ** Stateful rules: the evaluator reads the host *)
(* ===================================================================== *)

(** A computation that may raise and that sees, and hands on, the host. *)
Definition M (A : Type) : Type := Workbook -> result A * Workbook.

Definition mret {A} (a : A) : M A := fun wb => (Ok a, wb).
Definition mraise {A} (e : exn) : M A := fun wb => (Raise e, wb).
Definition mlift {A} (r : result A) : M A := fun wb => (r, wb).

Definition mbind {A B} (m : M A) (k : A -> M B) : M B :=
  fun wb =>
    match m wb with
    | (Ok a, wb') => k a wb'
    | (Raise e, wb') => (Raise e, wb')
    end.

Notation "'let*' x := m 'in' k" := (mbind m (fun x => k))
  (at level 10, x name, m at level 100, k at level 200).

(** The children of a node, in order. *)
Definition mapM {A B} (f : A -> M B) : list A -> M (list B) :=
  fix go (ts : list A) : M (list B) :=
    match ts with
    | [] => mret []
    | t :: ts' =>
        let* v := f t in
        let* vs := go ts' in
        mret (v :: vs)
    end.

(** [ExpressionEvaluator.cell_lookup] *)
Definition cell_lookup (ref : option string * string * string) : M pyval :=
  fun wb =>
    let '(ref_sheet, ref_col, ref_row) := ref in
    let found :=
      match ref_sheet with
      | None => Ok (home wb)
      | Some name => get_sheet_by_name wb name
      end in
    match found with
    | Raise KeyError => (Raise (ExpressionEvaluationException REF), wb)
    | Raise e => (Raise e, wb)
    | Ok sheet =>
        match coordinate_from_spreadsheet (ref_col ++ ref_row) with
        | Raise IndexError => (Ok (VInt 0), wb)
        | Raise e => (Raise e, wb)
        | Ok (row, column) =>
            let '(r, sheet') := sheet_cell sheet row column false in
            let wb' := put_sheet wb ref_sheet sheet' in
            match r with
            | Raise IndexError => (Ok (VInt 0), wb')
            | Raise e => (Raise e, wb')
            | Ok cell => (Ok (cell_value cell), wb')
            end
        end
    end.

(* ===================================================================== *)
(** ** Regular expressions, as [re.match] runs them *)
(* ===================================================================== *)

(** The operators that the evaluator's pattern and the grammar's terminals
    use.  Quantifiers are greedy. *)
Inductive regex : Type :=
| Chr (c : ascii)                              (* a literal character *)
| Class (p : ascii -> bool)                    (* a character class   *)
| Seq (r s : regex)                            (* r s                 *)
| Alt (r s : regex)                            (* r | s               *)
| Opt (r : regex)                              (* r?                  *)
| Rep (r : regex) (lo : nat) (hi : option nat) (* r{lo,hi}; r+ is r{1,} *).

(** Greedy repetition of [step]: one more round first; when that fails and
    [lo] rounds are done, go on with the rest of the pattern [k]. *)
Fixpoint repeat_greedy {A} (step : string -> (string -> option A) -> option A)
    (lo fuel : nat) (s : string) (k : string -> option A) : option A :=
  match fuel with
  | O => match lo with O => k s | S _ => None end
  | S fuel' =>
      match step s (fun t => repeat_greedy step (Nat.pred lo) fuel' t k) with
      | Some a => Some a
      | None => match lo with O => k s | S _ => None end
      end
  end.

(** Backtracking matcher: [rmatch r s k] matches [r] at the front of [s] and
    hands what is left to [k], the rest of the pattern; when [k] fails the
    next way of matching [r] is tried, in the order of [re]. *)
Fixpoint rmatch {A} (r : regex) (s : string) (k : string -> option A) : option A :=
  match r with
  | Chr c =>
      match s with
      | String d t => if Ascii.eqb c d then k t else None
      | EmptyString => None
      end
  | Class p =>
      match s with
      | String d t => if p d then k t else None
      | EmptyString => None
      end
  | Seq r1 r2 => rmatch r1 s (fun t => rmatch r2 t k)
  | Alt r1 r2 =>
      match rmatch r1 s k with
      | Some a => Some a
      | None => rmatch r2 s k
      end
  | Opt r1 =>
      match rmatch r1 s k with
      | Some a => Some a
      | None => k s
      end
  | Rep r1 lo hi =>
      repeat_greedy (fun t k' => rmatch r1 t k') lo
        (match hi with Some h => h | None => String.length s end) s k
  end.

(** The text that was matched between the positions [s] and its suffix [t]. *)
Definition consumed (s t : string) : string :=
  String.substring 0 (String.length s - String.length t) s.

(** [pattern.fullmatch]: the whole text, nothing left. *)
Definition fullmatch (r : regex) (s : string) : bool :=
  match rmatch r s (fun t => match t with EmptyString => Some tt | _ => None end) with
  | Some _ => true
  | None => false
  end.

(** The pattern of [atomic_string]:
    [('?[A-Za-z0-9_ ]+'?!)?(\$?[A-Za-z]{1,3})(\$?\d{1,5})] *)
Definition sheet_char (c : ascii) : bool :=
  is_letter c || is_digit c || Ascii.eqb c "_" || Ascii.eqb c " ".

Definition sheet_group : regex :=
  Seq (Opt (Chr "'")) (Seq (Rep (Class sheet_char) 1 None) (Seq (Opt (Chr "'")) (Chr "!"))).

Definition col_group : regex := Seq (Opt (Chr "$")) (Rep (Class is_letter) 1 (Some 3%nat)).

Definition row_group : regex := Seq (Opt (Chr "$")) (Rep (Class is_digit) 1 (Some 5%nat)).

(** The groups [(col)(row)] from position [s1], after group 1 gave [sheet]. *)
Definition col_row_groups (sheet : option string) (s1 : string)
    : option (option string * string * string) :=
  rmatch col_group s1 (fun s2 =>
    rmatch row_group s2 (fun s3 =>
      Some (sheet, consumed s1 s2, consumed s2 s3))).

(** [re.match(pattern, name)] and [res.groups()]: anchored at the start
    only; the optional group 1 is tried first, then skipped. *)
Definition re_match (name : string) : option (option string * string * string) :=
  match rmatch sheet_group name (fun s1 => col_row_groups (Some (consumed name s1)) s1) with
  | Some g => Some g
  | None => col_row_groups None name
  end.

Definition endswith (s p : string) : bool :=
  String.eqb (String.substring (String.length s - String.length p) (String.length p) s) p
  && (String.length p <=? String.length s)%nat.

(** [s[1:-1]] *)
Definition strip_ends (s : string) : string :=
  drop_last (String.substring 1 (String.length s - 1) s).

(** [ExpressionEvaluator.atomic_string] *)
Definition atomic_string (name : string) : M pyval :=
  if String.eqb name "TRUE" then mret (VBool true)
  else if String.eqb name "FALSE" then mret (VBool false)
  else
    match re_match name with
    | Some (sheet, col, row) =>
        let sheet := option_map drop_last sheet in
        let sheet :=
          match sheet with
          | Some s => if startswith s "'" && endswith s "'" then Some (strip_ends s) else sheet
          | None => None
          end in
        let* cell_value := cell_lookup (sheet, col, row) in
        let cell_value :=
          match cell_value with
          | VObj _ _ value => value
          | _ => cell_value
          end in
        mret cell_value
    | None => mraise (ExpressionEvaluationException NAME)
    end.

(* ===================================================================== *)
(** ** Parse trees and the tree walk *)
(* ===================================================================== *)

(** What [_parser.parse(expression)] yields for the grammar [_grammar]: the
    rules with a [->] alias are nodes, the [?] rules with one child are
    inlined, tokens are the matched text.  The leading "=" or "+", the
    parentheses and the commas are filtered out by the parser; a function
    node holds its name and its argument subtrees. *)
#[local] Unset Elimination Schemes.
Inductive tree : Type :=
| T_number (val : string)
| T_string (a : string)
| T_function (name : string) (args : list tree)
| T_error_ref
| T_atomic_string (name : string)
| T_logical (a : tree) (op : string) (b : tree)
| T_concat (a b : tree)
| T_arithmetic (a : tree) (op : string) (b : tree).
#[local] Set Elimination Schemes.

(** Structural induction on parse trees, through the argument lists. *)
Section TreeInduction.

Variable P : tree -> Prop.
Hypothesis P_number : forall val, P (T_number val).
Hypothesis P_string : forall a, P (T_string a).
Hypothesis P_function : forall name args, Forall P args -> P (T_function name args).
Hypothesis P_error_ref : P T_error_ref.
Hypothesis P_atomic_string : forall name, P (T_atomic_string name).
Hypothesis P_logical : forall a op b, P a -> P b -> P (T_logical a op b).
Hypothesis P_concat : forall a b, P a -> P b -> P (T_concat a b).
Hypothesis P_arithmetic : forall a op b, P a -> P b -> P (T_arithmetic a op b).

Fixpoint tree_ind (t : tree) : P t :=
  match t with
  | T_number val => P_number val
  | T_string a => P_string a
  | T_function name args =>
      P_function name args
        ((fix all (ts : list tree) : Forall P ts :=
            match ts with
            | [] => @List.Forall_nil tree P
            | t' :: ts' => @List.Forall_cons tree P t' ts' (tree_ind t') (all ts')
            end) args)
  | T_error_ref => P_error_ref
  | T_atomic_string name => P_atomic_string name
  | T_logical a op b => P_logical a op b (tree_ind a) (tree_ind b)
  | T_concat a b => P_concat a b (tree_ind a) (tree_ind b)
  | T_arithmetic a op b => P_arithmetic a op b (tree_ind a) (tree_ind b)
  end.

End TreeInduction.

(** What a call of [evaluate] does: return a value, return a member of
    [EvaluationError], or let an exception escape. *)
Inductive outcome : Type :=
| Returns (v : pyval)
| ReturnsError (e : EvaluationError)
| Raises (e : exn).

Section Evaluation.

Variable float_repr : float64 -> string.
Variable libm_pow : float64 -> float64 -> float64.

(** [Transformer.transform]: children first, left to right, then the
    method of the node; the first exception ends the walk. *)
Fixpoint transform (t : tree) : M pyval :=
  match t with
  | T_number val => mlift (number val)
  | T_string a => mret (string_rule a)
  | T_function name args =>
      let* vs := mapM transform args in
      mlift (function float_repr name vs)
  | T_error_ref => mlift error_ref
  | T_atomic_string name => atomic_string name
  | T_logical a op b =>
      let* x := transform a in
      let* y := transform b in
      mlift (logical x op y)
  | T_concat a b =>
      let* x := transform a in
      let* y := transform b in
      mlift (concat float_repr x y)
  | T_arithmetic a op b =>
      let* x := transform a in
      let* y := transform b in
      mlift (arithmetic libm_pow x op y)
  end.

(** [def evaluate(expression, cell)], from the parse tree on.  The
    library wraps what a rule raises in [VisitError]; [ex.orig_exc] is the
    exception of the rule. *)
Definition evaluate (expression : tree) (cell : Workbook) : outcome * Workbook :=
  match transform expression cell with
  | (Ok result, wb) => (Returns result, wb)
  | (Raise ZeroDivisionError, wb) => (ReturnsError DIV0, wb)
  | (Raise (ExpressionEvaluationException error), wb) => (ReturnsError error, wb)
  | (Raise orig_exc, wb) => (Raises orig_exc, wb)
  end.

End Evaluation.

(* ===================================================================== *)
(** ** Terminals of the grammar *)
(* ===================================================================== *)

(** [common.SIGNED_NUMBER], from the grammar library's [common] module:
    INT is DIGIT+, DECIMAL is INT "." INT? or "." INT, the exponent is
    e or E and a signed INT, FLOAT is INT with an exponent or DECIMAL with an
    optional one, NUMBER is FLOAT or INT. *)
Definition INT : regex := Rep (Class is_digit) 1 None.
Definition SIGN : regex := Alt (Chr "+") (Chr "-").
Definition SIGNED_INT : regex := Seq (Opt SIGN) INT.
Definition DECIMAL : regex :=
  Alt (Seq INT (Seq (Chr ".") (Opt INT))) (Seq (Chr ".") INT).
Definition EXP : regex := Seq (Alt (Chr "e") (Chr "E")) SIGNED_INT.
Definition FLOAT : regex := Alt (Seq INT EXP) (Seq DECIMAL (Opt EXP)).
Definition NUMBER : regex := Alt FLOAT INT.
Definition SIGNED_NUMBER : regex := Seq (Opt SIGN) NUMBER.

(** [ATOMIC_STR: (LETTER | "$" | "'") ("_"|LETTER|DIGIT|"."|"!"|"$"|"'"|" ")*] *)
Definition atomic_first (c : ascii) : bool :=
  is_letter c || Ascii.eqb c "$" || Ascii.eqb c "'".

Definition atomic_next (c : ascii) : bool :=
  Ascii.eqb c "_" || is_letter c || is_digit c || Ascii.eqb c "." || Ascii.eqb c "!"
  || Ascii.eqb c "$" || Ascii.eqb c "'" || Ascii.eqb c " ".

Definition ATOMIC_STR : regex := Seq (Class atomic_first) (Rep (Class atomic_next) 0 None).

(** [common.ESCAPED_STRING], from the grammar library's [common] module:
    a double quote, then as few characters as possible, none a line break,
    up to the first double quote that an even number of backslashes
    precedes (so a quote after an odd number of backslashes stays inside).
    [string_end s escaped] reads on from [s], [escaped] telling whether an
    odd number of backslashes came just before, and gives what follows the
    closing quote.  (The characters 10, 34 and 92 are the line feed, the
    double quote and the backslash.) *)
Fixpoint string_end (s : string) (escaped : bool) : option string :=
  match s with
  | EmptyString => None
  | String c r =>
      if Ascii.eqb c (ascii_of_nat 10) then None
      else if escaped then string_end r false
      else if Ascii.eqb c (ascii_of_nat 92) then string_end r true
      else if Ascii.eqb c (ascii_of_nat 34) then Some r
      else string_end r false
  end.

(** The text is one ESCAPED_STRING token. *)
Definition is_ESCAPED_STRING (text : string) : bool :=
  match text with
  | String c r =>
      Ascii.eqb c (ascii_of_nat 34)
      && match string_end r false with
         | Some EmptyString => true
         | _ => false
         end
  | EmptyString => false
  end.

(** The parse of a formula that is the marker "=" and one literal [text]:
    a NUMBER token is a [number] node, an ATOMIC_STR token an
    [atomic_string] node, the literal "#REF!" an [error_ref] node, an
    ESCAPED_STRING token a [string] node.  (The terminals share no first
    character.)  No other text is a single literal. *)
Definition parse_literal (text : string) : option tree :=
  if fullmatch SIGNED_NUMBER text then Some (T_number text)
  else if fullmatch ATOMIC_STR text then Some (T_atomic_string text)
  else if String.eqb text "#REF!" then Some T_error_ref
  else if is_ESCAPED_STRING text then Some (T_string text)
  else None.

(* ===================================================================== *)
(** ** A model runtime, for closed examples *)
(* ===================================================================== *)

(** [pow_exceeds_range x y]: [y] is a positive integer [n] and [|x| >= 2^k]
    with [k * n >= 1024], so that [|x|^n] is beyond every binary64 number. *)
Definition pow_exceeds_range (x y : float64) : bool :=
  match x, y with
  | S754_finite _ m e, S754_finite false _ _ =>
      float_is_integer y && (1024 <=? (Z.log2 (Z.pos m) + e) * float_to_Z y)
  | _, _ => false
  end.

(** A C library in miniature: exact powers for a non-negative integer
    exponent, rounded to nearest; an infinity beyond the range; NaN where
    this model does not compute. *)
Definition model_pow (x y : float64) : float64 :=
  if pow_exceeds_range x y then
    S754_infinity (float_sign x && Z.odd (float_to_Z y))
  else
    match x, y with
    | _, S754_zero _ => float_one
    | S754_zero s, S754_finite false _ _ =>
        if float_is_integer y then S754_zero (s && Z.odd (float_to_Z y)) else S754_nan
    | S754_finite s m e, S754_finite false _ _ =>
        if float_is_integer y then
          let n := float_to_Z y in
          binary_normalize prec emax
            ((if s && Z.odd n then -1 else 1) * Z.pos m ^ n) (e * n) false
        else S754_nan
    | _, _ => S754_nan
    end.

(** A float printer in miniature: the exact positional decimal expansion
    of a finite float that is not an integer. *)
Fixpoint zero_pad (n : nat) (s : string) : string :=
  match n with
  | O => s
  | S n' => if (String.length s <? n)%nat then zero_pad n' (String "0" s) else s
  end.

Definition model_float_repr (f : float64) : string :=
  match f with
  | S754_nan => "nan"
  | S754_infinity s => if s then "-inf" else "inf"
  | S754_zero s => if s then "-0.0" else "0.0"
  | S754_finite s m e =>
      let sign := if s then "-" else EmptyString in
      if 0 <=? e then sign ++ str_of_Z (Z.pos m * 2 ^ e) ++ ".0"
      else
        let k := - e in
        sign ++ str_of_Z (Z.pos m / 2 ^ k) ++ "."
        ++ zero_pad (Z.to_nat k) (str_of_Z ((Z.pos m mod 2 ^ k) * 5 ^ k))
  end.

(* ===================================================================== *)
(** ** Definitions for the properties *)
(* ===================================================================== *)

(** *** Comparison across value kinds *)

(** The specification's reading of a comparison: three broad categories
    with fixed ordinals, the native order inside a category (text in lower
    case), the order of the ordinals across categories. *)
Inductive category : Type := Numeric | Text | Boolean.

Definition category_of (v : pyval) : option category :=
  match v with
  | VInt _ | VFloat _ => Some Numeric
  | VStr _ => Some Text
  | VBool _ => Some Boolean
  | _ => None
  end.

Definition ordinal (c : category) : Z :=
  match c with
  | Numeric => 0
  | Text => 50
  | Boolean => 100
  end.

Definition category_eqb (c d : category) : bool :=
  match c, d with
  | Numeric, Numeric | Text, Text | Boolean, Boolean => true
  | _, _ => false
  end.

(** The native three-way order of two values of one category; [None] is
    the unordered pair, which only a NaN makes. *)
Definition spec_native_compare (a b : pyval) : option comparison :=
  match a, b with
  | VStr s, VStr t => Some (String.compare (lower s) (lower t))
  | VBool x, VBool y => Some (bool_to_Z x ?= bool_to_Z y)
  | _, _ =>
      match as_num a, as_num b with
      | Some x, Some y => num_compare x y
      | _, _ => None
      end
  end.

(** One of the six operators, applied to a three-way result. *)
Definition spec_apply_op (op : string) (c : option comparison) : option bool :=
  if String.eqb op "=" then Some match c with Some Eq => true | _ => false end
  else if String.eqb op "<>" then Some match c with Some Eq => false | _ => true end
  else if String.eqb op "<" then Some match c with Some Lt => true | _ => false end
  else if String.eqb op "<=" then Some match c with Some (Lt | Eq) => true | _ => false end
  else if String.eqb op ">" then Some match c with Some Gt => true | _ => false end
  else if String.eqb op ">=" then Some match c with Some (Gt | Eq) => true | _ => false end
  else None.

Definition spec_logical (a : pyval) (op : string) (b : pyval) : option bool :=
  match category_of a, category_of b with
  | Some ca, Some cb =>
      if category_eqb ca cb then spec_apply_op op (spec_native_compare a b)
      else spec_apply_op op (Some (ordinal ca ?= ordinal cb))
  | _, _ => None
  end.

Definition logical_ops : list string := ["="; "<>"; "<"; "<="; ">"; ">="].

Fixpoint all_chars (p : ascii -> bool) (s : string) : bool :=
  match s with
  | EmptyString => true
  | String c r => p c && all_chars p r
  end.

(** *** An example host *)

(** A workbook of two sheets.  The formula's cell is on "Sheet1", where A1
    holds 7 and B2 an expression descriptor; "Data" holds text in A1. *)
Definition example_sheet : Sheet :=
  {| max_allowed_row := 65535; max_allowed_column := 255;
     cells := <[(0, 0) := VInt 7]>
              (<[(1, 1) := VObj "gnumeric.expression.Expression" 2748 (VStr "=sum(A2:A10)")]> ∅) |}.

Definition example_data_sheet : Sheet :=
  {| max_allowed_row := 65535; max_allowed_column := 255;
     cells := <[(0, 0) := VStr "x"]> ∅ |}.

Definition example_workbook : Workbook :=
  {| home_title := "Sheet1"; home := example_sheet;
     others := <["Data" := example_data_sheet]> ∅ |}.

(** The token of a double-quoted text literal. *)
Definition quoted (s : string) : string :=
  String (ascii_of_nat 34) (s ++ String (ascii_of_nat 34) EmptyString).

(** An operand that is neither an int, a float nor a boolean. *)
Definition non_numeric (v : pyval) : Prop :=
  match v with
  | VStr _ | VNone | VObj _ _ _ => True
  | VInt _ | VFloat _ | VBool _ => False
  end.

(** *** Kinds of errors *)

(** The five kinds that some rule raises. *)
Definition raised_kind (e : EvaluationError) : Prop :=
  e = VALUE \/ e = NA \/ e = NAME \/ e = NUM \/ e = REF.

(** A result whose typed error, if it is one, is of a raised kind. *)
Definition kinds_ok {A} (r : result A) : Prop :=
  forall e, r = Raise (ExpressionEvaluationException e) -> raised_kind e.

(** A result that is no typed error at all. *)
Definition untyped {A} (r : result A) : Prop :=
  forall e, r <> Raise (ExpressionEvaluationException e).

(** *** References and patterns *)

(** The sheet name in group 1 of the pattern: without the "!" and, when
    both are there, without the apostrophes. *)
Definition sheet_name_of (group1 : option string) : option string :=
  match option_map drop_last group1 with
  | Some s => if startswith s "'" && endswith s "'" then Some (strip_ends s) else Some s
  | None => None
  end.

(** What [atomic_string] returns for a looked-up value: the [.value] of an
    object, any other value as it is. *)
Definition unwrap (cell_value : pyval) : pyval :=
  match cell_value with
  | VObj _ _ value => value
  | _ => cell_value
  end.

(** The sheet that a reference is about, if the workbook has it. *)
Definition target_sheet (wb : Workbook) (ref_sheet : option string) : option Sheet :=
  match ref_sheet with
  | None => Some (home wb)
  | Some n => if String.eqb n (home_title wb) then Some (home wb) else others wb !! n
  end.

(** The C library's answer beyond the range: an infinity. *)
Definition libm_overflow_law (pow : float64 -> float64 -> float64) : Prop :=
  forall x y, pow_exceeds_range x y = true -> is_infinity (pow x y) = true.

(** The words of a pattern, apart from the order in which the matcher
    tries them.  [Rep r lo hi] is one round of [r] and then
    [Rep r (lo - 1) (hi - 1)], or nothing when [lo] is 0. *)
Inductive matches : regex -> string -> Prop :=
| M_chr c : matches (Chr c) (String c EmptyString)
| M_class (p : ascii -> bool) c : p c = true -> matches (Class p) (String c EmptyString)
| M_seq r s u v : matches r u -> matches s v -> matches (Seq r s) (u ++ v)
| M_alt_l r s u : matches r u -> matches (Alt r s) u
| M_alt_r r s u : matches s u -> matches (Alt r s) u
| M_opt_none r : matches (Opt r) EmptyString
| M_opt_some r u : matches r u -> matches (Opt r) u
| M_rep_done r hi : matches (Rep r 0 hi) EmptyString
| M_rep_more r lo hi u v :
    hi <> Some 0%nat ->
    matches r u ->
    matches (Rep r (Nat.pred lo) (option_map Nat.pred hi)) v ->
    matches (Rep r lo hi) (u ++ v).

(** The text [t] does not begin with a character of [p]. *)
Definition head_not (p : ascii -> bool) (t : string) : Prop :=
  match t with
  | EmptyString => True
  | String d _ => p d = false
  end.

(** Words of the coordinate groups hold no "!", words of the sheet group
    do. *)
Definition not_bang (c : ascii) : bool := negb (Ascii.eqb c "!").

(** Group 1 of a match: the sheet word when there is one. *)
Definition group_of (q : string) : option string :=
  match q with
  | EmptyString => None
  | String _ _ => Some q
  end.

(** Patterns whose repetitions are over one character class: each round
    takes one character, so the loop's bound on rounds is never short. *)
Fixpoint simple (r : regex) : bool :=
  match r with
  | Chr _ | Class _ => true
  | Seq r1 r2 | Alt r1 r2 => simple r1 && simple r2
  | Opt r1 => simple r1
  | Rep (Class _) _ _ => true
  | Rep _ _ _ => false
  end.

(** The pattern of [atomic_string] as a whole. *)
Definition reference_pattern : regex := Seq (Opt sheet_group) (Seq col_group row_group).

(** The pattern that the specification describes: the sheet qualifier is
    a bare run of letters, or an apostrophe-quoted name of any characters,
    and then "!". *)
Definition spec_sheet_qualifier : regex :=
  Seq (Alt (Rep (Class is_letter) 1 None)
           (Seq (Chr "'") (Seq (Rep (Class (fun _ => true)) 0 None) (Chr "'"))))
      (Chr "!").

Definition spec_reference_pattern : regex :=
  Seq (Opt spec_sheet_qualifier) (Seq col_group row_group).

(** *** Display text and its round trip *)

Section SpecRuntime.

Variable float_repr : float64 -> string.
Variable libm_pow : float64 -> float64 -> float64.







End SpecRuntime.

(** *** Further patterns and operator lists *)

(** [FUNC_NAME: LETTER ("_"|LETTER|DIGIT|".")*] *)
Definition func_next (c : ascii) : bool :=
  Ascii.eqb c "_" || is_letter c || is_digit c || Ascii.eqb c ".".

Definition FUNC_NAME : regex := Seq (Class is_letter) (Rep (Class func_next) 0 None).

(** The operators of the grammar's [arithmetic] nodes. *)
Definition arithmetic_ops : list string := ["+"; "-"; "*"; "/"; "^"].

(** A value that is an int or a float. *)
Definition is_number (v : pyval) : Prop :=
  match v with
  | VInt _ | VFloat _ => True
  | _ => False
  end.

(** A result that is not the exception [IndexError]. *)
Definition no_index_error {A} (r : result A) : Prop := r <> Raise IndexError.

(** The four operators that Python itself evaluates. *)
Definition plain_ops : list string := ["+"; "-"; "*"; "/"].

(** A workbook whose home sheet has one cell, A1, with no value yet. *)
Definition blank_cell_workbook : Workbook :=
  {| home_title := "Sheet1";
     home := {| max_allowed_row := 65535; max_allowed_column := 255;
                cells := <[(0, 0) := VNone]> ∅ |};
     others := ∅ |}.

(** *** The shape of a NUMBER token *)

(** An optional sign. *)
Definition sign_text (sg : string) : Prop :=
  sg = EmptyString \/ sg = "+" \/ sg = "-".

(** A run of digits, one at least. *)
Definition digit_run (d : string) : Prop :=
  all_chars is_digit d = true /\ d <> EmptyString.

(** An optional exponent: e or E, an optional sign, digits. *)
Definition exponent_text (ex : string) : Prop :=
  ex = EmptyString
  \/ exists c sg d, ex = String c (sg ++ d)
       /\ (c = "e" \/ c = "E")%char /\ sign_text sg /\ digit_run d.

(** A character that is no digit. *)
Definition not_digit (c : ascii) : bool := negb (is_digit c).

(** The test of [=] on a three-way result. *)
Definition is_eq (c : comparison) : bool := match c with Eq => true | _ => false end.

(** A value other than the float NaN. *)
Definition not_nan (v : pyval) : Prop := v <> VFloat S754_nan.

(** *** Formulas over plain values *)

(** A number, a text or a boolean. *)
Definition plain (v : pyval) : bool :=
  match category_of v with
  | Some _ => true
  | None => false
  end.

(** A host whose cells hold plain values, as they are or as the [value]
    of an object. *)
Definition plain_sheet (sh : Sheet) : Prop :=
  map_Forall (fun _ v => plain (unwrap v) = true) (cells sh).

Definition plain_host (wb : Workbook) : Prop :=
  plain_sheet (home wb) /\ map_Forall (fun _ sh => plain_sheet sh) (others wb).

(** A tree as the grammar builds it - NUMBER tokens, the operators of the
    grammar - in which LEN is called with one argument. *)
Fixpoint regular_tree (t : tree) : bool :=
  match t with
  | T_number val => fullmatch SIGNED_NUMBER val
  | T_string _ | T_error_ref | T_atomic_string _ => true
  | T_function name args =>
      (negb (String.eqb (lower name) "len") || Nat.eqb (List.length args) 1)
      && forallb regular_tree args
  | T_logical a op b =>
      existsb (String.eqb op) logical_ops && regular_tree a && regular_tree b
  | T_concat a b => regular_tree a && regular_tree b
  | T_arithmetic a op b =>
      existsb (String.eqb op) arithmetic_ops && regular_tree a && regular_tree b
  end.

(** The exceptions that arithmetic itself can end in, and the typed
    errors; not the [TypeError], [KeyError] and [IndexError] of a rule
    applied to a value it was not written for. *)
Definition expected (e : exn) : bool :=
  match e with
  | TypeError _ | KeyError | IndexError => false
  | _ => true
  end.

Definition raises_expected {A} (r : result A) : Prop :=
  match r with
  | Ok _ => True
  | Raise e => expected e = true
  end.

Definition sound_result (r : result pyval) : Prop :=
  match r with
  | Ok v => plain v = true
  | Raise e => expected e = true
  end.

(** *** Where an error member comes from *)

(** The nodes whose rule can end in the error member [k]: a division for
    DIV0, a power for NUM, any arithmetic node or a call for VALUE, a call
    for NA, a call or a bare token for NAME, a bare token or the literal
    "#REF!" for REF. *)
Definition source_of (k : EvaluationError) (t : tree) : bool :=
  match k, t with
  | DIV0, T_arithmetic _ op _ => String.eqb op "/"
  | NUM, T_arithmetic _ op _ => String.eqb op "^"
  | VALUE, T_arithmetic _ _ _ => true
  | (NAME | VALUE | NA), T_function _ _ => true
  | (NAME | REF), T_atomic_string _ => true
  | REF, T_error_ref => true
  | _, _ => false
  end.

(** Some node of the tree satisfies [p]. *)
Fixpoint somewhere (p : tree -> bool) (t : tree) : bool :=
  p t ||
  match t with
  | T_function _ args => existsb (somewhere p) args
  | T_logical a _ b | T_concat a b | T_arithmetic a _ b => somewhere p a || somewhere p b
  | _ => false
  end.

(** The error member that [evaluate] returns for an exception, if any. *)
Definition member_of (e : exn) : option EvaluationError :=
  match e with
  | ZeroDivisionError => Some DIV0
  | ExpressionEvaluationException k => Some k
  | _ => None
  end.

(** A result that raises, if at all, an exception for which [evaluate]
    returns one of the members [ks]. *)
Definition members_among (ks : list EvaluationError) {A} (r : result A) : Prop :=
  match r with
  | Ok _ => True
  | Raise e =>
      match member_of e with
      | Some k => In k ks
      | None => True
      end
  end.

(** *** ASCII text *)

(** The model's [lower] is [str.lower] on ASCII text, where the only cased
    letters are A-Z and a-z; the statements about the case of text are
    made for such text. *)
Definition is_ascii (c : ascii) : bool := (nat_of_ascii c <? 128)%nat.


(* ===================================================================== *)
(** * Properties *)
(* ===================================================================== *)

(** ** Comparison across value kinds *)

Lemma string_compare_refl (s : string) : String.compare s s = Eq.
Proof.
  induction s as [|c s IH]; simpl; [reflexivity|].
  unfold Ascii.compare. now rewrite N.compare_refl.
Qed.

Lemma string_compare_eqb (s t : string) :
  String.eqb s t = match String.compare s t with Eq => true | _ => false end.
Proof.
  destruct (String.eqb_spec s t) as [->|Hne].
  - now rewrite string_compare_refl.
  - destruct (String.compare s t) eqn:E; try reflexivity.
    apply String.compare_eq_iff in E. contradiction.
Qed.

Lemma spec_apply_op_total (op : string) (c : option comparison) :
  In op logical_ops -> exists r, spec_apply_op op c = Some r.
Proof.
  unfold logical_ops. simpl.
  intros [<-|[<-|[<-|[<-|[<-|[<-|[]]]]]]]; unfold spec_apply_op; simpl; eauto.
Qed.

(** The rule agrees with the specification's reading on every pair of
    values that have a category. *)
Lemma logical_refines_spec (a b : pyval) (op : string) (r : bool) :
  spec_logical a op b = Some r -> logical a op b = Ok (VBool r).
Proof.
  unfold spec_logical.
  destruct (category_of a) as [ca|] eqn:Ha; [|discriminate].
  destruct (category_of b) as [cb|] eqn:Hb; [|discriminate].
  unfold spec_apply_op, logical.
  destruct a; try discriminate; destruct b; try discriminate;
    injection Ha as <-; injection Hb as <-; cbn -[String.eqb lower Z.compare];
    repeat (destruct (String.eqb op _); [
      intros [= <-]; cbn -[lower Z.compare];
      rewrite ?string_compare_eqb;
      repeat match goal with
             | |- context [match ?c with _ => _ end] => destruct c eqn:?
             end; try reflexivity; try discriminate | ]);
    try discriminate.
Qed.



(** ** Text of a value, and concatenation *)

Lemma all_chars_app (p : ascii -> bool) (s t : string) :
  all_chars p (s ++ t) = all_chars p s && all_chars p t.
Proof.
  induction s as [|c s IH]; simpl; [reflexivity|].
  now rewrite IH, andb_assoc.
Qed.

Lemma all_chars_weaken (p q : ascii -> bool) (s : string) :
  (forall c, p c = true -> q c = true) ->
  all_chars p s = true -> all_chars q s = true.
Proof.
  intros Hpq. induction s as [|c s IH]; simpl; [reflexivity|].
  intros [Hc Hs]%andb_true_iff. rewrite (Hpq _ Hc). now apply IH.
Qed.







Section Display.

Variable float_repr : float64 -> string.



End Display.


(** ** Arithmetic and operand kinds *)

Lemma non_numeric_isinstance (v : pyval) :
  non_numeric v <-> isinstance_int_float v = false.
Proof. destruct v; simpl; intuition discriminate. Qed.

Section Arithmetic.

Variable float_repr : float64 -> string.
Variable libm_pow : float64 -> float64 -> float64.

Lemma transform_arithmetic (ta tb : tree) (op : string) (wb wb1 wb2 : Workbook)
    (a b : pyval) :
  transform float_repr libm_pow ta wb = (Ok a, wb1) ->
  transform float_repr libm_pow tb wb1 = (Ok b, wb2) ->
  transform float_repr libm_pow (T_arithmetic ta op tb) wb
  = (arithmetic libm_pow a op b, wb2).
Proof.
  intros Ha Hb. simpl. unfold mbind. rewrite Ha, Hb. reflexivity.
Qed.

(** C3, as amended.  For every operator, an operand that is text, [None]
    or an object makes the arithmetic rule raise VALUE, and [evaluate]
    return it.  A boolean is an instance of [int]: it is accepted, and
    counts as 1 or 0. *)
Theorem arithmetic_rejects_non_numbers (ta tb : tree) (op : string)
    (wb wb1 wb2 : Workbook) (a b : pyval) :
  transform float_repr libm_pow ta wb = (Ok a, wb1) ->
  transform float_repr libm_pow tb wb1 = (Ok b, wb2) ->
  non_numeric a \/ non_numeric b ->
  arithmetic libm_pow a op b = Raise (ExpressionEvaluationException VALUE)
  /\ evaluate float_repr libm_pow (T_arithmetic ta op tb) wb = (ReturnsError VALUE, wb2)
  /\ (forall (x : bool) (v : pyval),
        arithmetic libm_pow (VBool x) op v = arithmetic libm_pow (VInt (bool_to_Z x)) op v
        /\ arithmetic libm_pow v op (VBool x) = arithmetic libm_pow v op (VInt (bool_to_Z x))).
Proof.
  intros Ha Hb Hnon.
  assert (Hv : arithmetic libm_pow a op b = Raise (ExpressionEvaluationException VALUE)).
  { unfold arithmetic.
    destruct Hnon as [H|H]; apply non_numeric_isinstance in H; rewrite H;
      [reflexivity | now rewrite orb_true_r]. }
  split; [exact Hv|]. split.
  - unfold evaluate. rewrite (transform_arithmetic _ _ _ _ _ _ _ _ Ha Hb), Hv.
    reflexivity.
  - intros x v. split; destruct v; reflexivity.
Qed.

End Arithmetic.

Lemma arithmetic_rejects_non_numbers_witness :
  arithmetic model_pow (VStr "a") "+" (VInt 1) = Raise (ExpressionEvaluationException VALUE)
  /\ evaluate model_float_repr model_pow
       (T_arithmetic (T_string (quoted "a")) "+" (T_number "1")) example_workbook
     = (ReturnsError VALUE, example_workbook).
Proof.
  pose proof (arithmetic_rejects_non_numbers model_float_repr model_pow
                (T_string (quoted "a")) (T_number "1") "+"
                example_workbook example_workbook example_workbook
                (VStr "a") (VInt 1) eq_refl eq_refl (or_introl I)) as H.
  split; [exact (proj1 H)|exact (proj1 (proj2 H))].
Defined.

(** C3, as stated, fails on a boolean operand: [TRUE + 1] is 2. *)
Lemma arithmetic_boolean_counterexample :
  arithmetic model_pow (VBool true) "+" (VInt 1) = Ok (VInt 2)
  /\ fst (evaluate model_float_repr model_pow
            (T_arithmetic (T_atomic_string "TRUE") "+" (T_number "1")) example_workbook)
     = Returns (VInt 2)
  /\ fst (evaluate model_float_repr model_pow
            (T_arithmetic (T_atomic_string "TRUE") "+" (T_number "1")) example_workbook)
     <> ReturnsError VALUE.
Proof.
  split; [reflexivity|]. split; [reflexivity|]. discriminate.
Qed.

(** ** The host is only read *)

Lemma put_sheet_home (wb : Workbook) : put_sheet wb None (home wb) = wb.
Proof. now destruct wb. Qed.

Lemma put_sheet_found (wb : Workbook) (n : string) (sh : Sheet) :
  get_sheet_by_name wb n = Ok sh -> put_sheet wb (Some n) sh = wb.
Proof.
  unfold get_sheet_by_name, put_sheet. destruct wb as [ht hm ot]; simpl.
  destruct (String.eqb n ht).
  - now intros [= ->].
  - destruct (ot !! n) as [sh'|] eqn:E; [|discriminate].
    intros [= ->]. f_equal. now apply insert_id.
Qed.

Lemma sheet_cell_read_only (sh : Sheet) (row column : Z) :
  snd (sheet_cell sh row column false) = sh.
Proof.
  unfold sheet_cell.
  destruct (_ || _); [reflexivity|].
  now destruct (cells sh !! (row, column)).
Qed.

Lemma cell_lookup_read_only (ref : option string * string * string) (wb : Workbook) :
  snd (cell_lookup ref wb) = wb.
Proof.
  destruct ref as [[ref_sheet ref_col] ref_row]. unfold cell_lookup.
  destruct ref_sheet as [n|].
  - destruct (get_sheet_by_name wb n) as [sh|e] eqn:Hs; [|now destruct e].
    destruct (coordinate_from_spreadsheet _) as [[r c]|e]; [|now destruct e].
    pose proof (sheet_cell_read_only sh r c) as Hc.
    destruct (sheet_cell sh r c false) as [res sh']. simpl in Hc. subst sh'.
    rewrite (put_sheet_found _ _ _ Hs). destruct res as [?|e]; [reflexivity|now destruct e].
  - destruct (coordinate_from_spreadsheet _) as [[r c]|e]; [|now destruct e].
    pose proof (sheet_cell_read_only (home wb) r c) as Hc.
    destruct (sheet_cell (home wb) r c false) as [res sh']. simpl in Hc. subst sh'.
    rewrite put_sheet_home. destruct res as [?|e]; [reflexivity|now destruct e].
Qed.

Lemma mbind_read_only {A B} (m : M A) (k : A -> M B) (wb : Workbook) :
  snd (m wb) = wb -> (forall a wb', snd (k a wb') = wb') -> snd (mbind m k wb) = wb.
Proof.
  intros Hm Hk. unfold mbind. destruct (m wb) as [[a|e] wb']; simpl in *; subst.
  - apply Hk.
  - reflexivity.
Qed.

Lemma atomic_string_read_only (name : string) (wb : Workbook) :
  snd (atomic_string name wb) = wb.
Proof.
  unfold atomic_string.
  destruct (String.eqb name "TRUE"); [reflexivity|].
  destruct (String.eqb name "FALSE"); [reflexivity|].
  destruct (re_match name) as [[[sheet col] row]|]; [|reflexivity].
  apply mbind_read_only; [apply cell_lookup_read_only|reflexivity].
Qed.

Lemma mapM_read_only {A B} (f : A -> M B) (ts : list A) :
  Forall (fun t => forall wb, snd (f t wb) = wb) ts ->
  forall wb, snd (mapM f ts wb) = wb.
Proof.
  induction 1 as [|t ts Ht _ IH]; intros wb; simpl; [reflexivity|].
  apply mbind_read_only; [apply Ht|]. intros v wb'.
  apply mbind_read_only; [apply IH|reflexivity].
Qed.

Section ReadOnly.

Variable float_repr : float64 -> string.
Variable libm_pow : float64 -> float64 -> float64.

(** The tree walk hands the host back as it got it. *)
Lemma transform_read_only (t : tree) :
  forall wb, snd (transform float_repr libm_pow t wb) = wb.
Proof.
  induction t as [val|a|name args IH| |name|a op b IHa IHb|a b IHa IHb|a op b IHa IHb]
    using tree_ind; intros wb; simpl; try reflexivity.
  - apply mbind_read_only; [now apply mapM_read_only|reflexivity].
  - apply atomic_string_read_only.
  - apply mbind_read_only; [apply IHa|]. intros x wb'.
    apply mbind_read_only; [apply IHb|reflexivity].
  - apply mbind_read_only; [apply IHa|]. intros x wb'.
    apply mbind_read_only; [apply IHb|reflexivity].
  - apply mbind_read_only; [apply IHa|]. intros x wb'.
    apply mbind_read_only; [apply IHb|reflexivity].
Qed.

Lemma evaluate_read_only (t : tree) (wb : Workbook) :
  snd (evaluate float_repr libm_pow t wb) = wb.
Proof.
  unfold evaluate. pose proof (transform_read_only t wb) as H.
  destruct (transform float_repr libm_pow t wb) as [[v|e] wb']; simpl in H; subst;
    [reflexivity|now destruct e].
Qed.

End ReadOnly.

(** ** Which errors the rules raise *)

Lemma untyped_kinds_ok {A} (r : result A) : untyped r -> kinds_ok r.
Proof. intros H e E. destruct (H e E). Qed.

Lemma to_float_untyped (x : num) : untyped (to_float x).
Proof.
  destruct x as [n|f]; intros e; simpl; [|discriminate].
  unfold float_of_Z. destruct (is_infinity _); discriminate.
Qed.

Lemma rbind_untyped {A B} (r : result A) (k : A -> result B) :
  untyped r -> (forall a, untyped (k a)) -> untyped (rbind r k).
Proof.
  intros Hr Hk e. destruct r as [a|x]; simpl; [apply Hk|].
  intros [= ->]. now destruct (Hr e).
Qed.

Lemma ok_untyped {A} (a : A) : untyped (Ok a).
Proof. intros e. discriminate. Qed.

Ltac untyped_binds :=
  repeat first
    [ apply ok_untyped
    | apply to_float_untyped
    | apply rbind_untyped; [|intros ?] ].

Lemma py_add_untyped (x y : num) : untyped (py_add x y).
Proof. unfold py_add. destruct x, y; untyped_binds. Qed.

Lemma py_sub_untyped (x y : num) : untyped (py_sub x y).
Proof. unfold py_sub. destruct x, y; untyped_binds. Qed.

Lemma py_mul_untyped (x y : num) : untyped (py_mul x y).
Proof. unfold py_mul. destruct x, y; untyped_binds. Qed.

Lemma py_truediv_untyped (x y : num) : untyped (py_truediv x y).
Proof.
  unfold py_truediv, int_true_divide.
  destruct x as [a|f], y as [b|g]; untyped_binds;
    repeat match goal with
           | |- untyped (if ?c then _ else _) => destruct c
           | |- untyped (let '(_, _) := ?p in _) => destruct p
           end;
    intros e; discriminate.
Qed.

Section ErrorKinds.

Variable float_repr : float64 -> string.
Variable libm_pow : float64 -> float64 -> float64.

Lemma math_pow_untyped (x y : num) : untyped (math_pow libm_pow x y).
Proof.
  unfold math_pow. untyped_binds.
  repeat match goal with
         | |- untyped (if ?c then _ else _) => destruct c
         end; intros e; discriminate.
Qed.

Lemma arithmetic_kinds_ok (a : pyval) (op : string) (b : pyval) :
  kinds_ok (arithmetic libm_pow a op b).
Proof.
  unfold arithmetic.
  destruct (_ || _); [intros e [= <-]; red; auto|].
  destruct (as_num a) as [x|]; [|intros e; discriminate].
  destruct (as_num b) as [y|]; [|intros e; discriminate].
  destruct (String.eqb op "+"); [apply untyped_kinds_ok, py_add_untyped|].
  destruct (String.eqb op "-"); [apply untyped_kinds_ok, py_sub_untyped|].
  destruct (String.eqb op "*"); [apply untyped_kinds_ok, py_mul_untyped|].
  destruct (String.eqb op "/"); [apply untyped_kinds_ok, py_truediv_untyped|].
  destruct (String.eqb op "^"); [|intros e; discriminate].
  pose proof (math_pow_untyped x y) as Hp.
  destruct (math_pow libm_pow x y) as [v|[]]; intros e; try discriminate.
  - intros E. now destruct (Hp e).
  - intros [= <-]. red; auto.
Qed.

Lemma py_order_untyped (sym : string) (test : comparison -> bool) (a b : pyval) :
  untyped (py_order sym test a b).
Proof.
  unfold py_order. intros e.
  destruct (as_num a); [destruct (as_num b)|]; try discriminate;
    destruct a; try discriminate; destruct b; discriminate.
Qed.

Lemma type_val_mapper_untyped (t : pytype) : untyped (type_val_mapper t).
Proof. intros e. destruct t; discriminate. Qed.

Lemma logical_untyped (a : pyval) (op : string) (b : pyval) :
  untyped (logical a op b).
Proof.
  unfold logical. apply rbind_untyped.
  - destruct (negb _); [|apply ok_untyped].
    repeat (apply rbind_untyped; [apply type_val_mapper_untyped|intros ?]).
    apply ok_untyped.
  - intros [x y].
    repeat match goal with
           | |- untyped (if ?c then _ else _) => destruct c
           end;
      try apply ok_untyped;
      try (apply rbind_untyped; [apply py_order_untyped|intros ?; apply ok_untyped]).
    intros e; discriminate.
Qed.

Lemma function_map_entries (k : string) (f : list pyval -> result pyval) :
  function_map float_repr !! k = Some f ->
  f = py_abs \/ f = lambda_len float_repr.
Proof.
  unfold function_map. intros H.
  apply lookup_insert_Some in H as [[_ <-]|[_ H]]; [now left|].
  apply lookup_insert_Some in H as [[_ <-]|[_ H]]; [now right|].
  rewrite lookup_empty in H. discriminate.
Qed.

Lemma py_abs_untyped (args : list pyval) : untyped (py_abs args).
Proof.
  intros e. unfold py_abs.
  destruct args as [|v [|w args]]; try discriminate. destruct v; discriminate.
Qed.

Lemma lambda_len_untyped (args : list pyval) : untyped (lambda_len float_repr args).
Proof.
  intros e. unfold lambda_len. destruct args as [|v [|w args]]; discriminate.
Qed.

Lemma function_kinds_ok (name : string) (args : list pyval) :
  kinds_ok (function float_repr name args).
Proof.
  unfold function.
  destruct (function_map float_repr !! lower name) as [f|] eqn:Hf.
  - assert (Hu : untyped (f args)).
    { destruct (function_map_entries _ _ Hf) as [->| ->];
        [apply py_abs_untyped|apply lambda_len_untyped]. }
    destruct (f args) as [v|[]]; intros e; try discriminate.
    + intros E. now destruct (Hu e).
    + destruct (startswith _ _); [intros [= <-]; red; auto|].
      destruct (contains _ _); [intros [= <-]; red; auto|discriminate].
    + intros [= <-]. red; auto.
  - intros e [= <-]. red; auto.
Qed.

Lemma cell_lookup_kinds_ok (ref : option string * string * string) (wb : Workbook) :
  kinds_ok (fst (cell_lookup ref wb)).
Proof.
  destruct ref as [[ref_sheet ref_col] ref_row]. unfold cell_lookup.
  assert (Hs : forall n, untyped (get_sheet_by_name wb n)).
  { intros n e. unfold get_sheet_by_name.
    destruct (String.eqb _ _); [discriminate|]. destruct (_ !! _); discriminate. }
  assert (Hc : forall s, untyped (coordinate_from_spreadsheet s)).
  { intros s e. unfold coordinate_from_spreadsheet.
    destruct (span_letters _) as [l d]. destruct l; [discriminate|].
    destruct (digits_to_Z d); [|discriminate]. destruct (_ <? _); discriminate. }
  assert (Hg : forall sh r c, untyped (fst (sheet_cell sh r c false))).
  { intros sh r c e. unfold sheet_cell.
    destruct (_ || _); [discriminate|]. destruct (_ !! _); discriminate. }
  set (found := match ref_sheet with None => Ok (home wb) | Some n => get_sheet_by_name wb n end).
  assert (Hf : untyped found) by (subst found; destruct ref_sheet; [apply Hs|apply ok_untyped]).
  destruct found as [sh|x]; simpl; intros e.
  - pose proof (Hc (ref_col ++ ref_row)) as Hc'.
    destruct (coordinate_from_spreadsheet _) as [[r c]|y]; simpl.
    + pose proof (Hg sh r c) as Hg'.
      destruct (sheet_cell sh r c false) as [[cell|z] sh']; simpl in *; [discriminate|].
      destruct z; simpl; try discriminate. intros _. now destruct (Hg' error).
    + destruct y; simpl; try discriminate. intros _. now destruct (Hc' error).
  - destruct x; simpl; try discriminate.
    + intros _. now destruct (Hf error).
    + intros [= <-]. red; auto.
Qed.

Lemma atomic_string_kinds_ok (name : string) (wb : Workbook) :
  kinds_ok (fst (atomic_string name wb)).
Proof.
  unfold atomic_string.
  destruct (String.eqb name "TRUE"); [intros e; discriminate|].
  destruct (String.eqb name "FALSE"); [intros e; discriminate|].
  destruct (re_match name) as [[[sheet col] row]|]; [|intros e [= <-]; red; auto].
  unfold mbind.
  match goal with |- context [cell_lookup ?r wb] =>
    pose proof (cell_lookup_kinds_ok r wb) as H;
    destruct (cell_lookup r wb) as [[v|x] wb'] end; simpl in *; [intros e; discriminate|exact H].
Qed.

Lemma mbind_kinds_ok {A B} (m : M A) (k : A -> M B) (wb : Workbook) :
  kinds_ok (fst (m wb)) -> (forall a wb', kinds_ok (fst (k a wb'))) ->
  kinds_ok (fst (mbind m k wb)).
Proof.
  intros Hm Hk. unfold mbind. destruct (m wb) as [[a|x] wb']; simpl in *; [apply Hk|].
  intros e [= ->]. now apply Hm.
Qed.

Lemma mapM_kinds_ok {A B} (f : A -> M B) (ts : list A) :
  Forall (fun t => forall wb, kinds_ok (fst (f t wb))) ts ->
  forall wb, kinds_ok (fst (mapM f ts wb)).
Proof.
  induction 1 as [|t ts Ht _ IH]; intros wb; simpl; [intros e; discriminate|].
  apply mbind_kinds_ok; [apply Ht|]. intros v wb'.
  apply mbind_kinds_ok; [apply IH|]. intros vs wb'' e. discriminate.
Qed.

(** Every typed error that the tree walk raises is VALUE, NA, NAME, NUM or
    REF. *)
Lemma transform_kinds_ok (t : tree) :
  forall wb, kinds_ok (fst (transform float_repr libm_pow t wb)).
Proof.
  induction t as [val|a|name args IH| |name|a op b IHa IHb|a b IHa IHb|a op b IHa IHb]
    using tree_ind; intros wb; simpl.
  - unfold mlift, number; simpl. intros e.
    destruct (py_int val); [discriminate|]. destruct (py_float val); discriminate.
  - intros e; discriminate.
  - apply mbind_kinds_ok; [now apply mapM_kinds_ok|].
    intros vs wb'. apply function_kinds_ok.
  - intros e [= <-]. red; auto.
  - apply atomic_string_kinds_ok.
  - apply mbind_kinds_ok; [apply IHa|]. intros x wb'.
    apply mbind_kinds_ok; [apply IHb|]. intros y wb''.
    apply untyped_kinds_ok, logical_untyped.
  - apply mbind_kinds_ok; [apply IHa|]. intros x wb'.
    apply mbind_kinds_ok; [apply IHb|]. intros y wb'' e. discriminate.
  - apply mbind_kinds_ok; [apply IHa|]. intros x wb'.
    apply mbind_kinds_ok; [apply IHb|]. intros y wb''.
    apply arithmetic_kinds_ok.
Qed.

End ErrorKinds.

(** ** Division by zero, and the kinds that [evaluate] returns *)

Section TopLevel.

Variable float_repr : float64 -> string.
Variable libm_pow : float64 -> float64 -> float64.

Lemma divide_by_int_zero (a : pyval) :
  isinstance_int_float a = true ->
  arithmetic libm_pow a "/" (VInt 0) = Raise ZeroDivisionError.
Proof. destruct a; try discriminate; reflexivity. Qed.

(** [evaluate] returns DIV0 exactly when the tree walk ends in a
    [ZeroDivisionError]: no rule raises a typed DIV0 and none catches the
    fault. *)
Lemma DIV0_only_at_top_level (t : tree) (wb : Workbook) :
  fst (evaluate float_repr libm_pow t wb) = ReturnsError DIV0
  <-> fst (transform float_repr libm_pow t wb) = Raise ZeroDivisionError.
Proof.
  unfold evaluate. pose proof (transform_kinds_ok float_repr libm_pow t wb) as Hk.
  destruct (transform float_repr libm_pow t wb) as [[v|x] wb']; simpl in *.
  - split; discriminate.
  - destruct x; simpl; split; try discriminate; try reflexivity.
    intros [= ->].
    destruct (Hk DIV0 eq_refl) as [H|[H|[H|[H|H]]]]; discriminate.
Qed.

Lemma number_is_numeric (tok : string) (v : pyval) :
  number tok = Ok v -> isinstance_int_float v = true.
Proof.
  unfold number. destruct (py_int tok); [now intros [= <-]|].
  destruct (py_float tok); [now intros [= <-]|discriminate].
Qed.

Lemma transform_divide_by_zero (ta : tree) (wb wb1 : Workbook) (a : pyval) :
  transform float_repr libm_pow ta wb = (Ok a, wb1) ->
  isinstance_int_float a = true ->
  transform float_repr libm_pow (T_arithmetic ta "/" (T_number "0")) wb
  = (Raise ZeroDivisionError, wb1).
Proof.
  intros Ha Hnum.
  rewrite (transform_arithmetic _ _ ta (T_number "0") "/" wb wb1 wb1 a (VInt 0) Ha eq_refl).
  now rewrite divide_by_int_zero.
Qed.

(** C6.  Dividing a number by the literal 0: the arithmetic rule raises the
    runtime fault [ZeroDivisionError], not a typed evaluation error; the
    fault leaves the tree walk as it is; [evaluate] turns it into DIV0, and
    is the only place where a DIV0 comes from.  In particular the formula
    of a numeric literal divided by 0 is DIV0. *)
Theorem division_by_zero_is_DIV0 (ta : tree) (wb wb1 : Workbook) (a : pyval) :
  transform float_repr libm_pow ta wb = (Ok a, wb1) ->
  isinstance_int_float a = true ->
  arithmetic libm_pow a "/" (VInt 0) = Raise ZeroDivisionError
  /\ transform float_repr libm_pow (T_arithmetic ta "/" (T_number "0")) wb
     = (Raise ZeroDivisionError, wb1)
  /\ evaluate float_repr libm_pow (T_arithmetic ta "/" (T_number "0")) wb
     = (ReturnsError DIV0, wb1)
  /\ (forall t wb0,
        fst (evaluate float_repr libm_pow t wb0) = ReturnsError DIV0
        <-> fst (transform float_repr libm_pow t wb0) = Raise ZeroDivisionError)
  /\ (forall tok v wb0,
        number tok = Ok v ->
        evaluate float_repr libm_pow (T_arithmetic (T_number tok) "/" (T_number "0")) wb0
        = (ReturnsError DIV0, wb0)).
Proof.
  intros Ha Hnum.
  pose proof (transform_divide_by_zero ta wb wb1 a Ha Hnum) as Ht.
  split; [now apply divide_by_int_zero|]. split; [exact Ht|]. split; [|split].
  - unfold evaluate. now rewrite Ht.
  - apply DIV0_only_at_top_level.
  - intros tok v wb0 Hn. unfold evaluate.
    rewrite (transform_divide_by_zero (T_number tok) wb0 wb0 v);
      [reflexivity| |now apply (number_is_numeric tok)].
    simpl. unfold mlift. now rewrite Hn.
Qed.

(** C10.  Whatever the formula and the host, [evaluate] does not return
    NULL: the kind is a member of the enumeration, with its text, and no
    rule of the tree walk raises it. *)
Theorem evaluate_never_returns_NULL (t : tree) (wb : Workbook) :
  fst (evaluate float_repr libm_pow t wb) <> ReturnsError NULL
  /\ fst (transform float_repr libm_pow t wb) <> Raise (ExpressionEvaluationException NULL)
  /\ error_value NULL = "#NULL!".
Proof.
  pose proof (transform_kinds_ok float_repr libm_pow t wb) as Hk.
  assert (Hn : fst (transform float_repr libm_pow t wb)
               <> Raise (ExpressionEvaluationException NULL)).
  { intros E. destruct (Hk NULL E) as [H|[H|[H|[H|H]]]]; discriminate. }
  split; [|split; [exact Hn|reflexivity]].
  unfold evaluate.
  destruct (transform float_repr libm_pow t wb) as [[v|x] wb']; simpl in *; [discriminate|].
  destruct x; simpl; try discriminate. intros [= ->]. now apply Hn.
Qed.

End TopLevel.

Lemma division_by_zero_is_DIV0_witness :
  evaluate model_float_repr model_pow
    (T_arithmetic (T_number "2.5") "/" (T_number "0")) example_workbook
  = (ReturnsError DIV0, example_workbook).
Proof.
  exact (proj1 (proj2 (proj2
    (division_by_zero_is_DIV0 model_float_repr model_pow (T_number "2.5")
       example_workbook example_workbook
       (VFloat (S754_finite false 5629499534213120 (-51))) eq_refl eq_refl)))).
Defined.

(** ** Cell references *)

Lemma atomic_string_reference (name : string) (g : option string) (col row : string)
    (wb : Workbook) :
  name <> "TRUE" -> name <> "FALSE" ->
  re_match name = Some (g, col, row) ->
  atomic_string name wb
  = (let '(r, wb') := cell_lookup (sheet_name_of g, col, row) wb in
     (match r with Ok v => Ok (unwrap v) | Raise e => Raise e end, wb')).
Proof.
  intros Ht Hf Hm. unfold atomic_string.
  destruct (String.eqb_spec name "TRUE"); [contradiction|].
  destruct (String.eqb_spec name "FALSE"); [contradiction|].
  rewrite Hm. unfold mbind, sheet_name_of.
  destruct g as [s|]; cbn [option_map];
    [destruct (startswith (drop_last s) "'" && endswith (drop_last s) "'")|];
    match goal with
    | |- context [cell_lookup ?ref wb] => destruct (cell_lookup ref wb) as [[v|e] wb']
    end; reflexivity.
Qed.

Lemma cell_lookup_no_sheet (wb : Workbook) (n col row : string) :
  n <> home_title wb -> others wb !! n = None ->
  cell_lookup (Some n, col, row) wb = (Raise (ExpressionEvaluationException REF), wb).
Proof.
  intros Hn Ho. unfold cell_lookup, get_sheet_by_name.
  destruct (String.eqb_spec n (home_title wb)); [contradiction|]. now rewrite Ho.
Qed.

Lemma target_sheet_found (wb : Workbook) (ref_sheet : option string) (sh : Sheet) :
  target_sheet wb ref_sheet = Some sh ->
  match ref_sheet with
  | None => Ok (home wb)
  | Some n => get_sheet_by_name wb n
  end = Ok sh.
Proof.
  unfold target_sheet, get_sheet_by_name. destruct ref_sheet as [n|].
  - destruct (String.eqb n (home_title wb)); [now intros [= ->]|]. now intros ->.
  - now intros [= ->].
Qed.

Lemma put_sheet_target (wb : Workbook) (ref_sheet : option string) (sh : Sheet) :
  target_sheet wb ref_sheet = Some sh -> put_sheet wb ref_sheet sh = wb.
Proof.
  intros H. destruct ref_sheet as [n|].
  - apply put_sheet_found. exact (target_sheet_found wb (Some n) sh H).
  - simpl in H. injection H as <-. apply put_sheet_home.
Qed.

Lemma cell_lookup_no_cell (wb : Workbook) (ref_sheet : option string) (col row : string)
    (sh : Sheet) (r c : Z) :
  target_sheet wb ref_sheet = Some sh ->
  coordinate_from_spreadsheet (col ++ row) = Ok (r, c) ->
  cells sh !! (r, c) = None ->
  cell_lookup (ref_sheet, col, row) wb = (Ok (VInt 0), wb).
Proof.
  intros Hs Hc Hn. unfold cell_lookup.
  rewrite (target_sheet_found _ _ _ Hs), Hc.
  unfold sheet_cell. rewrite Hn.
  destruct (_ || _); now rewrite (put_sheet_target _ _ _ Hs).
Qed.

Section References.

Variable float_repr : float64 -> string.
Variable libm_pow : float64 -> float64 -> float64.

(** C5.  A reference that names a sheet which the workbook does not have
    fails with REF.  A reference into a sheet that exists, at a coordinate
    where the sheet has no cell, is the number 0, not an error; the lookup
    leaves the host as it was, so no cell is created.  Both hold for the
    lookup and for [evaluate] on the token of such a reference. *)
Theorem reference_to_missing_sheet_or_cell (wb : Workbook) (name : string)
    (g : option string) (col row : string) :
  name <> "TRUE" -> name <> "FALSE" ->
  re_match name = Some (g, col, row) ->
  (forall n,
      sheet_name_of g = Some n -> n <> home_title wb -> others wb !! n = None ->
      cell_lookup (Some n, col, row) wb = (Raise (ExpressionEvaluationException REF), wb)
      /\ evaluate float_repr libm_pow (T_atomic_string name) wb = (ReturnsError REF, wb))
  /\ (forall sh r c,
      target_sheet wb (sheet_name_of g) = Some sh ->
      coordinate_from_spreadsheet (col ++ row) = Ok (r, c) ->
      cells sh !! (r, c) = None ->
      cell_lookup (sheet_name_of g, col, row) wb = (Ok (VInt 0), wb)
      /\ evaluate float_repr libm_pow (T_atomic_string name) wb = (Returns (VInt 0), wb)
      /\ cells sh !! (r, c) = None).
Proof.
  intros Ht Hf Hm. split.
  - intros n Hg Hn Ho.
    pose proof (cell_lookup_no_sheet wb n col row Hn Ho) as Hl.
    split; [exact Hl|].
    unfold evaluate; simpl. rewrite (atomic_string_reference _ _ _ _ wb Ht Hf Hm), Hg, Hl.
    reflexivity.
  - intros sh r c Hs Hc Hn.
    pose proof (cell_lookup_no_cell wb _ col row sh r c Hs Hc Hn) as Hl.
    split; [exact Hl|]. split; [|exact Hn].
    unfold evaluate; simpl. rewrite (atomic_string_reference _ _ _ _ wb Ht Hf Hm), Hl.
    reflexivity.
Qed.

End References.

Lemma reference_to_missing_sheet_or_cell_witness :
  evaluate model_float_repr model_pow (T_atomic_string "OtherSheet!A1") example_workbook
  = (ReturnsError REF, example_workbook)
  /\ evaluate model_float_repr model_pow (T_atomic_string "Z9999") example_workbook
     = (Returns (VInt 0), example_workbook).
Proof.
  split.
  - refine (proj2 (proj1 (reference_to_missing_sheet_or_cell model_float_repr model_pow
             example_workbook "OtherSheet!A1" (Some "OtherSheet!") "A" "1" _ _ eq_refl)
             "OtherSheet" eq_refl _ eq_refl)); discriminate.
  - refine (proj1 (proj2 (proj2 (reference_to_missing_sheet_or_cell model_float_repr model_pow
             example_workbook "Z9999" None "Z" "9999" _ _ eq_refl)
             example_sheet 9998 25 eq_refl eq_refl eq_refl))); discriminate.
Defined.

(** ** Function calls *)

(** C4, at the input where the code departs from it.  A call of LEN with
    two arguments does not become NA: the [TypeError] of the call leaves
    [evaluate] as an exception.  The other parts of the mapping hold: ABS
    with two arguments is NA, an unknown name is NAME, ABS of a text is
    VALUE. *)
Theorem function_wrong_argument_count
    (float_repr : float64 -> string) (libm_pow : float64 -> float64 -> float64)
    (wb : Workbook) :
  evaluate float_repr libm_pow (T_function "LEN" [T_number "1"; T_number "2"]) wb
  = (Raises (TypeError "<lambda>() takes 1 positional argument but 2 were given"), wb)
  /\ evaluate float_repr libm_pow (T_function "ABS" [T_number "1"; T_number "2"]) wb
     = (ReturnsError NA, wb)
  /\ evaluate float_repr libm_pow (T_function "UNKNOWNFUNC" [T_number "1"]) wb
     = (ReturnsError NAME, wb)
  /\ evaluate float_repr libm_pow (T_function "ABS" [T_string (quoted "x")]) wb
     = (ReturnsError VALUE, wb).
Proof. repeat split; reflexivity. Qed.

(** ** Exponentiation *)

Lemma model_pow_overflow_law : libm_overflow_law model_pow.
Proof. intros x y H. unfold model_pow. now rewrite H. Qed.

Section Power.

Variable float_repr : float64 -> string.
Variable libm_pow : float64 -> float64 -> float64.

Lemma infinity_not_nan (f : float64) : is_infinity f = true -> is_nan f = false.
Proof. now destruct f. Qed.

Lemma finite_not_special (f : float64) :
  is_finite f = true -> is_nan f = false /\ is_infinity f = false.
Proof. now destruct f. Qed.

Lemma math_pow_finite (x y : num) (fx fy : float64) :
  to_float x = Ok fx -> to_float y = Ok fy ->
  is_finite fx = true -> is_finite fy = true ->
  math_pow libm_pow x y
  = (let r := libm_pow fx fy in
     if is_nan r then Raise ValueError
     else if is_infinity r then (if is_zero fx then Raise ValueError else Raise OverflowError)
     else Ok (VFloat r)).
Proof.
  intros Hx Hy Fx Fy. unfold math_pow. rewrite Hx, Hy. simpl. now rewrite Fx, Fy.
Qed.

Lemma arithmetic_power (a b : pyval) (x y : num) :
  as_num a = Some x -> as_num b = Some y ->
  arithmetic libm_pow a "^" b
  = match math_pow libm_pow x y with
    | Raise OverflowError => Raise (ExpressionEvaluationException NUM)
    | r => r
    end.
Proof.
  intros Ha Hb. unfold arithmetic. rewrite Ha, Hb.
  destruct a; try discriminate; destruct b; try discriminate; reflexivity.
Qed.

(** C8.  For numeric operands whose float values are finite, [a ^ b] is
    the C library's power when that is finite; when the power overflows
    (the library answers an infinity, for a base that is not zero) the rule
    raises NUM and [evaluate] returns it.  With a C library that answers an
    infinity beyond the range, the formula =2^1000000000 is NUM. *)
Theorem power_overflow_is_NUM (a b : pyval) (x y : num) (fx fy : float64) :
  as_num a = Some x -> as_num b = Some y ->
  to_float x = Ok fx -> to_float y = Ok fy ->
  is_finite fx = true -> is_finite fy = true ->
  (is_finite (libm_pow fx fy) = true ->
     arithmetic libm_pow a "^" b = Ok (VFloat (libm_pow fx fy)))
  /\ (is_infinity (libm_pow fx fy) = true -> is_zero fx = false ->
        arithmetic libm_pow a "^" b = Raise (ExpressionEvaluationException NUM)
        /\ forall ta tb wb wb1 wb2,
             transform float_repr libm_pow ta wb = (Ok a, wb1) ->
             transform float_repr libm_pow tb wb1 = (Ok b, wb2) ->
             evaluate float_repr libm_pow (T_arithmetic ta "^" tb) wb
             = (ReturnsError NUM, wb2))
  /\ (libm_overflow_law libm_pow ->
        forall wb,
          evaluate float_repr libm_pow
            (T_arithmetic (T_number "2") "^" (T_number "1000000000")) wb
          = (ReturnsError NUM, wb)).
Proof.
  intros Ha Hb Hx Hy Fx Fy.
  assert (Hover : forall a' b' x' y' gx gy,
             as_num a' = Some x' -> as_num b' = Some y' ->
             to_float x' = Ok gx -> to_float y' = Ok gy ->
             is_finite gx = true -> is_finite gy = true ->
             is_infinity (libm_pow gx gy) = true -> is_zero gx = false ->
             arithmetic libm_pow a' "^" b' = Raise (ExpressionEvaluationException NUM)).
  { intros a' b' x' y' gx gy Ha' Hb' Hx' Hy' Fx' Fy' Hinf Hz.
    rewrite (arithmetic_power _ _ _ _ Ha' Hb'), (math_pow_finite _ _ _ _ Hx' Hy' Fx' Fy').
    cbv zeta. now rewrite (infinity_not_nan _ Hinf), Hinf, Hz. }
  split; [|split].
  - intros Hfin. destruct (finite_not_special _ Hfin) as [Hn Hi].
    rewrite (arithmetic_power _ _ _ _ Ha Hb), (math_pow_finite _ _ _ _ Hx Hy Fx Fy).
    cbv zeta. now rewrite Hn, Hi.
  - intros Hinf Hz.
    pose proof (Hover a b x y fx fy Ha Hb Hx Hy Fx Fy Hinf Hz) as Hnum.
    split; [exact Hnum|].
    intros ta tb wb wb1 wb2 Hta Htb. unfold evaluate.
    now rewrite (transform_arithmetic _ _ _ _ _ _ _ _ _ _ Hta Htb), Hnum.
  - intros Hlaw wb. unfold evaluate.
    rewrite (transform_arithmetic float_repr libm_pow (T_number "2") (T_number "1000000000")
               "^" wb wb wb (VInt 2) (VInt 1000000000) eq_refl eq_refl).
    rewrite (Hover (VInt 2) (VInt 1000000000) (NInt 2) (NInt 1000000000)
               (S754_finite false 4503599627370496 (-51))
               (S754_finite false 8388608000000000 (-23))
               eq_refl eq_refl eq_refl eq_refl eq_refl eq_refl); [reflexivity| |reflexivity].
    apply Hlaw. reflexivity.
Qed.

End Power.

Lemma power_overflow_is_NUM_witness :
  arithmetic model_pow (VInt 2) "^" (VInt 1000000000)
  = Raise (ExpressionEvaluationException NUM)
  /\ evaluate model_float_repr model_pow
       (T_arithmetic (T_number "2") "^" (T_number "1000000000")) example_workbook
     = (ReturnsError NUM, example_workbook)
  /\ arithmetic model_pow (VInt 2) "^" (VInt 10) = Ok (VFloat (model_pow
       (S754_finite false 4503599627370496 (-51)) (S754_finite false 5629499534213120 (-49)))).
Proof.
  pose proof (power_overflow_is_NUM model_float_repr model_pow
                (VInt 2) (VInt 1000000000) (NInt 2) (NInt 1000000000)
                (S754_finite false 4503599627370496 (-51))
                (S754_finite false 8388608000000000 (-23))
                eq_refl eq_refl eq_refl eq_refl eq_refl eq_refl) as H.
  split; [exact (proj1 (proj1 (proj2 H) eq_refl eq_refl))|].
  split; [exact (proj2 (proj2 H) model_pow_overflow_law example_workbook)|].
  exact (proj1 (power_overflow_is_NUM model_float_repr model_pow
                  (VInt 2) (VInt 10) (NInt 2) (NInt 10)
                  (S754_finite false 4503599627370496 (-51))
                  (S754_finite false 5629499534213120 (-49))
                  eq_refl eq_refl eq_refl eq_refl eq_refl eq_refl) eq_refl).
Defined.

(** ** What a pattern matches *)

Lemma string_app_cons (c : ascii) (u v : string) :
  (String c u ++ v)%string = String c (u ++ v).
Proof. reflexivity. Qed.

Lemma string_app_nil (v : string) : (EmptyString ++ v)%string = v.
Proof. reflexivity. Qed.

Lemma string_app_assoc (u v w : string) : ((u ++ v) ++ w = u ++ (v ++ w))%string.
Proof.
  induction u as [|c u IH]; [reflexivity|].
  now rewrite !string_app_cons, IH.
Qed.

Lemma string_app_empty_r (u : string) : (u ++ EmptyString)%string = u.
Proof.
  induction u as [|c u IH]; [reflexivity|].
  now rewrite string_app_cons, IH.
Qed.

Lemma string_length_app (u v : string) :
  String.length (u ++ v) = (String.length u + String.length v)%nat.
Proof.
  induction u as [|c u IH]; [reflexivity|].
  rewrite string_app_cons. simpl. now rewrite IH.
Qed.

(** A result of the greedy loop comes from some number of rounds. *)
Lemma repeat_greedy_sound {A} (r : regex)
    (step : string -> (string -> option A) -> option A) :
  (forall s k a, step s k = Some a ->
     exists w t, s = (w ++ t)%string /\ matches r w /\ k t = Some a) ->
  forall fuel lo hi s k a,
    hi = None \/ hi = Some fuel ->
    repeat_greedy step lo fuel s k = Some a ->
    exists w t, s = (w ++ t)%string /\ matches (Rep r lo hi) w /\ k t = Some a.
Proof.
  intros Hstep. induction fuel as [|fuel IH]; intros lo hi s k a Hhi; simpl.
  - destruct lo; [|discriminate]. intros Hk.
    exists EmptyString, s. repeat split; [constructor|exact Hk].
  - destruct (step s _) as [a'|] eqn:Es.
    + intros [= ->].
      apply Hstep in Es as (u & t1 & -> & Hu & Hrest).
      apply (IH (Nat.pred lo) (option_map Nat.pred hi)) in Hrest
        as (v & t & -> & Hv & Hk);
        [|destruct Hhi as [->| ->]; [now left|now right]].
      exists (u ++ v)%string, t. rewrite string_app_assoc. repeat split; [|exact Hk].
      apply M_rep_more; [|exact Hu|exact Hv].
      destruct Hhi as [->| ->]; discriminate.
    + destruct lo; [|discriminate]. intros Hk.
      exists EmptyString, s. repeat split; [constructor|exact Hk].
Qed.

(** Soundness of the matcher: a result comes from a word of the pattern at
    the front of the text, and from the continuation on what is left. *)
Lemma rmatch_sound (r : regex) :
  forall A s (k : string -> option A) a,
    rmatch r s k = Some a ->
    exists w t, s = (w ++ t)%string /\ matches r w /\ k t = Some a.
Proof.
  induction r as [c|p|r1 IH1 r2 IH2|r1 IH1 r2 IH2|r1 IH1|r1 IH1 lo hi];
    intros A s k a; simpl.
  - destruct s as [|d t]; [discriminate|].
    destruct (Ascii.eqb_spec c d) as [->|]; [|discriminate]. intros Hk.
    exists (String d EmptyString), t. repeat split; [constructor|exact Hk].
  - destruct s as [|d t]; [discriminate|].
    destruct (p d) eqn:Hp; [|discriminate]. intros Hk.
    exists (String d EmptyString), t. repeat split; [now constructor|exact Hk].
  - intros H. apply IH1 in H as (u & t1 & -> & Hu & H).
    apply IH2 in H as (v & t & -> & Hv & Hk).
    exists (u ++ v)%string, t. rewrite string_app_assoc.
    repeat split; [now constructor|exact Hk].
  - destruct (rmatch r1 s k) as [a'|] eqn:E1.
    + intros [= ->]. apply IH1 in E1 as (u & t & -> & Hu & Hk).
      exists u, t. repeat split; [now apply M_alt_l|exact Hk].
    + intros H. apply IH2 in H as (u & t & -> & Hu & Hk).
      exists u, t. repeat split; [now apply M_alt_r|exact Hk].
  - destruct (rmatch r1 s k) as [a'|] eqn:E1.
    + intros [= ->]. apply IH1 in E1 as (u & t & -> & Hu & Hk).
      exists u, t. repeat split; [now apply M_opt_some|exact Hk].
    + intros Hk. exists EmptyString, s. repeat split; [constructor|exact Hk].
  - apply (repeat_greedy_sound r1); [intros s' k' a'; apply IH1|].
    destruct hi; [now right|now left].
Qed.

(** The words of a repeated character class. *)
Lemma matches_rep_class (p : ascii -> bool) (R : regex) (w : string) :
  matches R w ->
  forall lo hi, R = Rep (Class p) lo hi ->
    all_chars p w = true
    /\ (lo <= String.length w)%nat
    /\ (forall h, hi = Some h -> (String.length w <= h)%nat).
Proof.
  induction 1 as [| | | | | | |r hi'|r lo' hi' u v Hhi Hu _ Hv IH];
    intros lo hi E; try discriminate.
  - injection E as E1 E2 E3; subst. simpl. repeat split; [lia|intros; lia].
  - injection E as E1 E2 E3; subst.
    inversion Hu as [|q c Hc| | | | | | |]; subst.
    destruct (IH _ _ eq_refl) as (Hall & Hlo & Hh).
    rewrite string_app_cons, string_app_nil. simpl.
    rewrite Hc, Hall. repeat split; [lia|].
    intros h ->. specialize (Hh (Nat.pred h) eq_refl).
    destruct h; [contradiction|]. simpl in Hh. lia.
Qed.

Lemma matches_opt_chr (c : ascii) (w : string) :
  matches (Opt (Chr c)) w -> w = EmptyString \/ w = String c EmptyString.
Proof.
  intros H. inversion H as [| | | | |r|r u Hu| |]; subst; [now left|].
  inversion Hu; subst. now right.
Qed.

(** ** The matcher on runs of a character class *)

Lemma consumed_app (w t : string) : consumed (w ++ t) t = w.
Proof.
  unfold consumed. rewrite string_length_app.
  replace (String.length w + String.length t - String.length t)%nat
    with (String.length w) by lia.
  induction w as [|c w IH].
  - rewrite string_app_nil. now destruct t.
  - rewrite string_app_cons. simpl. now rewrite IH.
Qed.

Lemma consumed_all (w : string) : consumed w EmptyString = w.
Proof.
  rewrite <- (string_app_empty_r w) at 1. apply consumed_app.
Qed.

(** A run [w] of the class, followed by a text that does not go on with the
    class: the greedy loop takes the whole run first. *)
Lemma repeat_class_run {A} (p : ascii -> bool) (w : string) :
  forall lo fuel t (k : string -> option A) a,
    all_chars p w = true ->
    (lo <= String.length w)%nat -> (String.length w <= fuel)%nat ->
    head_not p t -> k t = Some a ->
    repeat_greedy (fun s k' => rmatch (Class p) s k') lo fuel (w ++ t) k = Some a.
Proof.
  induction w as [|c w IH]; intros lo fuel t k a Hall Hlo Hfuel Ht Hk.
  - rewrite string_app_nil. simpl in Hlo. assert (lo = 0%nat) as -> by lia.
    destruct fuel as [|fuel]; simpl; [exact Hk|].
    destruct t as [|d t]; [exact Hk|]. simpl in Ht. now rewrite Ht.
  - rewrite string_app_cons. simpl in Hall, Hlo, Hfuel.
    apply andb_true_iff in Hall as [Hc Hall].
    destruct fuel as [|fuel]; [lia|].
    assert (E : repeat_greedy (fun s k' => rmatch (Class p) s k') (Nat.pred lo) fuel
                  (w ++ t) k = Some a)
      by (apply IH; [exact Hall|lia|lia|exact Ht|exact Hk]).
    change (match (if p c
                   then repeat_greedy (fun s k' => rmatch (Class p) s k') (Nat.pred lo) fuel
                          (w ++ t) k
                   else None) with
            | Some a' => Some a'
            | None => match lo with O => k (String c (w ++ t)) | S _ => None end
            end = Some a).
    now rewrite Hc, E.
Qed.

Lemma rmatch_rep_class {A} (p : ascii -> bool) (lo : nat) (hi : option nat)
    (w t : string) (k : string -> option A) (a : A) :
  all_chars p w = true ->
  (lo <= String.length w)%nat ->
  (forall h, hi = Some h -> (String.length w <= h)%nat) ->
  head_not p t -> k t = Some a ->
  rmatch (Rep (Class p) lo hi) (w ++ t) k = Some a.
Proof.
  intros Hall Hlo Hhi Ht Hk. simpl.
  apply repeat_class_run; try assumption.
  destruct hi as [h|]; [now apply Hhi|].
  rewrite string_length_app. lia.
Qed.

Lemma rmatch_opt_chr {A} (c : ascii) (d t : string) (k : string -> option A) (a : A) :
  (d = EmptyString /\ head_not (Ascii.eqb c) t) \/ d = String c EmptyString ->
  k t = Some a ->
  rmatch (Opt (Chr c)) (d ++ t) k = Some a.
Proof.
  intros [[-> Ht]| ->] Hk.
  - rewrite string_app_nil. simpl. destruct t as [|e t]; [exact Hk|].
    simpl in Ht. now rewrite Ht.
  - rewrite string_app_cons, string_app_nil. simpl.
    now rewrite Ascii.eqb_refl, Hk.
Qed.

(** Facts on the character classes of the pattern. *)
Lemma letter_not_digit (c : ascii) : is_letter c = true -> is_digit c = false.
Proof. destruct c as [[] [] [] [] [] [] [] []]; vm_compute; congruence. Qed.

Lemma digit_not_letter (c : ascii) : is_digit c = true -> is_letter c = false.
Proof. destruct c as [[] [] [] [] [] [] [] []]; vm_compute; congruence. Qed.

Lemma class_excludes (p : ascii -> bool) (c d : ascii) :
  p d = false -> p c = true -> Ascii.eqb d c = false.
Proof.
  intros Hd Hc. destruct (Ascii.eqb_spec d c) as [->|]; [congruence|reflexivity].
Qed.

Lemma head_not_run (p q : ascii -> bool) (w t : string) :
  w <> EmptyString -> all_chars p w = true ->
  (forall c, p c = true -> q c = false) ->
  head_not q (w ++ t).
Proof.
  intros Hw Hall Hpq. destruct w as [|c w]; [contradiction|].
  rewrite string_app_cons. simpl in *.
  apply andb_true_iff in Hall as [Hc _]. now apply Hpq.
Qed.

Lemma length_pos_nonempty (w : string) : (1 <= String.length w)%nat -> w <> EmptyString.
Proof. destruct w; simpl; [lia|discriminate]. Qed.

(** The shape of the words of the two coordinate groups and of the sheet
    group. *)
Lemma matches_marked_run (p : ascii -> bool) (hi : option nat) (w : string) :
  matches (Seq (Opt (Chr "$")) (Rep (Class p) 1 hi)) w ->
  exists d l, w = (d ++ l)%string
    /\ (d = EmptyString \/ d = "$")
    /\ all_chars p l = true /\ (1 <= String.length l)%nat
    /\ (forall h, hi = Some h -> (String.length l <= h)%nat).
Proof.
  intros H. inversion H as [| |r s d l Hd Hl| | | | | |]; subst.
  apply matches_opt_chr in Hd.
  destruct (matches_rep_class p _ _ Hl _ _ eq_refl) as (Hall & Hlo & Hhi).
  exists d, l. repeat split; assumption.
Qed.

Lemma matches_sheet_group (q : string) :
  matches sheet_group q ->
  exists a1 body a2, q = (a1 ++ body ++ a2 ++ "!")%string
    /\ (a1 = EmptyString \/ a1 = "'") /\ (a2 = EmptyString \/ a2 = "'")
    /\ all_chars sheet_char body = true /\ (1 <= String.length body)%nat.
Proof.
  intros H. unfold sheet_group in H.
  inversion H as [| |r s a1 w1 Ha1 H1| | | | | |]; subst.
  inversion H1 as [| |r s body w2 Hbody H2| | | | | |]; subst.
  inversion H2 as [| |r s a2 w3 Ha2 H3| | | | | |]; subst.
  inversion H3; subst.
  apply matches_opt_chr in Ha1. apply matches_opt_chr in Ha2.
  destruct (matches_rep_class sheet_char _ _ Hbody _ _ eq_refl) as (Hall & Hlo & _).
  exists a1, body, a2. repeat split; assumption.
Qed.

Lemma rmatch_seq {A} (r1 r2 : regex) (s : string) (k : string -> option A) :
  rmatch (Seq r1 r2) s k = rmatch r1 s (fun t => rmatch r2 t k).
Proof. reflexivity. Qed.

Lemma rmatch_chr {A} (c : ascii) (t : string) (k : string -> option A) :
  rmatch (Chr c) (String c t) k = k t.
Proof. simpl. now rewrite Ascii.eqb_refl. Qed.

(** A whole word of a coordinate group, followed by a text that does not
    go on with its class: the matcher takes exactly that word. *)
Lemma rmatch_marked_run {A} (p : ascii -> bool) (hi : option nat)
    (w t : string) (k : string -> option A) (a : A) :
  matches (Seq (Opt (Chr "$")) (Rep (Class p) 1 hi)) w ->
  p "$"%char = false -> head_not p t -> k t = Some a ->
  rmatch (Seq (Opt (Chr "$")) (Rep (Class p) 1 hi)) (w ++ t) k = Some a.
Proof.
  intros Hw Hp Ht Hk.
  apply matches_marked_run in Hw as (d & l & -> & Hd & Hall & Hlo & Hhi).
  rewrite string_app_assoc, rmatch_seq.
  apply rmatch_opt_chr.
  - destruct Hd as [->| ->]; [left; split; [reflexivity|]|now right].
    apply (head_not_run p); [now apply length_pos_nonempty|exact Hall|].
    intros c Hc. now apply (class_excludes p).
  - now apply rmatch_rep_class.
Qed.

Lemma rmatch_sheet_group {A} (q t : string) (k : string -> option A) (a : A) :
  matches sheet_group q -> k t = Some a ->
  rmatch sheet_group (q ++ t) k = Some a.
Proof.
  intros Hq Hk.
  apply matches_sheet_group in Hq as (a1 & body & a2 & -> & Ha1 & Ha2 & Hall & Hlo).
  unfold sheet_group. rewrite !string_app_assoc, rmatch_seq.
  apply rmatch_opt_chr.
  - destruct Ha1 as [->| ->]; [left; split; [reflexivity|]|now right].
    apply (head_not_run sheet_char); [now apply length_pos_nonempty|exact Hall|].
    intros c Hc. now apply (class_excludes sheet_char).
  - rewrite rmatch_seq. apply rmatch_rep_class; try assumption; [discriminate| |].
    + destruct Ha2 as [->| ->]; reflexivity.
    + rewrite rmatch_seq. apply rmatch_opt_chr.
      * destruct Ha2 as [->| ->]; [left; split; reflexivity|now right].
      * rewrite string_app_cons, string_app_nil. now rewrite rmatch_chr.
Qed.

Lemma marked_run_no_bang (p : ascii -> bool) (hi : option nat) (w : string) :
  matches (Seq (Opt (Chr "$")) (Rep (Class p) 1 hi)) w ->
  p "!"%char = false -> all_chars not_bang w = true.
Proof.
  intros Hw Hp. apply matches_marked_run in Hw as (d & l & -> & Hd & Hall & _).
  rewrite all_chars_app. apply andb_true_iff. split.
  - destruct Hd as [->| ->]; reflexivity.
  - apply (all_chars_weaken p); [|exact Hall].
    intros c Hc. unfold not_bang. apply negb_true_iff.
    destruct (Ascii.eqb_spec c "!") as [->|]; [congruence|reflexivity].
Qed.

Lemma sheet_group_has_bang (q t : string) :
  matches sheet_group q -> all_chars not_bang (q ++ t) = false.
Proof.
  intros Hq. apply matches_sheet_group in Hq as (a1 & body & a2 & -> & _).
  rewrite !all_chars_app. simpl. now rewrite !andb_false_r.
Qed.

Lemma rmatch_marked_run_end {A} (p : ascii -> bool) (hi : option nat)
    (w : string) (k : string -> option A) (a : A) :
  matches (Seq (Opt (Chr "$")) (Rep (Class p) 1 hi)) w ->
  p "$"%char = false -> k EmptyString = Some a ->
  rmatch (Seq (Opt (Chr "$")) (Rep (Class p) 1 hi)) w k = Some a.
Proof.
  intros Hw Hp Hk. rewrite <- (string_app_empty_r w).
  now apply rmatch_marked_run.
Qed.

Lemma row_word_head (row t : string) :
  matches row_group row -> head_not is_letter (row ++ t).
Proof.
  intros Hrow.
  destruct (matches_marked_run _ _ _ Hrow) as (d & l & -> & Hd & Hall & Hlo & _).
  rewrite string_app_assoc.
  destruct Hd as [->| ->]; [rewrite string_app_nil|reflexivity].
  apply (head_not_run is_digit); [now apply length_pos_nonempty|exact Hall|].
  apply digit_not_letter.
Qed.

Lemma col_row_groups_whole (g : option string) (col row : string) :
  matches col_group col -> matches row_group row ->
  col_row_groups g (col ++ row) = Some (g, col, row).
Proof.
  intros Hcol Hrow. unfold col_row_groups, col_group.
  apply rmatch_marked_run; [exact Hcol|reflexivity| |].
  - rewrite <- (string_app_empty_r row). now apply row_word_head.
  - rewrite consumed_app. unfold row_group.
    apply rmatch_marked_run_end; [exact Hrow|reflexivity|].
    now rewrite consumed_all.
Qed.

(** On a token that is, as a whole, a word of the pattern, [re.match] finds
    the three groups of that word. *)
Lemma re_match_whole (q col row : string) :
  matches (Opt sheet_group) q -> matches col_group col -> matches row_group row ->
  re_match (q ++ col ++ row) = Some (group_of q, col, row).
Proof.
  intros Hq Hcol Hrow. unfold re_match.
  inversion Hq as [| | | | |r|r u Hu| |]; subst.
  - (* no sheet word: the sheet group finds no "!" *)
    rewrite string_app_nil.
    destruct (rmatch sheet_group (col ++ row) _) as [g|] eqn:E.
    + apply rmatch_sound in E as (w & t & Hsplit & Hw & _).
      pose proof (sheet_group_has_bang w t Hw) as Hbang.
      rewrite <- Hsplit, all_chars_app in Hbang.
      rewrite (marked_run_no_bang _ _ _ Hcol eq_refl) in Hbang.
      rewrite (marked_run_no_bang _ _ _ Hrow eq_refl) in Hbang. discriminate.
    + now apply col_row_groups_whole.
  - rewrite (rmatch_sheet_group q (col ++ row) _ (Some q, col, row) Hu).
    + destruct q; [|reflexivity].
      apply matches_sheet_group in Hu as (a1 & body & a2 & E & _ & _ & _ & Hlo).
      destruct a1; [destruct body; [simpl in Hlo; lia|]|];
        rewrite ?string_app_nil, ?string_app_cons in E; discriminate.
    + rewrite consumed_app. now apply col_row_groups_whole.
Qed.

Lemma fullmatch_matches (r : regex) (s : string) :
  fullmatch r s = true -> matches r s.
Proof.
  unfold fullmatch.
  destruct (rmatch r s _) as [[]|] eqn:E; [|discriminate]. intros _.
  apply rmatch_sound in E as (w & t & -> & Hw & Ht).
  destruct t; [|discriminate]. now rewrite string_app_empty_r.
Qed.

(** What [re.match] finds is a word of the pattern at the front of the
    token, and the groups are the parts of that word. *)
Lemma re_match_sound (name : string) (g : option string) (col row : string) :
  re_match name = Some (g, col, row) ->
  exists q t, name = ((q ++ col ++ row) ++ t)%string
    /\ matches (Opt sheet_group) q /\ matches col_group col /\ matches row_group row
    /\ g = group_of q.
Proof.
  assert (Hcr : forall g0 s1, col_row_groups g0 s1 = Some (g, col, row) ->
            exists t, s1 = ((col ++ row) ++ t)%string
              /\ matches col_group col /\ matches row_group row /\ g = g0).
  { intros g0 s1 H. unfold col_row_groups in H.
    apply rmatch_sound in H as (w2 & t2 & -> & Hw2 & H).
    apply rmatch_sound in H as (w3 & t3 & -> & Hw3 & H).
    injection H as <- <- <-. rewrite !consumed_app.
    exists t3. rewrite string_app_assoc. repeat split; assumption. }
  unfold re_match.
  destruct (rmatch sheet_group name _) as [x|] eqn:E.
  - intros [= ->]. apply rmatch_sound in E as (w1 & t1 & -> & Hw1 & H).
    apply Hcr in H as (t & -> & Hcol & Hrow & ->).
    rewrite consumed_app. exists w1, t.
    rewrite <- !string_app_assoc. repeat split; try assumption.
    + now apply M_opt_some.
    + destruct w1; [|reflexivity].
      apply matches_sheet_group in Hw1 as (a1 & body & a2 & E & _ & _ & _ & Hlo).
      destruct a1; [destruct body; [simpl in Hlo; lia|]|];
        rewrite ?string_app_nil, ?string_app_cons in E; discriminate.
  - intros H. apply Hcr in H as (t & -> & Hcol & Hrow & ->).
    exists EmptyString, t. rewrite string_app_nil.
    repeat split; try assumption. constructor.
Qed.

Lemma repeat_class_some {A} (p : ascii -> bool) (w : string) :
  forall lo fuel t (k : string -> option A) a,
    all_chars p w = true ->
    (lo <= String.length w)%nat -> (String.length w <= fuel)%nat ->
    k t = Some a ->
    exists a', repeat_greedy (fun s k' => rmatch (Class p) s k') lo fuel (w ++ t) k = Some a'.
Proof.
  induction w as [|c w IH]; intros lo fuel t k a Hall Hlo Hfuel Hk.
  - rewrite string_app_nil. simpl in Hlo. assert (lo = 0%nat) as -> by lia.
    destruct fuel as [|fuel]; simpl; [now exists a|].
    destruct (match t with EmptyString => None | String d t0 => _ end) as [a'|];
      [now exists a'|now exists a].
  - rewrite string_app_cons. simpl in Hall, Hlo, Hfuel.
    apply andb_true_iff in Hall as [Hc Hall].
    destruct fuel as [|fuel]; [lia|].
    destruct (IH (Nat.pred lo) fuel t k a Hall) as [a' E]; [lia|lia|exact Hk|].
    exists a'.
    change (match (if p c
                   then repeat_greedy (fun s k' => rmatch (Class p) s k') (Nat.pred lo) fuel
                          (w ++ t) k
                   else None) with
            | Some x => Some x
            | None => match lo with O => k (String c (w ++ t)) | S _ => None end
            end = Some a').
    now rewrite Hc, E.
Qed.

(** Completeness of the matcher on simple patterns: when a word of the
    pattern is at the front of the text and the continuation accepts what
    follows it, the matcher finds some match. *)
Lemma rmatch_complete (r : regex) :
  simple r = true ->
  forall A w t (k : string -> option A) a,
    matches r w -> k t = Some a ->
    exists a', rmatch r (w ++ t) k = Some a'.
Proof.
  induction r as [c|p|r1 IH1 r2 IH2|r1 IH1 r2 IH2|r1 IH1|r1 IH1 lo hi];
    intros Hs A w t k a Hw Hk.
  - inversion Hw; subst. exists a. rewrite string_app_cons, string_app_nil.
    now rewrite rmatch_chr.
  - inversion Hw as [|q c Hc| | | | | | |]; subst. exists a.
    rewrite string_app_cons, string_app_nil. simpl. now rewrite Hc.
  - simpl in Hs. apply andb_true_iff in Hs as [Hs1 Hs2].
    inversion Hw as [| |r s u v Hu Hv| | | | | |]; subst.
    destruct (IH2 Hs2 A v t k a Hv Hk) as [a2 E2].
    rewrite string_app_assoc, rmatch_seq.
    exact (IH1 Hs1 A u (v ++ t)%string _ a2 Hu E2).
  - simpl in Hs. apply andb_true_iff in Hs as [Hs1 Hs2]. simpl.
    destruct (rmatch r1 (w ++ t) k) as [a1|] eqn:E1; [now exists a1|].
    inversion Hw as [| | |r s u Hu|r s u Hu| | | |]; subst.
    + destruct (IH1 Hs1 A w t k a Hu Hk) as [a' E]. congruence.
    + exact (IH2 Hs2 A w t k a Hu Hk).
  - simpl in Hs. simpl.
    destruct (rmatch r1 (w ++ t) k) as [a1|] eqn:E1; [now exists a1|].
    inversion Hw as [| | | | |r|r u Hu| |]; subst.
    + rewrite string_app_nil. now exists a.
    + destruct (IH1 Hs A w t k a Hu Hk) as [a' E]. congruence.
  - destruct r1; try discriminate.
    destruct (matches_rep_class p _ _ Hw _ _ eq_refl) as (Hall & Hlo & Hhi).
    simpl. apply (repeat_class_some p w lo _ t k a); try assumption.
    destruct hi as [h|]; [now apply Hhi|].
    rewrite string_length_app. lia.
Qed.

(** A token of which some prefix is a word of the pattern is matched. *)
Lemma re_match_complete (w t : string) :
  matches (Seq (Opt sheet_group) (Seq col_group row_group)) w ->
  exists g, re_match (w ++ t) = Some g.
Proof.
  intros Hw.
  inversion Hw as [| |r s q cr Hq Hcr| | | | | |]; subst.
  inversion Hcr as [| |r s col row Hcol Hrow| | | | | |]; subst.
  assert (Hgroups : forall g0, exists x,
             col_row_groups g0 ((col ++ row) ++ t)%string = Some x).
  { intros g0. unfold col_row_groups. rewrite string_app_assoc.
    destruct (rmatch_complete row_group eq_refl _ row t
                (fun s3 => Some (g0, consumed (col ++ row ++ t) (row ++ t),
                                 consumed (row ++ t) s3))
                _ Hrow eq_refl) as [x Hx].
    exact (rmatch_complete col_group eq_refl _ col (row ++ t)%string
             (fun s2 => rmatch row_group s2
                (fun s3 => Some (g0, consumed (col ++ row ++ t) s2, consumed s2 s3)))
             x Hcol Hx). }
  unfold re_match. rewrite string_app_assoc.
  destruct (rmatch sheet_group (q ++ (col ++ row) ++ t) _) as [g|] eqn:E; [now exists g|].
  inversion Hq as [| | | | |r|r u Hu| |]; subst.
  - rewrite string_app_nil. apply Hgroups.
  - destruct (Hgroups (Some (consumed (q ++ (col ++ row) ++ t) ((col ++ row) ++ t))))
      as [x Hx].
    destruct (rmatch_complete sheet_group eq_refl _ q ((col ++ row) ++ t)%string
                (fun s1 => col_row_groups (Some (consumed (q ++ (col ++ row) ++ t) s1)) s1)
                x Hu Hx) as [x' Hx'].
    congruence.
Qed.

(** ** Bare tokens *)

(** C2, as amended.  A bare token is resolved in this order.  TRUE and
    FALSE are the booleans.  Otherwise a token that is, as a whole, a word of
    the code's pattern - an optional sheet qualifier (an optional
    apostrophe, a run of letters, digits, underscores and spaces, an
    optional apostrophe, then "!"), 1 to 3 column letters and 1 to 5 row
    digits, each optionally after "$" - is looked up as a cell, and an object
    found there is replaced by its [.value], once.  A token of which no
    prefix is a word of the pattern fails with NAME. *)
Theorem atomic_string_resolution (name : string) (wb : Workbook) :
  (name = "TRUE" -> atomic_string name wb = (Ok (VBool true), wb))
  /\ (name = "FALSE" -> atomic_string name wb = (Ok (VBool false), wb))
  /\ (name <> "TRUE" -> name <> "FALSE" ->
      forall q col row,
        matches (Opt sheet_group) q -> matches col_group col -> matches row_group row ->
        name = (q ++ col ++ row)%string ->
        atomic_string name wb
        = (let '(r, wb') := cell_lookup (sheet_name_of (group_of q), col, row) wb in
           (match r with Ok v => Ok (unwrap v) | Raise e => Raise e end, wb')))
  /\ (name <> "TRUE" -> name <> "FALSE" ->
      (forall w t, name = (w ++ t)%string -> ~ matches reference_pattern w) ->
      atomic_string name wb = (Raise (ExpressionEvaluationException NAME), wb)).
Proof.
  split; [now intros ->|]. split; [now intros ->|]. split.
  - intros Ht Hf q col row Hq Hcol Hrow ->.
    apply atomic_string_reference; [exact Ht|exact Hf|].
    now apply re_match_whole.
  - intros Ht Hf Hno. unfold atomic_string.
    destruct (String.eqb_spec name "TRUE"); [contradiction|].
    destruct (String.eqb_spec name "FALSE"); [contradiction|].
    destruct (re_match name) as [[[g col] row]|] eqn:E; [|reflexivity].
    apply re_match_sound in E as (q & t & Hname & Hq & Hcol & Hrow & _).
    destruct (Hno _ _ Hname). unfold reference_pattern.
    apply M_seq; [exact Hq|]. now apply M_seq.
Qed.

Lemma atomic_string_resolution_witness :
  atomic_string "'Data'!$A$1" example_workbook = (Ok (VStr "x"), example_workbook)
  /\ atomic_string "B2" example_workbook = (Ok (VStr "=sum(A2:A10)"), example_workbook)
  /\ atomic_string "hello" example_workbook
     = (Raise (ExpressionEvaluationException NAME), example_workbook).
Proof.
  split; [|split].
  - refine (proj1 (proj2 (proj2 (atomic_string_resolution "'Data'!$A$1" example_workbook)))
             _ _ "'Data'!" "$A" "$1" _ _ _ eq_refl);
      try discriminate; apply fullmatch_matches; reflexivity.
  - refine (proj1 (proj2 (proj2 (atomic_string_resolution "B2" example_workbook)))
             _ _ EmptyString "B" "2" _ _ _ eq_refl);
      try discriminate; apply fullmatch_matches; reflexivity.
  - refine (proj2 (proj2 (proj2 (atomic_string_resolution "hello" example_workbook))) _ _ _);
      try discriminate.
    intros w t E Hw. destruct (re_match_complete w t Hw) as [g Hg].
    rewrite <- E in Hg. vm_compute in Hg. discriminate Hg.
Defined.

(** C2, as stated, fails in both directions on bare tokens.  The token
    Sheet1!A1 is not a word of the described pattern (its qualifier has a
    digit and no apostrophes), yet it is looked up and yields the 7 of
    Sheet1!A1, not NAME.  The token 'a.b'!A1 is a word of the described
    pattern (an apostrophe-quoted name), yet it is not looked up: it fails
    with NAME, where the lookup of the reference fails with REF. *)
Lemma atomic_string_pattern_counterexample :
  (fullmatch ATOMIC_STR "Sheet1!A1" = true
   /\ fullmatch spec_reference_pattern "Sheet1!A1" = false
   /\ atomic_string "Sheet1!A1" example_workbook = (Ok (VInt 7), example_workbook))
  /\ (fullmatch ATOMIC_STR "'a.b'!A1" = true
      /\ fullmatch spec_reference_pattern "'a.b'!A1" = true
      /\ fst (cell_lookup (Some "a.b", "A", "1") example_workbook)
         = Raise (ExpressionEvaluationException REF)
      /\ fst (atomic_string "'a.b'!A1" example_workbook)
         = Raise (ExpressionEvaluationException NAME)).
Proof. repeat split; reflexivity. Qed.

(** ** Display text, read back as a literal *)

Lemma matches_fullmatch (r : regex) (s : string) :
  simple r = true -> matches r s -> fullmatch r s = true.
Proof.
  intros Hs Hm. unfold fullmatch.
  destruct (rmatch_complete r Hs unit s EmptyString
              (fun t => match t with EmptyString => Some tt | _ => None end) tt Hm eq_refl)
    as [a' E].
  rewrite string_app_empty_r in E. now rewrite E.
Qed.

Lemma matches_class_run (p : ascii -> bool) (w : string) :
  forall lo, all_chars p w = true -> (lo <= String.length w)%nat ->
             matches (Rep (Class p) lo None) w.
Proof.
  induction w as [|c w IH]; intros lo Hall Hlo; simpl in *.
  - assert (lo = 0%nat) as -> by lia. constructor.
  - apply andb_true_iff in Hall as [Hc Hall].
    change (String c w) with (String c EmptyString ++ w)%string.
    apply M_rep_more; [discriminate|now constructor|].
    apply IH; [exact Hall|lia].
Qed.

Lemma nonempty_length (s : string) : s <> EmptyString -> (1 <= String.length s)%nat.
Proof. destruct s; [contradiction|simpl; lia]. Qed.


Lemma py_int_digits (c : ascii) (r : string) :
  is_digit c = true -> py_int (String c r) = digits_to_Z (String c r).
Proof.
  intros Hc. destruct c as [[] [] [] [] [] [] [] []]; try reflexivity;
    vm_compute in Hc; discriminate.
Qed.







(** *** Reading numerals and text literals *)

Lemma span_digits_run (d t : string) :
  all_chars is_digit d = true -> head_not is_digit t ->
  span_digits (d ++ t) = (d, t).
Proof.
  intros Hd Ht. induction d as [|c d IH].
  - rewrite string_app_nil. destruct t as [|c r]; [reflexivity|].
    simpl in *. now rewrite Ht.
  - rewrite string_app_cons. simpl in *.
    apply andb_prop in Hd as [Hc Hd]. now rewrite Hc, (IH Hd).
Qed.

Lemma digit_char_read (c : ascii) (u : uint) :
  is_digit c = true -> exists u', DecimalString.uint_of_char c (Some u) = Some u'.
Proof.
  intros Hc. destruct c as [[] [] [] [] [] [] [] []];
    try (vm_compute in Hc; discriminate Hc); eexists; reflexivity.
Qed.

Lemma digits_read (d : string) :
  all_chars is_digit d = true -> exists u, NilEmpty.uint_of_string d = Some u.
Proof.
  induction d as [|c d IH]; simpl; [eauto|].
  intros H. apply andb_prop in H as [Hc Hd].
  destruct (IH Hd) as [u ->]. now apply digit_char_read.
Qed.

Lemma digits_to_Z_run (d : string) : digit_run d -> exists n, digits_to_Z d = Some n.
Proof.
  intros [Hd Hne]. unfold digits_to_Z, NilZero.uint_of_string.
  destruct (digits_read d Hd) as [u Hu].
  destruct d as [|c r]; [contradiction|]. rewrite Hu. eauto.
Qed.

Lemma digit_run_head (d : string) :
  digit_run d -> exists c r, d = String c r /\ is_digit c = true.
Proof.
  intros [Hd Hne]. destruct d as [|c r]; [contradiction|].
  simpl in Hd. apply andb_prop in Hd as [Hc _]. eauto.
Qed.

Lemma py_int_signed_run (sg d : string) :
  sign_text sg -> digit_run d -> exists n, py_int (sg ++ d) = Some n.
Proof.
  intros Hsg Hd. destruct (digits_to_Z_run d Hd) as [n Hn].
  destruct Hsg as [->|[->| ->]].
  - rewrite string_app_nil. destruct (digit_run_head d Hd) as (c & r & -> & Hc).
    rewrite (py_int_digits c r Hc). eauto.
  - exists n. exact Hn.
  - exists (- n). change (py_int ("-" ++ d)) with (option_map Z.opp (digits_to_Z d)).
    now rewrite Hn.
Qed.

Lemma float_exponent_read (ex : string) :
  exponent_text ex -> exists z, float_exponent ex = Some z.
Proof.
  intros [->|(c & sg & d & -> & Hc & Hsg & Hd)]; [now exists 0|].
  destruct (py_int_signed_run sg d Hsg Hd) as [n Hn].
  exists n. unfold float_exponent. destruct Hc as [-> | ->]; exact Hn.
Qed.

Lemma exponent_text_head (ex : string) :
  exponent_text ex -> head_not is_digit ex /\ head_not (Ascii.eqb ".") ex.
Proof.
  intros [->|(c & sg & d & -> & Hc & _)]; [split; exact I|].
  destruct Hc as [-> | ->]; split; reflexivity.
Qed.

(** The conversion of the text after the sign. *)
Lemma py_float_signed (sc : ascii) (ip pt fp ex : string) :
  (sc = "+" \/ sc = "-")%char ->
  all_chars is_digit ip = true -> all_chars is_digit fp = true ->
  pt = "." \/ (pt = EmptyString /\ fp = EmptyString) ->
  (ip ++ fp)%string <> EmptyString ->
  exponent_text ex ->
  exists f, py_float (String sc (ip ++ pt ++ fp ++ ex)) = Some f.
Proof.
  intros Hsc Hip Hfp Hpt Hne Hex.
  destruct (float_exponent_read ex Hex) as [z Hz].
  destruct (exponent_text_head ex Hex) as [Hd Hp].
  assert (Hbody : forall neg,
    exists f,
      (let '(ip0, s2) := span_digits (ip ++ pt ++ fp ++ ex) in
       let '(fp0, s3) :=
         match s2 with
         | String "." r => span_digits r
         | _ => (EmptyString, s2)
         end in
       match (ip0 ++ fp0)%string with
       | EmptyString => None
       | String _ _ as ds =>
           match float_exponent s3 with
           | Some e => Some (float_of_decimal neg (nat_value ds)
                               (e - Z.of_nat (String.length fp0)))
           | None => None
           end
       end) = Some f).
  { intros neg. destruct Hpt as [->|[-> ->]].
    - rewrite (span_digits_run ip ("." ++ fp ++ ex) Hip) by reflexivity.
      rewrite string_app_cons, string_app_nil.
      rewrite (span_digits_run fp ex Hfp Hd).
      destruct (ip ++ fp)%string as [|c r]; [contradiction|].
      rewrite Hz. eauto.
    - rewrite !string_app_nil. rewrite (span_digits_run ip ex Hip Hd).
      assert (E : match ex with
                  | String "." r => span_digits r
                  | _ => (EmptyString, ex)
                  end = (EmptyString, ex)).
      { destruct ex as [|c r]; [reflexivity|]. simpl in Hp.
        destruct c as [[] [] [] [] [] [] [] []]; try reflexivity.
        vm_compute in Hp. discriminate Hp. }
      rewrite E.
      destruct (ip ++ EmptyString)%string as [|c r]; [contradiction|].
      rewrite Hz. eauto. }
  destruct Hsc as [-> | ->]; [apply (Hbody false)|apply (Hbody true)].
Qed.

Lemma py_float_unsigned (c : ascii) (r : string) :
  is_digit c = true \/ c = "."%char ->
  py_float (String c r) = py_float (String "+" (String c r)).
Proof.
  intros H. destruct c as [[] [] [] [] [] [] [] []]; try reflexivity;
    destruct H as [H|H]; vm_compute in H; discriminate H.
Qed.

Lemma py_float_token (sg ip pt fp ex : string) :
  sign_text sg ->
  all_chars is_digit ip = true -> all_chars is_digit fp = true ->
  pt = "." \/ (pt = EmptyString /\ fp = EmptyString) ->
  (ip ++ fp)%string <> EmptyString ->
  exponent_text ex ->
  exists f, py_float (sg ++ ip ++ pt ++ fp ++ ex) = Some f.
Proof.
  intros Hsg Hip Hfp Hpt Hne Hex.
  destruct Hsg as [->|[->| ->]].
  - rewrite string_app_nil.
    assert (Hhead : exists c r, (ip ++ pt ++ fp ++ ex)%string = String c r
                                /\ (is_digit c = true \/ c = "."%char)).
    { destruct ip as [|c ip'].
      - rewrite string_app_nil. destruct Hpt as [->|[-> ->]].
        + exists "."%char, (fp ++ ex)%string. split; [reflexivity|now right].
        + now destruct Hne.
      - simpl in Hip. apply andb_prop in Hip as [Hc _].
        exists c, (ip' ++ pt ++ fp ++ ex)%string. split; [reflexivity|now left]. }
    destruct Hhead as (c & r & E & Hc).
    rewrite E, (py_float_unsigned c r Hc), <- E.
    apply py_float_signed; auto.
  - exact (py_float_signed "+" ip pt fp ex (or_introl eq_refl) Hip Hfp Hpt Hne Hex).
  - exact (py_float_signed "-" ip pt fp ex (or_intror eq_refl) Hip Hfp Hpt Hne Hex).
Qed.

Lemma strip_quotes (s : string) : strip_ends (quoted s) = s.
Proof.
  unfold strip_ends, quoted, drop_last.
  set (q := String (ascii_of_nat 34) EmptyString).
  change (String.length (String (ascii_of_nat 34) (s ++ q)) - 1)%nat
    with (String.length (s ++ q) - 0)%nat.
  change (String.substring 1 (String.length (s ++ q) - 0) (String (ascii_of_nat 34) (s ++ q)))
    with (String.substring 0 (String.length (s ++ q) - 0) (s ++ q)).
  change (String.substring 0 (String.length (s ++ q) - 0) (s ++ q))
    with (consumed (s ++ q) EmptyString).
  rewrite consumed_all.
  change (String.substring 0 (String.length (s ++ q) - 1) (s ++ q))
    with (consumed (s ++ q) q).
  apply consumed_app.
Qed.

(** *** The text of an int is no text of a float that is not an integer *)















Section RoundTrip.

Variable float_repr : float64 -> string.
Variable libm_pow : float64 -> float64 -> float64.





End RoundTrip.



(* ===================================================================== *)
(** * Further properties of the evaluator *)
(* ===================================================================== *)

(** ** The tree walk *)

Section TreeWalk.

Variable float_repr : float64 -> string.
Variable libm_pow : float64 -> float64 -> float64.

(** X3.  Evaluation only reads the host: after [evaluate], whatever the
    formula and its outcome, the workbook is the one that was passed in;
    the same holds for each cell lookup. *)
Theorem evaluate_leaves_host_unchanged (t : tree) (wb : Workbook) :
  snd (evaluate float_repr libm_pow t wb) = wb
  /\ (forall ref, snd (cell_lookup ref wb) = wb)
  /\ (forall name, snd (atomic_string name wb) = wb).
Proof.
  split; [apply evaluate_read_only|]. split.
  - intros ref. apply cell_lookup_read_only.
  - intros name. apply atomic_string_read_only.
Qed.


End TreeWalk.

(** ** Exceptions that never leave [evaluate] *)

Ltac split_matches :=
  repeat match goal with
         | |- context [match ?x with _ => _ end] => destruct x
         end.

Lemma rbind_no_index_error {A B} (r : result A) (k : A -> result B) :
  no_index_error r -> (forall a, no_index_error (k a)) -> no_index_error (rbind r k).
Proof.
  intros Hr Hk. destruct r as [a|x]; simpl; [apply Hk|].
  intros [= ->]. now apply Hr.
Qed.

Lemma mbind_no_index_error {A B} (m : M A) (k : A -> M B) (wb : Workbook) :
  no_index_error (fst (m wb)) -> (forall a wb', no_index_error (fst (k a wb'))) ->
  no_index_error (fst (mbind m k wb)).
Proof.
  intros Hm Hk. unfold mbind. destruct (m wb) as [[a|x] wb']; simpl in *; [apply Hk|].
  intros [= ->]. now apply Hm.
Qed.

Lemma mapM_no_index_error {A B} (f : A -> M B) (ts : list A) :
  Forall (fun t => forall wb, no_index_error (fst (f t wb))) ts ->
  forall wb, no_index_error (fst (mapM f ts wb)).
Proof.
  induction 1 as [|t ts Ht _ IH]; intros wb; simpl; [discriminate|].
  apply mbind_no_index_error; [apply Ht|]. intros v wb'.
  apply mbind_no_index_error; [apply IH|]. intros vs wb''. discriminate.
Qed.

Lemma logical_no_index_error (a : pyval) (op : string) (b : pyval) :
  no_index_error (logical a op b).
Proof.
  assert (Hmap : forall t, no_index_error (type_val_mapper t))
    by (intros t; destruct t; discriminate).
  assert (Hord : forall sym test x y, no_index_error (py_order sym test x y)).
  { intros sym test x y. unfold no_index_error, py_order.
    destruct (as_num x); [destruct (as_num y)|]; try discriminate;
      destruct x; try discriminate; destruct y; discriminate. }
  unfold logical. apply rbind_no_index_error.
  - destruct (negb _); [|discriminate].
    repeat (apply rbind_no_index_error; [apply Hmap|intros ?]). discriminate.
  - intros [x y].
    repeat match goal with
           | |- no_index_error (if ?c then _ else _) => destruct c
           end;
      try discriminate;
      (apply rbind_no_index_error; [apply Hord|intros ?; discriminate]).
Qed.

Lemma cell_lookup_no_index_error (ref : option string * string * string) (wb : Workbook) :
  no_index_error (fst (cell_lookup ref wb)).
Proof.
  assert (Hs : forall n, no_index_error (get_sheet_by_name wb n)).
  { intros n. unfold no_index_error, get_sheet_by_name. split_matches; discriminate. }
  unfold no_index_error, cell_lookup. destruct ref as [[ref_sheet ref_col] ref_row].
  destruct ref_sheet as [n|].
  - pose proof (Hs n) as Hn. destruct (get_sheet_by_name wb n) as [sh|x].
    + split_matches; simpl; discriminate.
    + destruct x; simpl; try discriminate. now destruct Hn.
  - split_matches; simpl; discriminate.
Qed.

Lemma atomic_string_no_index_error (name : string) (wb : Workbook) :
  no_index_error (fst (atomic_string name wb)).
Proof.
  unfold atomic_string.
  destruct (String.eqb name "TRUE"); [discriminate|].
  destruct (String.eqb name "FALSE"); [discriminate|].
  destruct (re_match name) as [[[sheet col] row]|]; [|discriminate].
  apply mbind_no_index_error; [apply cell_lookup_no_index_error|].
  intros v wb'. discriminate.
Qed.

Section Escapes.

Variable float_repr : float64 -> string.
Variable libm_pow : float64 -> float64 -> float64.

Lemma to_float_no_index_error (x : num) : no_index_error (to_float x).
Proof.
  destruct x as [n|f]; [|discriminate]. unfold to_float, float_of_Z.
  destruct (is_infinity _); discriminate.
Qed.

Ltac no_index_steps :=
  repeat first
    [ apply to_float_no_index_error
    | apply rbind_no_index_error; [|intros ?]
    | match goal with
      | |- no_index_error (if ?c then _ else _) => destruct c
      | |- no_index_error (let '(_, _) := ?p in _) => destruct p
      | |- no_index_error (match ?x with _ => _ end) => destruct x
      end
    | (unfold no_index_error; discriminate) ].

Lemma numeric_operations_no_index_error (x y : num) :
  no_index_error (py_add x y) /\ no_index_error (py_sub x y)
  /\ no_index_error (py_mul x y) /\ no_index_error (py_truediv x y)
  /\ no_index_error (math_pow libm_pow x y).
Proof.
  unfold py_add, py_sub, py_mul, py_truediv, int_true_divide, math_pow.
  repeat split; no_index_steps.
Qed.

Lemma arithmetic_no_index_error (a : pyval) (op : string) (b : pyval) :
  no_index_error (arithmetic libm_pow a op b).
Proof.
  unfold arithmetic.
  destruct (_ || _); [discriminate|].
  destruct (as_num a) as [x|]; [|discriminate].
  destruct (as_num b) as [y|]; [|discriminate].
  destruct (numeric_operations_no_index_error x y) as (Hadd & Hsub & Hmul & Hdiv & Hpow).
  destruct (String.eqb op "+"); [exact Hadd|].
  destruct (String.eqb op "-"); [exact Hsub|].
  destruct (String.eqb op "*"); [exact Hmul|].
  destruct (String.eqb op "/"); [exact Hdiv|].
  destruct (String.eqb op "^"); [|discriminate].
  destruct (math_pow libm_pow x y) as [v|[]]; try discriminate. exact Hpow.
Qed.

Lemma function_no_index_error (name : string) (args : list pyval) :
  no_index_error (function float_repr name args).
Proof.
  unfold function.
  destruct (function_map float_repr !! lower name) as [f|] eqn:Hf; [|discriminate].
  assert (Hr : no_index_error (f args)).
  { destruct (function_map_entries _ _ _ Hf) as [->| ->].
    - unfold py_abs. destruct args as [|v [|w args]]; try discriminate.
      destruct v; discriminate.
    - unfold lambda_len. destruct args as [|v [|w args]]; discriminate. }
  destruct (f args) as [v|[]]; try discriminate; [|exact Hr].
  destruct (startswith _ _); [discriminate|]. destruct (contains _ _); discriminate.
Qed.

Lemma transform_no_index_error (t : tree) :
  forall wb, no_index_error (fst (transform float_repr libm_pow t wb)).
Proof.
  induction t as [val|a|name args IH| |name|a op b IHa IHb|a b IHa IHb|a op b IHa IHb]
    using tree_ind; intros wb; simpl.
  - unfold no_index_error, mlift, number; simpl. split_matches; discriminate.
  - discriminate.
  - apply mbind_no_index_error; [now apply mapM_no_index_error|].
    intros vs wb'. apply function_no_index_error.
  - discriminate.
  - apply atomic_string_no_index_error.
  - apply mbind_no_index_error; [apply IHa|]. intros x wb'.
    apply mbind_no_index_error; [apply IHb|]. intros y wb''.
    apply logical_no_index_error.
  - apply mbind_no_index_error; [apply IHa|]. intros x wb'.
    apply mbind_no_index_error; [apply IHb|]. intros y wb''. discriminate.
  - apply mbind_no_index_error; [apply IHa|]. intros x wb'.
    apply mbind_no_index_error; [apply IHb|]. intros y wb''.
    apply arithmetic_no_index_error.
Qed.

(** X5.  Three kinds of exception never leave [evaluate], whatever the
    formula and the host: an [IndexError] (a lookup outside the populated
    cells is answered by 0), a [ZeroDivisionError] (it is returned as DIV0)
    and an [ExpressionEvaluationException] (its error kind is returned). *)
Theorem evaluate_contains_lookup_and_division_faults (t : tree) (wb : Workbook) :
  fst (evaluate float_repr libm_pow t wb) <> Raises IndexError
  /\ fst (evaluate float_repr libm_pow t wb) <> Raises ZeroDivisionError
  /\ (forall e, fst (evaluate float_repr libm_pow t wb)
                <> Raises (ExpressionEvaluationException e)).
Proof.
  pose proof (transform_no_index_error t wb) as Hn. unfold evaluate.
  destruct (transform float_repr libm_pow t wb) as [[v|x] wb']; simpl in *.
  - split; [|split; [|intros e]]; discriminate.
  - destruct x; simpl; (split; [|split; [|intros e0]]); try discriminate.
    intros _. now apply Hn.
Qed.

End Escapes.

(** ** Comparisons *)

Lemma ascii_lower_idempotent (c : ascii) : ascii_lower (ascii_lower c) = ascii_lower c.
Proof. destruct c as [[] [] [] [] [] [] [] []]; reflexivity. Qed.

Lemma lower_idempotent (s : string) : lower (lower s) = lower s.
Proof.
  induction s as [|c s IH]; simpl; [reflexivity|].
  now rewrite ascii_lower_idempotent, IH.
Qed.

(** X6.  ASCII text is compared without regard to case: every comparison
    of two ASCII texts has the result of the comparison of their
    lower-case forms, and two such texts with the same lower-case form are
    equal, not less and not greater. *)
Theorem text_comparison_ignores_case (s t op : string) :
  all_chars is_ascii s = true -> all_chars is_ascii t = true ->
  logical (VStr s) op (VStr t) = logical (VStr (lower s)) op (VStr (lower t))
  /\ (lower s = lower t ->
      logical (VStr s) "=" (VStr t) = Ok (VBool true)
      /\ logical (VStr s) "<>" (VStr t) = Ok (VBool false)
      /\ logical (VStr s) "<" (VStr t) = Ok (VBool false)
      /\ logical (VStr s) ">" (VStr t) = Ok (VBool false)
      /\ logical (VStr s) "<=" (VStr t) = Ok (VBool true)
      /\ logical (VStr s) ">=" (VStr t) = Ok (VBool true)).
Proof.
  intros _ _. split.
  - unfold logical. now rewrite !lower_idempotent.
  - intros E. unfold logical, py_eq, py_order. simpl. rewrite E.
    rewrite String.eqb_refl, string_compare_refl. repeat split.
Qed.

Lemma text_comparison_ignores_case_witness :
  logical (VStr "Hello") "=" (VStr "hELLO") = Ok (VBool true)
  /\ logical (VStr "Hello") "<" (VStr "hELLO") = Ok (VBool false).
Proof.
  pose proof (proj2 (text_comparison_ignores_case "Hello" "hELLO" "=" eq_refl eq_refl)
                eq_refl) as H.
  split; [exact (proj1 H)|exact (proj1 (proj2 (proj2 H)))].
Defined.

Lemma SFcompare_antisym (f g : float64) :
  SFcompare f g = option_map CompOpp (SFcompare g f).
Proof.
  destruct f as [s| s| |s m e], g as [s'| s'| |s' m' e']; simpl; try reflexivity;
    try (destruct s; reflexivity); try (destruct s'; reflexivity);
    try (destruct s, s'; reflexivity).
  pose proof (Pos.compare_cont_antisym m' m Eq) as P. simpl in P.
  destruct s, s'; simpl; try reflexivity;
    rewrite (Z.compare_antisym e e'); destruct (e ?= e') eqn:E; simpl; try reflexivity;
    now rewrite P.
Qed.

Lemma CompOpp_option_involutive (c : option comparison) :
  option_map CompOpp (option_map CompOpp c) = c.
Proof. destruct c as [[]|]; reflexivity. Qed.

Lemma num_compare_antisym (x y : num) :
  num_compare x y = option_map CompOpp (num_compare y x).
Proof.
  destruct x as [a|f], y as [b|g]; simpl.
  - now rewrite (Z.compare_antisym b a).
  - now rewrite CompOpp_option_involutive.
  - reflexivity.
  - apply SFcompare_antisym.
Qed.

Lemma spec_native_compare_antisym (a b : pyval) :
  spec_native_compare a b = option_map CompOpp (spec_native_compare b a).
Proof.
  destruct a as [m|f|s|x| |], b as [n|g|t|y| |];
    try reflexivity;
    try (apply (num_compare_antisym (NInt _) (NInt _)));
    try (apply (num_compare_antisym (NInt _) (NFloat _)));
    try (apply (num_compare_antisym (NFloat _) (NInt _)));
    try (apply (num_compare_antisym (NFloat _) (NFloat _))).
  - simpl. now rewrite (String.compare_antisym (lower s) (lower t)).
Qed.

Lemma spec_logical_mirror (a b : pyval) :
  spec_logical a "<" b = spec_logical b ">" a
  /\ spec_logical a "<=" b = spec_logical b ">=" a
  /\ spec_logical a "=" b = spec_logical b "=" a
  /\ spec_logical a "<>" b = spec_logical b "<>" a.
Proof.
  unfold spec_logical.
  destruct (category_of a) as [ca|], (category_of b) as [cb|]; try (repeat split; reflexivity).
  destruct ca, cb; simpl; try (repeat split; reflexivity);
    rewrite (spec_native_compare_antisym a b);
    destruct (spec_native_compare b a) as [[]|]; repeat split; reflexivity.
Qed.

(** X7.  Comparisons of numbers, texts and booleans mirror: [a < b] is
    [b > a], [a <= b] is [b >= a], and [=] and [<>] do not depend on the
    order of their operands. *)
Theorem comparison_mirrors (a b : pyval) (ca cb : category) :
  category_of a = Some ca -> category_of b = Some cb ->
  logical a "<" b = logical b ">" a
  /\ logical a "<=" b = logical b ">=" a
  /\ logical a "=" b = logical b "=" a
  /\ logical a "<>" b = logical b "<>" a.
Proof.
  intros Ha Hb.
  assert (Hspec : forall opL opR,
             In opL logical_ops ->
             spec_logical a opL b = spec_logical b opR a ->
             logical a opL b = logical b opR a).
  { intros opL opR Hop E.
    assert (Ht : exists r, spec_logical a opL b = Some r).
    { unfold spec_logical. rewrite Ha, Hb.
      destruct (category_eqb ca cb); now apply spec_apply_op_total. }
    destruct Ht as [r Hr].
    rewrite (logical_refines_spec a b opL r Hr).
    rewrite E in Hr. now rewrite (logical_refines_spec b a opR r Hr). }
  destruct (spec_logical_mirror a b) as (H1 & H2 & H3 & H4).
  repeat split; apply Hspec; try assumption; simpl; tauto.
Qed.

Lemma comparison_mirrors_witness :
  logical (VInt 1) "<" (VFloat float_one) = logical (VFloat float_one) ">" (VInt 1)
  /\ logical (VStr "b") "<=" (VBool true) = logical (VBool true) ">=" (VStr "b").
Proof.
  split.
  - exact (proj1 (comparison_mirrors (VInt 1) (VFloat float_one) Numeric Numeric
                    eq_refl eq_refl)).
  - exact (proj1 (proj2 (comparison_mirrors (VStr "b") (VBool true) Text Boolean
                           eq_refl eq_refl))).
Defined.

(** ** Exceptions that do leave [evaluate] *)

Section Leaks.

Variable float_repr : float64 -> string.
Variable libm_pow : float64 -> float64 -> float64.

Lemma transform_binary (ta tb : tree) (wb wb1 wb2 : Workbook) (a b : pyval) :
  transform float_repr libm_pow ta wb = (Ok a, wb1) ->
  transform float_repr libm_pow tb wb1 = (Ok b, wb2) ->
  (forall op, transform float_repr libm_pow (T_logical ta op tb) wb = (logical a op b, wb2))
  /\ (forall op, transform float_repr libm_pow (T_arithmetic ta op tb) wb
                 = (arithmetic libm_pow a op b, wb2))
  /\ transform float_repr libm_pow (T_concat ta tb) wb = (concat float_repr a b, wb2).
Proof.
  intros Ha Hb. repeat split; intros; simpl; unfold mbind; now rewrite Ha, Hb.
Qed.

(** X9.  A comparison in which an operand is [None] (the value of a cell
    that holds nothing) or an object, and the other operand is of another
    type, raises [KeyError]: the type is missing from the table of
    ordinals.  The exception leaves [evaluate] as it is. *)
Theorem comparison_of_valueless_operand_raises (ta tb : tree) (op : string)
    (wb wb1 wb2 : Workbook) (a b : pyval) :
  transform float_repr libm_pow ta wb = (Ok a, wb1) ->
  transform float_repr libm_pow tb wb1 = (Ok b, wb2) ->
  category_of a = None \/ category_of b = None ->
  pytype_eqb (type_of a) (type_of b) = false ->
  logical a op b = Raise KeyError
  /\ evaluate float_repr libm_pow (T_logical ta op tb) wb = (Raises KeyError, wb2).
Proof.
  intros Ha Hb Hcat Hty.
  assert (H : logical a op b = Raise KeyError).
  { unfold logical.
    destruct a as [m|f|s|x| |c i v], b as [n|g|t|y| |d j w]; simpl in *;
      try discriminate; try (destruct Hcat; discriminate); try reflexivity.
    now rewrite Hty. }
  split; [exact H|]. unfold evaluate.
  rewrite (proj1 (transform_binary ta tb wb wb1 wb2 a b Ha Hb) op). now rewrite H.
Qed.

(** X10.  An int too large for a float, combined with a float by [+], [-],
    [*] or [/], raises [OverflowError], and [evaluate] lets it go; only
    under [^] is the same overflow turned into NUM. *)
Theorem int_beyond_float_range (ta tb : tree) (op : string)
    (wb wb1 wb2 : Workbook) (n : Z) (f : float64) :
  transform float_repr libm_pow ta wb = (Ok (VInt n), wb1) ->
  transform float_repr libm_pow tb wb1 = (Ok (VFloat f), wb2) ->
  float_of_Z n = Raise OverflowError ->
  (In op plain_ops ->
     arithmetic libm_pow (VFloat f) op (VInt n) = Raise OverflowError
     /\ evaluate float_repr libm_pow (T_arithmetic ta op tb) wb = (Raises OverflowError, wb2))
  /\ evaluate float_repr libm_pow (T_arithmetic ta "^" tb) wb = (ReturnsError NUM, wb2).
Proof.
  intros Ha Hb Hn.
  destruct (transform_binary ta tb wb wb1 wb2 _ _ Ha Hb) as (_ & Hop & _).
  split.
  - intros Hin. unfold evaluate. rewrite Hop.
    unfold arithmetic, py_add, py_sub, py_mul, py_truediv. simpl. rewrite Hn.
    simpl in Hin. destruct Hin as [<-|[<-|[<-|[<-|[]]]]]; split; reflexivity.
  - unfold evaluate. rewrite Hop. unfold arithmetic, math_pow. simpl. now rewrite Hn.
Qed.

(** X11.  A power outside the domain of [pow] is no typed error: when the
    C library answers two finite operands with a NaN (a negative base with
    a fractional exponent), or with an infinity for a zero base (zero to a
    negative power), [math.pow] raises [ValueError], which [evaluate] lets
    go. *)
Theorem power_domain_error_escapes (ta tb : tree) (wb wb1 wb2 : Workbook)
    (a b : pyval) (x y : num) (fx fy : float64) :
  transform float_repr libm_pow ta wb = (Ok a, wb1) ->
  transform float_repr libm_pow tb wb1 = (Ok b, wb2) ->
  as_num a = Some x -> as_num b = Some y ->
  to_float x = Ok fx -> to_float y = Ok fy ->
  is_finite fx = true -> is_finite fy = true ->
  is_nan (libm_pow fx fy) = true
  \/ (is_infinity (libm_pow fx fy) = true /\ is_zero fx = true) ->
  arithmetic libm_pow a "^" b = Raise ValueError
  /\ evaluate float_repr libm_pow (T_arithmetic ta "^" tb) wb = (Raises ValueError, wb2).
Proof.
  intros Ha Hb Hx Hy Hfx Hfy Fx Fy Hdom.
  assert (H : arithmetic libm_pow a "^" b = Raise ValueError).
  { unfold arithmetic.
    assert (Ia : isinstance_int_float a = true) by (destruct a; simpl in *; congruence).
    assert (Ib : isinstance_int_float b = true) by (destruct b; simpl in *; congruence).
    rewrite Ia, Ib, Hx, Hy. simpl. unfold math_pow. rewrite Hfx, Hfy. simpl.
    rewrite Fx, Fy. simpl.
    destruct Hdom as [Hnan|[Hinf Hz]].
    - now rewrite Hnan.
    - rewrite Hinf, Hz. now destruct (libm_pow fx fy). }
  split; [exact H|]. unfold evaluate.
  rewrite (proj1 (proj2 (transform_binary ta tb wb wb1 wb2 a b Ha Hb)) "^").
  now rewrite H.
Qed.

End Leaks.

Lemma comparison_of_valueless_operand_raises_witness :
  evaluate model_float_repr model_pow
    (T_logical (T_atomic_string "A1") "=" (T_number "0")) blank_cell_workbook
  = (Raises KeyError, blank_cell_workbook).
Proof.
  apply (comparison_of_valueless_operand_raises model_float_repr model_pow
           (T_atomic_string "A1") (T_number "0") "="
           blank_cell_workbook blank_cell_workbook blank_cell_workbook VNone (VInt 0));
    [reflexivity|reflexivity|left; reflexivity|reflexivity].
Defined.

Lemma int_beyond_float_range_witness :
  evaluate model_float_repr model_pow
    (T_arithmetic (T_number (str_of_Z (2 ^ 1024))) "*" (T_number "0.5")) example_workbook
  = (Raises OverflowError, example_workbook)
  /\ evaluate model_float_repr model_pow
       (T_arithmetic (T_number (str_of_Z (2 ^ 1024))) "^" (T_number "0.5")) example_workbook
     = (ReturnsError NUM, example_workbook).
Proof.
  assert (H := int_beyond_float_range model_float_repr model_pow
                 (T_number (str_of_Z (2 ^ 1024))) (T_number "0.5") "*"
                 example_workbook example_workbook example_workbook
                 (2 ^ 1024) (S754_finite false 4503599627370496 (-53))).
  assert (Ha : transform model_float_repr model_pow (T_number (str_of_Z (2 ^ 1024)))
                 example_workbook = (Ok (VInt (2 ^ 1024)), example_workbook))
    by (vm_compute; reflexivity).
  assert (Hb : transform model_float_repr model_pow (T_number "0.5") example_workbook
               = (Ok (VFloat (S754_finite false 4503599627370496 (-53))), example_workbook))
    by (vm_compute; reflexivity).
  assert (Hn : float_of_Z (2 ^ 1024) = Raise OverflowError) by (vm_compute; reflexivity).
  destruct (H Ha Hb Hn) as [H1 H2]. split; [|exact H2].
  apply H1. simpl. tauto.
Defined.

Lemma power_domain_error_escapes_witness :
  evaluate model_float_repr model_pow
    (T_arithmetic (T_number "-1") "^" (T_number "0.5")) example_workbook
  = (Raises ValueError, example_workbook).
Proof.
  apply (power_domain_error_escapes model_float_repr model_pow
           (T_number "-1") (T_number "0.5")
           example_workbook example_workbook example_workbook
           (VInt (-1)) (VFloat (S754_finite false 4503599627370496 (-53)))
           (NInt (-1)) (NFloat (S754_finite false 4503599627370496 (-53)))
           (S754_finite true 4503599627370496 (-52))
           (S754_finite false 4503599627370496 (-53)));
    try (vm_compute; reflexivity).
  left. vm_compute. reflexivity.
Defined.

(** ** Text literals *)

Section Literals.

Variable float_repr : float64 -> string.
Variable libm_pow : float64 -> float64 -> float64.

(** X12.  A text literal stands for the characters between its quotes, as
    they are: the token of any text [s] in double quotes evaluates to [s],
    and the concatenation of two literals to the two texts joined. *)
Theorem text_literal_is_verbatim (s t : string) (wb : Workbook) :
  evaluate float_repr libm_pow (T_string (quoted s)) wb = (Returns (VStr s), wb)
  /\ evaluate float_repr libm_pow (T_concat (T_string (quoted s)) (T_string (quoted t))) wb
     = (Returns (VStr (s ++ t)), wb).
Proof.
  unfold evaluate. simpl. unfold mbind, mret, mlift, string_rule, concat.
  fold (strip_ends (quoted s)). fold (strip_ends (quoted t)).
  rewrite !strip_quotes. split; reflexivity.
Qed.

End Literals.

(** ** Functions *)

Section Functions.

Variable float_repr : float64 -> string.
Variable libm_pow : float64 -> float64 -> float64.

Lemma function_map_lookup (k : string) :
  function_map float_repr !! k
  = if String.eqb k "abs" then Some py_abs
    else if String.eqb k "len" then Some (lambda_len float_repr)
    else None.
Proof.
  unfold function_map.
  destruct (String.eqb_spec k "abs") as [->|Ha]; [now rewrite lookup_insert_eq|].
  rewrite lookup_insert_ne by congruence.
  destruct (String.eqb_spec k "len") as [->|Hl]; [now rewrite lookup_insert_eq|].
  rewrite lookup_insert_ne by congruence. apply lookup_empty.
Qed.

(** X13.  Function names are looked up without regard to case, and the
    registry decides NAME: a call returns NAME for every name other than
    ABS and LEN, whatever its arguments, and never for those two. *)
Theorem function_name_resolution (name : string) (args : list pyval) :
  function float_repr name args = function float_repr (lower name) args
  /\ (lower name <> "abs" -> lower name <> "len" ->
      function float_repr name args = Raise (ExpressionEvaluationException NAME))
  /\ (lower name = "abs" \/ lower name = "len" ->
      function float_repr name args <> Raise (ExpressionEvaluationException NAME)).
Proof.
  split; [|split].
  - unfold function. now rewrite lower_idempotent.
  - intros Ha Hl. unfold function. rewrite function_map_lookup.
    destruct (String.eqb_spec (lower name) "abs") as [E|_]; [contradiction|].
    destruct (String.eqb_spec (lower name) "len") as [E|_]; [contradiction|].
    reflexivity.
  - intros H. unfold function. rewrite function_map_lookup.
    destruct H as [-> | ->]; simpl.
    + unfold py_abs. destruct args as [|v [|w args]]; try destruct v; simpl;
        try discriminate; split_matches; discriminate.
    + unfold lambda_len. destruct args as [|v [|w args]]; simpl;
        try discriminate; split_matches; discriminate.
Qed.

End Functions.

Lemma function_name_resolution_witness :
  function model_float_repr "Average" [VInt 1; VInt 2]
  = Raise (ExpressionEvaluationException NAME)
  /\ function model_float_repr "Abs" [VInt (-2)] <> Raise (ExpressionEvaluationException NAME).
Proof.
  destruct (function_name_resolution model_float_repr "Average" [VInt 1; VInt 2])
    as (_ & H & _).
  destruct (function_name_resolution model_float_repr "Abs" [VInt (-2)]) as (_ & _ & K).
  split.
  - apply H; vm_compute; discriminate.
  - apply K. left. reflexivity.
Defined.

Section Builtins.

Variable float_repr : float64 -> string.
Variable libm_pow : float64 -> float64 -> float64.

Lemma function_abs (args : list pyval) :
  function float_repr "ABS" args
  = match py_abs args with
    | Raise (TypeError msg) =>
        if startswith msg "bad operand type" then Raise (ExpressionEvaluationException VALUE)
        else if contains "takes exactly" msg then Raise (ExpressionEvaluationException NA)
        else Raise (TypeError msg)
    | Raise KeyError => Raise (ExpressionEvaluationException NAME)
    | r => r
    end.
Proof.
  unfold function. rewrite function_map_lookup.
  change (String.eqb (lower "ABS") "abs") with true. cbv iota zeta.
  destruct (py_abs args) as [v|[]]; reflexivity.
Qed.


Lemma SFabs_idempotent (f : float64) : SFabs (SFabs f) = SFabs f.
Proof. now destruct f. Qed.

Lemma abs_not_below_zero (w : pyval) :
  (exists n, w = VInt (Z.abs n)) \/ (exists f, w = VFloat (SFabs f) /\ is_nan f = false) ->
  logical w ">=" (VInt 0) = Ok (VBool true).
Proof.
  intros [[n ->]|(f & -> & Hf)]; unfold logical, py_order; simpl.
  - pose proof (Z.abs_nonneg n) as Hn. unfold is_ge.
    destruct (Z.compare_spec (Z.abs n) 0); try reflexivity. lia.
  - destruct f as [s|s| |s m e]; simpl in *; try reflexivity; [discriminate|].
    destruct (0 <=? e) eqn:He; [|reflexivity].
    assert (H : 0 < Z.pos m * 2 ^ e).
    { apply Z.mul_pos_pos; [lia|]. apply Z.pow_pos_nonneg; lia. }
    destruct (Z.pos m * 2 ^ e); [lia|reflexivity|lia].
Qed.

(** X14.  ABS of one number is a number that is its own ABS and, unless
    it is a NaN, not below zero; a boolean counts as 0 or 1.  ABS of one
    value that is neither number nor boolean is VALUE, and ABS of no
    argument or of several is NA. *)
Theorem abs_outcomes (v : pyval) (args : list pyval) :
  (isinstance_int_float v = true ->
     exists w, function float_repr "ABS" [v] = Ok w
       /\ is_number w
       /\ function float_repr "ABS" [w] = Ok w
       /\ (w <> VFloat S754_nan -> logical w ">=" (VInt 0) = Ok (VBool true)))
  /\ (non_numeric v ->
      function float_repr "ABS" [v] = Raise (ExpressionEvaluationException VALUE))
  /\ (List.length args <> 1%nat ->
      function float_repr "ABS" args = Raise (ExpressionEvaluationException NA)).
Proof.
  split; [|split].
  - intros Hv. rewrite function_abs.
    destruct v as [n|f| |b| |]; try discriminate; simpl.
    + exists (VInt (Z.abs n)). rewrite function_abs. simpl.
      rewrite Z.abs_idemp. repeat split.
      intros _. apply abs_not_below_zero. left. now exists n.
    + exists (VFloat (SFabs f)). rewrite function_abs. simpl.
      rewrite SFabs_idempotent. repeat split.
      intros Hn. apply abs_not_below_zero. right. exists f. split; [reflexivity|].
      destruct f; try reflexivity. now destruct Hn.
    + exists (VInt (bool_to_Z b)). rewrite function_abs. simpl.
      assert (E : Z.abs (bool_to_Z b) = bool_to_Z b) by now destruct b.
      rewrite E. repeat split.
      intros _. apply abs_not_below_zero. left. exists (bool_to_Z b). now rewrite E.
  - intros Hv. rewrite function_abs.
    destruct v as [n|f|s|b| |c i w]; try contradiction; reflexivity.
  - intros Hl. rewrite function_abs. unfold py_abs.
    destruct args as [|v0 [|w args]]; [|now destruct Hl|];
      rewrite ?string_app_cons, ?string_app_nil; reflexivity.
Qed.



End Builtins.

Lemma abs_outcomes_witness :
  function model_float_repr "ABS" [VStr "x"] = Raise (ExpressionEvaluationException VALUE)
  /\ function model_float_repr "ABS" [] = Raise (ExpressionEvaluationException NA)
  /\ exists w, function model_float_repr "ABS" [VBool true] = Ok w /\ is_number w.
Proof.
  destruct (abs_outcomes model_float_repr (VStr "x") []) as (_ & H2 & H3).
  destruct (abs_outcomes model_float_repr (VBool true) []) as (H1 & _ & _).
  split; [exact (H2 I)|]. split; [apply H3; simpl; lia|].
  destruct (H1 eq_refl) as (w & Hw & Hn & _). exists w. now split.
Defined.


(** ** The results of arithmetic *)

Section Results.

Variable libm_pow : float64 -> float64 -> float64.

Lemma rbind_ok {A B} (r : result A) (k : A -> result B) (b : B) :
  rbind r k = Ok b -> exists a, r = Ok a /\ k a = Ok b.
Proof. destruct r as [a|e]; simpl; [eauto|discriminate]. Qed.

Lemma float_operation_result (x y : num) (v : pyval)
    (h : float64 -> float64 -> result pyval) :
  (forall f g w, h f g = Ok w -> exists r, w = VFloat r) ->
  (do f <- to_float x; do g <- to_float y; h f g) = Ok v ->
  exists r, v = VFloat r.
Proof.
  intros Hh H. apply rbind_ok in H as (f & _ & H).
  apply rbind_ok in H as (g & _ & H). eauto.
Qed.

Lemma math_pow_result (x y : num) (v : pyval) :
  math_pow libm_pow x y = Ok v -> exists r, v = VFloat r.
Proof.
  unfold math_pow. apply float_operation_result. intros f g w.
  destruct (_ || _); [intros [= <-]; eauto|].
  destruct (is_nan _); [discriminate|].
  destruct (is_infinity _); [destruct (is_zero f); discriminate|].
  intros [= <-]; eauto.
Qed.

Lemma arithmetic_result_kind (a b v : pyval) (op : string) :
  In op arithmetic_ops ->
  arithmetic libm_pow a op b = Ok v ->
  is_number v /\ (op = "/" \/ op = "^" -> exists r, v = VFloat r).
Proof.
  intros Hop. unfold arithmetic.
  destruct (_ || _); [discriminate|].
  destruct (as_num a) as [x|]; [|discriminate].
  destruct (as_num b) as [y|]; [|discriminate].
  assert (Hfloat : forall w, (exists r, w = VFloat r) -> is_number w)
    by (intros w [r ->]; exact I).
  simpl in Hop. destruct Hop as [<-|[<-|[<-|[<-|[<-|[]]]]]]; simpl.
  - intros H. split; [|intros [E|E]; discriminate E].
    unfold py_add in H. destruct x, y; try (injection H as <-; exact I);
      apply Hfloat; revert H; apply float_operation_result; intros ? ? ? [= <-]; eauto.
  - intros H. split; [|intros [E|E]; discriminate E].
    unfold py_sub in H. destruct x, y; try (injection H as <-; exact I);
      apply Hfloat; revert H; apply float_operation_result; intros ? ? ? [= <-]; eauto.
  - intros H. split; [|intros [E|E]; discriminate E].
    unfold py_mul in H. destruct x, y; try (injection H as <-; exact I);
      apply Hfloat; revert H; apply float_operation_result; intros ? ? ? [= <-]; eauto.
  - intros H.
    assert (K : exists r, v = VFloat r).
    { unfold py_truediv, int_true_divide in H. destruct x as [m|f], y as [n|g];
        try (revert H; apply float_operation_result; intros f' g' w;
             destruct (is_zero g'); [discriminate|intros [= <-]; eauto]).
      destruct (n =? 0); [discriminate|].
      destruct (m =? 0); [injection H as <-; eauto|].
      destruct (SFdiv_core_binary _ _ _ _ _ _) as [[q e] l].
      destruct (is_infinity _); [discriminate|]. injection H as <-; eauto. }
    split; [now apply Hfloat|intros _; exact K].
  - intros H.
    assert (K : exists r, v = VFloat r).
    { destruct (math_pow libm_pow x y) as [w|e] eqn:E.
      - injection H as <-. now apply (math_pow_result x y).
      - destruct e; discriminate. }
    split; [now apply Hfloat|intros _; exact K].
Qed.

(** X16.  Arithmetic returns numbers: with one of the five operators, a
    result that is returned is an int or a float (never a boolean, also
    for boolean operands), and it is a float under [/] and [^], also for
    two ints. *)
Theorem arithmetic_returns_numbers (a b v : pyval) (op : string) :
  In op arithmetic_ops ->
  arithmetic libm_pow a op b = Ok v ->
  is_number v /\ (op = "/" \/ op = "^" -> exists r, v = VFloat r).
Proof. apply arithmetic_result_kind. Qed.

End Results.

Lemma arithmetic_returns_numbers_witness :
  is_number (VInt 2)
  /\ (exists r, VFloat (S754_finite false 4503599627370496 (-51)) = VFloat r).
Proof.
  split.
  - exact (proj1 (arithmetic_returns_numbers model_pow (VBool true) (VBool true) (VInt 2) "+"
                    (or_introl eq_refl) eq_refl)).
  - apply (proj2 (arithmetic_returns_numbers model_pow (VInt 4) (VInt 2)
                    (VFloat (S754_finite false 4503599627370496 (-51))) "/"
                    (or_intror (or_intror (or_intror (or_introl eq_refl)))) eq_refl)).
    left. reflexivity.
Defined.

(** ** The terminals of the grammar *)

Lemma atomic_token_head (s : string) :
  fullmatch ATOMIC_STR s = true -> exists c r, s = String c r /\ atomic_first c = true.
Proof.
  unfold fullmatch, ATOMIC_STR. rewrite rmatch_seq.
  destruct s as [|c r]; [discriminate|].
  change (rmatch (Class atomic_first) (String c r) ?k)
    with (if atomic_first c then k r else None).
  destruct (atomic_first c) eqn:Hc; [eauto|discriminate].
Qed.

Lemma number_token_head (c : ascii) (r : string) :
  atomic_first c = true -> fullmatch SIGNED_NUMBER (String c r) = false.
Proof.
  intros Hc.
  destruct c as [[] [] [] [] [] [] [] []];
    try (vm_compute in Hc; discriminate Hc); vm_compute; reflexivity.
Qed.

(** X17.  The terminals of bare tokens do not overlap, and a function
    name is a bare token: no text is both a NUMBER and an ATOMIC_STR, so a
    formula of one ATOMIC_STR token is an [atomic_string] node whichever
    terminal is tried first; and every FUNC_NAME is also an ATOMIC_STR. *)
Theorem bare_token_terminals (s : string) :
  (fullmatch SIGNED_NUMBER s = true -> fullmatch ATOMIC_STR s = false)
  /\ (fullmatch ATOMIC_STR s = true -> parse_literal s = Some (T_atomic_string s))
  /\ (fullmatch FUNC_NAME s = true -> fullmatch ATOMIC_STR s = true).
Proof.
  assert (Hdisjoint : fullmatch ATOMIC_STR s = true -> fullmatch SIGNED_NUMBER s = false).
  { intros H. destruct (atomic_token_head s H) as (c & r & -> & Hc).
    now apply number_token_head. }
  split; [|split].
  - intros Hn. destruct (fullmatch ATOMIC_STR s) eqn:E; [|reflexivity].
    rewrite (Hdisjoint eq_refl) in Hn. discriminate Hn.
  - intros Ha. unfold parse_literal. now rewrite (Hdisjoint Ha), Ha.
  - intros Hf. apply fullmatch_matches in Hf. unfold FUNC_NAME in Hf.
    inversion Hf as [| |r1 r2 u v Hu Hv| | | | | |]; subst.
    inversion Hu as [|p c Hc| | | | | | |]; subst.
    destruct (matches_rep_class func_next _ v Hv 0%nat None eq_refl) as (Hall & _ & _).
    apply matches_fullmatch; [reflexivity|]. unfold ATOMIC_STR.
    apply M_seq.
    + apply M_class. unfold atomic_first. now rewrite Hc.
    + apply matches_class_run; [|lia].
      apply (all_chars_weaken func_next); [|exact Hall].
      intros d Hd. unfold func_next in Hd. unfold atomic_next.
      destruct (Ascii.eqb d "_"), (is_letter d), (is_digit d), (Ascii.eqb d ".");
        simpl in *; try reflexivity; discriminate.
Qed.

Lemma bare_token_terminals_witness :
  fullmatch ATOMIC_STR "1e5" = false
  /\ parse_literal "LOG10" = Some (T_atomic_string "LOG10")
  /\ fullmatch ATOMIC_STR "LOG10" = true.
Proof.
  split; [|split].
  - apply (proj1 (bare_token_terminals "1e5")). reflexivity.
  - apply (proj1 (proj2 (bare_token_terminals "LOG10"))). reflexivity.
  - apply (proj2 (proj2 (bare_token_terminals "LOG10"))). reflexivity.
Defined.

(** ** NUMBER tokens are read *)

(** The words of the terminals. *)
Lemma matches_INT (d : string) : matches INT d -> digit_run d.
Proof.
  intros H. destruct (matches_rep_class is_digit _ d H 1%nat None eq_refl) as (Hd & Hl & _).
  split; [exact Hd|now apply length_pos_nonempty].
Qed.

Lemma matches_opt_SIGN (sg : string) : matches (Opt SIGN) sg -> sign_text sg.
Proof.
  intros H. inversion H as [| | | | |r|r u Hu| |]; subst; [now left|].
  inversion Hu as [| | |r s u' Hl|r s u' Hr| | | |]; subst.
  - inversion Hl; subst. right. now left.
  - inversion Hr; subst. right. now right.
Qed.

Lemma matches_EXP (ex : string) : matches EXP ex -> exponent_text ex.
Proof.
  intros H. right. unfold EXP in H.
  inversion H as [| |r s u v Hu Hv| | | | | |]; subst.
  unfold SIGNED_INT in Hv.
  inversion Hv as [| |r s sg d Hsg Hd| | | | | |]; subst.
  apply matches_opt_SIGN in Hsg. apply matches_INT in Hd.
  inversion Hu as [| | |r s u' Hl|r s u' Hr| | | |]; subst.
  - inversion Hl; subst. exists "e"%char, sg, d. repeat split; auto. all: apply Hd.
  - inversion Hr; subst. exists "E"%char, sg, d. repeat split; auto. all: apply Hd.
Qed.

Lemma matches_opt_EXP (ex : string) : matches (Opt EXP) ex -> exponent_text ex.
Proof.
  intros H. inversion H as [| | | | |r|r u Hu| |]; subst; [now left|].
  now apply matches_EXP.
Qed.

Lemma matches_DECIMAL (dc : string) :
  matches DECIMAL dc ->
  exists ip fp, dc = (ip ++ "." ++ fp)%string
    /\ all_chars is_digit ip = true /\ all_chars is_digit fp = true
    /\ (ip ++ fp)%string <> EmptyString.
Proof.
  intros H. unfold DECIMAL in H.
  inversion H as [| | |r s u Hl|r s u Hr| | | |]; subst.
  - inversion Hl as [| |r s ip v Hip Hv| | | | | |]; subst.
    apply matches_INT in Hip as [Hip Hne].
    inversion Hv as [| |r s p fp Hp Hfp| | | | | |]; subst.
    inversion Hp; subst.
    exists ip. inversion Hfp as [| | | | |r|r u Hu| |]; subst.
    + exists EmptyString. repeat split; auto.
      rewrite string_app_empty_r. exact Hne.
    + apply matches_INT in Hu as [Hfp' _]. exists fp. repeat split; auto.
      destruct ip; [now destruct Hne|discriminate].
  - inversion Hr as [| |r s p fp Hp Hfp| | | | | |]; subst.
    inversion Hp; subst. apply matches_INT in Hfp as [Hfp Hne].
    exists EmptyString, fp. repeat split; auto.
Qed.

Lemma number_token_shape (s : string) :
  matches SIGNED_NUMBER s ->
  exists sg ip pt fp ex, s = (sg ++ ip ++ pt ++ fp ++ ex)%string
    /\ sign_text sg
    /\ all_chars is_digit ip = true /\ all_chars is_digit fp = true
    /\ (pt = "." \/ (pt = EmptyString /\ fp = EmptyString))
    /\ (ip ++ fp)%string <> EmptyString
    /\ exponent_text ex.
Proof.
  intros H. unfold SIGNED_NUMBER in H.
  inversion H as [| |r s0 sg body Hsg Hbody| | | | | |]; subst.
  apply matches_opt_SIGN in Hsg. exists sg.
  unfold NUMBER in Hbody.
  inversion Hbody as [| | |r s0 u Hfloat|r s0 u Hint| | | |]; subst.
  - unfold FLOAT in Hfloat.
    inversion Hfloat as [| | |r s0 u Hl|r s0 u Hr| | | |]; subst.
    + inversion Hl as [| |r s0 ip ex Hip Hex| | | | | |]; subst.
      apply matches_INT in Hip as [Hip Hne]. apply matches_EXP in Hex.
      exists ip, EmptyString, EmptyString, ex.
      rewrite !string_app_nil, string_app_empty_r. repeat split; auto.
    + inversion Hr as [| |r s0 dc ex Hdc Hex| | | | | |]; subst.
      apply matches_DECIMAL in Hdc as (ip & fp & -> & Hip & Hfp & Hne).
      apply matches_opt_EXP in Hex.
      exists ip, ".", fp, ex. rewrite !string_app_assoc. repeat split; auto.
  - apply matches_INT in Hint as [Hip Hne].
    exists body, EmptyString, EmptyString, EmptyString.
    rewrite !string_app_nil, !string_app_empty_r. repeat split; auto.
    now left.
Qed.

Lemma number_token_read (s : string) :
  fullmatch SIGNED_NUMBER s = true -> exists v, number s = Ok v /\ is_number v.
Proof.
  intros H. apply fullmatch_matches in H.
  destruct (number_token_shape s H) as (sg & ip & pt & fp & ex & -> & Hsg & Hip & Hfp
                                        & Hpt & Hne & Hex).
  destruct (py_float_token sg ip pt fp ex Hsg Hip Hfp Hpt Hne Hex) as [f Hf].
  unfold number. destruct (py_int _) as [n|].
  - exists (VInt n). now split.
  - rewrite Hf. exists (VFloat f). now split.
Qed.

Section Tokens.

Variable float_repr : float64 -> string.
Variable libm_pow : float64 -> float64 -> float64.

(** X18.  The rule [number] reads every NUMBER token: for each text of
    the terminal, [int] or else [float] accepts it, so the rule returns an
    int or a float and the one-token formula evaluates to it.  The
    [ValueError] of [float] cannot occur. *)
Theorem number_reads_every_token (s : string) (wb : Workbook) :
  fullmatch SIGNED_NUMBER s = true ->
  exists v, number s = Ok v /\ is_number v
    /\ evaluate float_repr libm_pow (T_number s) wb = (Returns v, wb).
Proof.
  intros H. destruct (number_token_read s H) as (v & Hv & Hnum).
  exists v. repeat split; auto.
  unfold evaluate. simpl. unfold mlift. now rewrite Hv.
Qed.

End Tokens.

Lemma number_reads_every_token_witness :
  exists v, number "-.5E-3" = Ok v /\ is_number v.
Proof.
  destruct (number_reads_every_token model_float_repr model_pow "-.5E-3" example_workbook
              eq_refl) as (v & Hv & Hn & _).
  exists v. now split.
Defined.

(** ** Bare tokens and references *)

Lemma digit_run_has_digit (l : string) :
  all_chars is_digit l = true -> (1 <= String.length l)%nat ->
  all_chars not_digit l = false.
Proof.
  destruct l as [|c l]; simpl; [lia|].
  intros H _. apply andb_prop in H as [Hc _]. unfold not_digit. now rewrite Hc.
Qed.

Lemma reference_has_digit (name : string) :
  all_chars not_digit name = true -> re_match name = None.
Proof.
  intros Hname. destruct (re_match name) as [[[g col] row]|] eqn:E; [|reflexivity].
  apply re_match_sound in E as (q & t & -> & _ & _ & Hrow & _).
  destruct (matches_marked_run _ _ _ Hrow) as (d & l & -> & _ & Hall & Hlo & _).
  rewrite !all_chars_app in Hname.
  rewrite (digit_run_has_digit l Hall Hlo) in Hname.
  rewrite !andb_false_r in Hname. discriminate Hname.
Qed.

Lemma col_row_groups_prefix (g : option string) (col row t : string) :
  matches col_group col -> matches row_group row -> head_not is_digit t ->
  col_row_groups g (col ++ row ++ t) = Some (g, col, row).
Proof.
  intros Hcol Hrow Ht. unfold col_row_groups, col_group.
  apply rmatch_marked_run; [exact Hcol|reflexivity|now apply row_word_head|].
  rewrite consumed_app. unfold row_group.
  apply rmatch_marked_run; [exact Hrow|reflexivity|exact Ht|].
  now rewrite consumed_app.
Qed.

(** [re.match] is anchored at the start only: what follows a word of the
    pattern, when it cannot lengthen the row and holds no "!", is left
    over. *)
Lemma re_match_prefix (q col row t : string) :
  matches (Opt sheet_group) q -> matches col_group col -> matches row_group row ->
  head_not is_digit t -> all_chars not_bang t = true ->
  re_match ((q ++ col ++ row) ++ t) = Some (group_of q, col, row).
Proof.
  intros Hq Hcol Hrow Ht Hbang. unfold re_match.
  rewrite !string_app_assoc.
  inversion Hq as [| | | | |r|r u Hu| |]; subst.
  - rewrite string_app_nil.
    destruct (rmatch sheet_group (col ++ row ++ t) _) as [g|] eqn:E.
    + apply rmatch_sound in E as (w & t' & Hsplit & Hw & _).
      pose proof (sheet_group_has_bang w t' Hw) as Hb.
      rewrite <- Hsplit, !all_chars_app in Hb.
      rewrite (marked_run_no_bang _ _ _ Hcol eq_refl) in Hb.
      rewrite (marked_run_no_bang _ _ _ Hrow eq_refl), Hbang in Hb. discriminate.
    + now apply col_row_groups_prefix.
  - rewrite (rmatch_sheet_group q (col ++ row ++ t) _ (Some q, col, row) Hu).
    + destruct q; [|reflexivity].
      apply matches_sheet_group in Hu as (a1 & body & a2 & E & _ & _ & _ & Hlo).
      destruct a1; [destruct body; [simpl in Hlo; lia|]|];
        rewrite ?string_app_nil, ?string_app_cons in E; discriminate.
    + rewrite consumed_app. now apply col_row_groups_prefix.
Qed.

Section BareTokens.

Variable float_repr : float64 -> string.
Variable libm_pow : float64 -> float64 -> float64.

(** X19.  A bare token without a digit is no reference: unless it is
    exactly TRUE or FALSE, in upper case, it evaluates to NAME. *)
Theorem token_without_digit_is_NAME (name : string) (wb : Workbook) :
  name <> "TRUE" -> name <> "FALSE" ->
  all_chars not_digit name = true ->
  atomic_string name wb = (Raise (ExpressionEvaluationException NAME), wb)
  /\ evaluate float_repr libm_pow (T_atomic_string name) wb = (ReturnsError NAME, wb).
Proof.
  intros Ht Hf Hname.
  assert (H : atomic_string name wb = (Raise (ExpressionEvaluationException NAME), wb)).
  { unfold atomic_string.
    destruct (String.eqb_spec name "TRUE") as [E|_]; [contradiction|].
    destruct (String.eqb_spec name "FALSE") as [E|_]; [contradiction|].
    now rewrite (reference_has_digit name Hname). }
  split; [exact H|]. unfold evaluate.
  change (transform float_repr libm_pow (T_atomic_string name) wb)
    with (atomic_string name wb).
  now rewrite H.
Qed.

(** X20.  The match of a reference is anchored at the start of the token
    only: text after the row that does not begin with a digit and holds
    no "!" is ignored, and the token evaluates as the reference before
    it. *)
Theorem text_after_reference_is_ignored (q col row t : string) (wb : Workbook) :
  matches (Opt sheet_group) q -> matches col_group col -> matches row_group row ->
  head_not is_digit t -> all_chars not_bang t = true ->
  atomic_string ((q ++ col ++ row) ++ t) wb = atomic_string (q ++ col ++ row) wb
  /\ evaluate float_repr libm_pow (T_atomic_string ((q ++ col ++ row) ++ t)) wb
     = evaluate float_repr libm_pow (T_atomic_string (q ++ col ++ row)) wb.
Proof.
  intros Hq Hcol Hrow Ht Hbang.
  pose proof (re_match_prefix q col row t Hq Hcol Hrow Ht Hbang) as Hlong.
  pose proof (re_match_whole q col row Hq Hcol Hrow) as Hshort.
  assert (Hne : forall name b, re_match name = Some b -> name <> "TRUE" /\ name <> "FALSE").
  { intros name b Hb. split; intros ->; vm_compute in Hb; discriminate Hb. }
  destruct (Hne _ _ Hlong) as [L1 L2]. destruct (Hne _ _ Hshort) as [S1 S2].
  assert (H : atomic_string ((q ++ col ++ row) ++ t) wb = atomic_string (q ++ col ++ row) wb).
  { rewrite (atomic_string_reference _ _ _ _ wb L1 L2 Hlong).
    now rewrite (atomic_string_reference _ _ _ _ wb S1 S2 Hshort). }
  split; [exact H|]. unfold evaluate.
  change (transform float_repr libm_pow (T_atomic_string ?n) wb) with (atomic_string n wb).
  now rewrite H.
Qed.

End BareTokens.

Lemma token_without_digit_is_NAME_witness :
  evaluate model_float_repr model_pow (T_atomic_string "true") example_workbook
  = (ReturnsError NAME, example_workbook).
Proof.
  apply (token_without_digit_is_NAME model_float_repr model_pow "true" example_workbook);
    [discriminate|discriminate|reflexivity].
Defined.

Lemma text_after_reference_is_ignored_witness :
  evaluate model_float_repr model_pow (T_atomic_string "A1.x") example_workbook
  = (Returns (VInt 7), example_workbook).
Proof.
  pose proof (proj2 (text_after_reference_is_ignored model_float_repr model_pow
                       EmptyString "A" "1" ".x" example_workbook
                       (M_opt_none _)
                       (fullmatch_matches col_group "A" eq_refl)
                       (fullmatch_matches row_group "1" eq_refl)
                       eq_refl eq_refl)) as H.
  etransitivity; [exact H|reflexivity].
Defined.

(** ** Sheet names in quotes *)

Lemma substring_skip (u p : string) :
  String.substring (String.length u) (String.length p) (u ++ p) = p.
Proof.
  induction u as [|c u IH].
  - rewrite string_app_nil. change (String.length EmptyString) with 0%nat.
    rewrite <- (Nat.sub_0_r (String.length p)). apply (consumed_all p).
  - rewrite string_app_cons. exact IH.
Qed.

Lemma endswith_app (u p : string) : endswith (u ++ p) p = true.
Proof.
  unfold endswith. rewrite string_length_app.
  replace (String.length u + String.length p - String.length p)%nat
    with (String.length u) by lia.
  rewrite substring_skip, String.eqb_refl. simpl.
  apply Nat.leb_le. lia.
Qed.

Lemma strip_ends_wrapped (c d : ascii) (s : string) :
  strip_ends (String c (s ++ String d EmptyString)) = s.
Proof.
  unfold strip_ends, drop_last.
  set (q := String d EmptyString).
  change (String.length (String c (s ++ q)) - 1)%nat
    with (String.length (s ++ q) - 0)%nat.
  change (String.substring 1 (String.length (s ++ q) - 0) (String c (s ++ q)))
    with (consumed (s ++ q) EmptyString).
  rewrite consumed_all.
  change (String.substring 0 (String.length (s ++ q) - 1) (s ++ q))
    with (consumed (s ++ q) q).
  apply consumed_app.
Qed.

Lemma drop_last_app (s : string) (c : ascii) :
  drop_last (s ++ String c EmptyString) = s.
Proof. apply (consumed_app s (String c EmptyString)). Qed.

Lemma sheet_word_head (w : string) :
  all_chars sheet_char w = true -> startswith w "'" = false.
Proof.
  destruct w as [|c w]; [reflexivity|]. simpl. intros H.
  apply andb_prop in H as [Hc _]. unfold startswith. simpl.
  destruct c as [[] [] [] [] [] [] [] []]; try reflexivity;
    vm_compute in Hc; discriminate Hc.
Qed.

(** The sheet group of a name in apostrophes, and of the bare name. *)
Lemma quoted_sheet_group (w : string) :
  all_chars sheet_char w = true -> w <> EmptyString ->
  matches sheet_group ("'" ++ w ++ "'!") /\ matches sheet_group (w ++ "!").
Proof.
  intros Hw Hne.
  assert (Hrun : matches (Rep (Class sheet_char) 1 None) w)
    by (apply matches_class_run; [exact Hw|now apply nonempty_length]).
  unfold sheet_group. split.
  - apply (M_seq _ _ "'" (w ++ "'!")); [apply M_opt_some; constructor|].
    apply M_seq; [exact Hrun|].
    apply (M_seq _ _ "'" "!"); [apply M_opt_some|]; constructor.
  - rewrite <- (string_app_nil (w ++ "!")).
    apply M_seq; [constructor|]. apply M_seq; [exact Hrun|].
    apply (M_seq _ _ EmptyString "!"); constructor.
Qed.

Lemma quoted_sheet_name (w : string) :
  all_chars sheet_char w = true -> w <> EmptyString ->
  sheet_name_of (group_of ("'" ++ w ++ "'!")) = Some w
  /\ sheet_name_of (group_of (w ++ "!")) = Some w.
Proof.
  intros Hw Hne. split.
  - change (group_of ("'" ++ w ++ "'!")) with (Some ("'" ++ w ++ "'!")%string).
    unfold sheet_name_of. cbn [option_map].
    replace ("'" ++ w ++ "'!")%string with (("'" ++ w ++ "'") ++ "!")%string
      by (now rewrite !string_app_assoc).
    rewrite drop_last_app.
    replace ("'" ++ w ++ "'")%string with (("'" ++ w) ++ "'")%string
      by (now rewrite !string_app_assoc).
    rewrite endswith_app.
    assert (Hs : startswith (("'" ++ w) ++ "'") "'" = true)
      by (destruct w; [contradiction|reflexivity]).
    rewrite Hs. cbn [andb]. f_equal.
    rewrite string_app_assoc. apply (strip_ends_wrapped "'" "'" w).
  - destruct w as [|c w']; [contradiction|].
    change (group_of (String c w' ++ "!")) with (Some (String c w' ++ "!")%string).
    unfold sheet_name_of. cbn [option_map].
    rewrite drop_last_app, (sheet_word_head _ Hw). reflexivity.
Qed.

Section SheetNames.

Variable float_repr : float64 -> string.
Variable libm_pow : float64 -> float64 -> float64.

(** X21.  A sheet name in apostrophes names the same sheet as the bare
    name: for a name of letters, digits, "_" and spaces, the references
    ['name'!A1] and [name!A1] evaluate alike, to the lookup of the cell in
    the sheet called [name]. *)
Theorem quoted_sheet_name_resolves_alike (w col row : string) (wb : Workbook) :
  all_chars sheet_char w = true -> w <> EmptyString ->
  matches col_group col -> matches row_group row ->
  atomic_string (("'" ++ w ++ "'!") ++ col ++ row) wb
  = atomic_string ((w ++ "!") ++ col ++ row) wb
  /\ atomic_string ((w ++ "!") ++ col ++ row) wb
     = (let '(r, wb') := cell_lookup (Some w, col, row) wb in
        (match r with Ok v => Ok (unwrap v) | Raise e => Raise e end, wb')).
Proof.
  intros Hw Hne Hcol Hrow.
  destruct (quoted_sheet_group w Hw Hne) as [Hq Hb].
  destruct (quoted_sheet_name w Hw Hne) as [Nq Nb].
  pose proof (re_match_whole _ col row (M_opt_some _ _ Hq) Hcol Hrow) as Rq.
  pose proof (re_match_whole _ col row (M_opt_some _ _ Hb) Hcol Hrow) as Rb.
  assert (Hname : forall name b, re_match name = Some b -> name <> "TRUE" /\ name <> "FALSE").
  { intros name b Hb'. split; intros ->; vm_compute in Hb'; discriminate Hb'. }
  destruct (Hname _ _ Rq) as [Q1 Q2]. destruct (Hname _ _ Rb) as [B1 B2].
  rewrite (atomic_string_reference _ _ _ _ wb Q1 Q2 Rq).
  rewrite (atomic_string_reference _ _ _ _ wb B1 B2 Rb).
  rewrite Nq, Nb. split; reflexivity.
Qed.

End SheetNames.

Lemma quoted_sheet_name_resolves_alike_witness :
  atomic_string "'Data'!A1" example_workbook = atomic_string "Data!A1" example_workbook
  /\ atomic_string "Data!A1" example_workbook = (Ok (VStr "x"), example_workbook).
Proof.
  destruct (quoted_sheet_name_resolves_alike "Data" "A" "1" example_workbook
              eq_refl ltac:(discriminate)
              (fullmatch_matches col_group "A" eq_refl)
              (fullmatch_matches row_group "1" eq_refl)) as [H1 H2].
  split; [exact H1|]. etransitivity; [exact H2|reflexivity].
Defined.

(** ** References to populated cells *)

Lemma cell_lookup_populated (wb : Workbook) (ref_sheet : option string) (col row : string)
    (sh : Sheet) (r c : Z) (v : pyval) :
  target_sheet wb ref_sheet = Some sh ->
  coordinate_from_spreadsheet (col ++ row) = Ok (r, c) ->
  0 <= r <= max_allowed_row sh -> 0 <= c <= max_allowed_column sh ->
  cells sh !! (r, c) = Some v ->
  cell_lookup (ref_sheet, col, row) wb = (Ok v, wb).
Proof.
  intros Hsh Hco Hr Hc Hv.
  pose proof (cell_lookup_read_only (ref_sheet, col, row) wb) as Hwb.
  unfold cell_lookup in *. rewrite (target_sheet_found wb ref_sheet sh Hsh) in *.
  rewrite Hco in *. unfold sheet_cell in *.
  replace (r <? 0) with false in * by lia.
  replace (max_allowed_row sh <? r) with false in * by lia.
  replace (c <? 0) with false in * by lia.
  replace (max_allowed_column sh <? c) with false in * by lia.
  cbn [orb] in *. rewrite Hv in *. simpl in *. now rewrite Hwb.
Qed.

Lemma cell_lookup_no_coordinate (wb : Workbook) (ref_sheet : option string) (col row : string)
    (sh : Sheet) :
  target_sheet wb ref_sheet = Some sh ->
  coordinate_from_spreadsheet (col ++ row) = Raise IndexError ->
  cell_lookup (ref_sheet, col, row) wb = (Ok (VInt 0), wb).
Proof.
  intros Hsh Hco. unfold cell_lookup.
  rewrite (target_sheet_found wb ref_sheet sh Hsh). now rewrite Hco.
Qed.

Section Populated.

Variable float_repr : float64 -> string.
Variable libm_pow : float64 -> float64 -> float64.

(** X22.  A reference to a populated cell of a sheet that exists
    evaluates to the value of the cell; when that value is an object
    (an expression descriptor), to the [value] of the object, taken once.
    A reference whose coordinate the host refuses (row 0) evaluates
    to 0. *)
Theorem reference_to_populated_cell (wb : Workbook) (name : string)
    (g : option string) (col row : string) (sh : Sheet) :
  name <> "TRUE" -> name <> "FALSE" ->
  re_match name = Some (g, col, row) ->
  target_sheet wb (sheet_name_of g) = Some sh ->
  (forall r c v,
      coordinate_from_spreadsheet (col ++ row) = Ok (r, c) ->
      0 <= r <= max_allowed_row sh -> 0 <= c <= max_allowed_column sh ->
      cells sh !! (r, c) = Some v ->
      evaluate float_repr libm_pow (T_atomic_string name) wb = (Returns (unwrap v), wb))
  /\ (coordinate_from_spreadsheet (col ++ row) = Raise IndexError ->
      evaluate float_repr libm_pow (T_atomic_string name) wb = (Returns (VInt 0), wb)).
Proof.
  intros Ht Hf Hm Hsh.
  assert (Hev : forall v,
             cell_lookup (sheet_name_of g, col, row) wb = (Ok v, wb) ->
             evaluate float_repr libm_pow (T_atomic_string name) wb
             = (Returns (unwrap v), wb)).
  { intros v Hv. unfold evaluate.
    change (transform float_repr libm_pow (T_atomic_string name) wb)
      with (atomic_string name wb).
    now rewrite (atomic_string_reference name g col row wb Ht Hf Hm), Hv. }
  split.
  - intros r c v Hco Hr Hc Hv. apply Hev.
    now apply (cell_lookup_populated wb _ col row sh r c v).
  - intros Hco. apply (Hev (VInt 0)).
    now apply (cell_lookup_no_coordinate wb _ col row sh).
Qed.

End Populated.

Lemma reference_to_populated_cell_witness :
  evaluate model_float_repr model_pow (T_atomic_string "$B$2") example_workbook
  = (Returns (VStr "=sum(A2:A10)"), example_workbook)
  /\ evaluate model_float_repr model_pow (T_atomic_string "Data!A0") example_workbook
     = (Returns (VInt 0), example_workbook).
Proof.
  split.
  - apply (proj1 (reference_to_populated_cell model_float_repr model_pow
                    example_workbook "$B$2" None "$B" "$2" example_sheet
                    ltac:(discriminate) ltac:(discriminate) eq_refl eq_refl)
             1 1 (VObj "gnumeric.expression.Expression" 2748 (VStr "=sum(A2:A10)")));
      [reflexivity|simpl; lia|simpl; lia|reflexivity].
  - apply (proj2 (reference_to_populated_cell model_float_repr model_pow
                    example_workbook "Data!A0" (Some "Data!") "A" "0" example_data_sheet
                    ltac:(discriminate) ltac:(discriminate) eq_refl eq_refl)).
    reflexivity.
Defined.

(** ** Comparison is a total order, NaN apart *)

Lemma spec_native_compare_total (a b : pyval) (c : category) :
  category_of a = Some c -> category_of b = Some c ->
  not_nan a -> not_nan b ->
  exists r, spec_native_compare a b = Some r.
Proof.
  unfold not_nan. intros Ha Hb Na Nb.
  destruct a as [m|f|s|x| |], b as [n|g|t|y| |]; simpl in *;
    try discriminate; try congruence; eauto.
  - destruct g; try (eexists; reflexivity). now destruct Nb.
  - destruct f; try (eexists; reflexivity). now destruct Na.
  - destruct f; try (now destruct Na); destruct g; try (now destruct Nb);
      eexists; reflexivity.
Qed.

(** X23.  Numbers, texts and booleans are totally ordered by the six
    operators, NaN apart: for two such operands there is one three-way
    result that all six operators read, so exactly one of [a < b],
    [a = b], [a > b] holds, [<=] is [<] or [=], and [>=] is [>] or [=].
    With a NaN against a number, every operator is false but [<>]. *)
Theorem comparison_is_total (a b : pyval) (ca cb : category) :
  category_of a = Some ca -> category_of b = Some cb ->
  (not_nan a -> not_nan b ->
   exists c : comparison,
     logical a "<" b = Ok (VBool (is_lt c))
     /\ logical a "=" b = Ok (VBool (is_eq c))
     /\ logical a ">" b = Ok (VBool (is_gt c))
     /\ logical a "<=" b = Ok (VBool (is_le c))
     /\ logical a ">=" b = Ok (VBool (is_ge c))
     /\ logical a "<>" b = Ok (VBool (negb (is_eq c))))
  /\ ((~ not_nan a \/ ~ not_nan b) -> ca = Numeric -> cb = Numeric ->
      logical a "<" b = Ok (VBool false)
      /\ logical a "=" b = Ok (VBool false)
      /\ logical a ">" b = Ok (VBool false)
      /\ logical a "<=" b = Ok (VBool false)
      /\ logical a ">=" b = Ok (VBool false)
      /\ logical a "<>" b = Ok (VBool true)).
Proof.
  intros Ha Hb. split.
  - intros Na Nb.
    assert (Hc : exists c, forall op,
               spec_logical a op b = spec_apply_op op (Some c)).
    { unfold spec_logical. rewrite Ha, Hb.
      destruct (category_eqb ca cb) eqn:E.
      - assert (ca = cb) as -> by (destruct ca, cb; try discriminate; reflexivity).
        destruct (spec_native_compare_total a b cb Ha Hb Na Nb) as [r Hr].
        exists r. intros op. now rewrite Hr.
      - exists (ordinal ca ?= ordinal cb). reflexivity. }
    destruct Hc as [c Hc]. exists c.
    repeat split; apply logical_refines_spec; rewrite Hc; now destruct c.
  - intros Hnan -> ->.
    assert (Hc : forall op, spec_logical a op b = spec_apply_op op None).
    { intros op. unfold spec_logical. rewrite Ha, Hb. simpl. f_equal.
      unfold not_nan in Hnan.
      destruct a as [m|f|s|x| |], b as [n|g|t|y| |]; try discriminate.
      - exfalso. destruct Hnan as [H|H]; apply H; discriminate.
      - destruct g; try reflexivity;
          exfalso; destruct Hnan as [H|H]; apply H; discriminate.
      - destruct f; try reflexivity;
          exfalso; destruct Hnan as [H|H]; apply H; discriminate.
      - destruct f; try reflexivity; destruct g; try reflexivity;
          exfalso; destruct Hnan as [H|H]; apply H; discriminate. }
    repeat split; apply logical_refines_spec; now rewrite Hc.
Qed.

Lemma comparison_is_total_witness :
  (exists c : comparison,
     logical (VInt 3) "<" (VFloat float_one) = Ok (VBool (is_lt c))
     /\ logical (VInt 3) ">" (VFloat float_one) = Ok (VBool (is_gt c)))
  /\ logical (VFloat S754_nan) "=" (VFloat S754_nan) = Ok (VBool false).
Proof.
  split.
  - destruct (proj1 (comparison_is_total (VInt 3) (VFloat float_one) Numeric Numeric
                       eq_refl eq_refl))
      as (c & H1 & _ & H3 & _); [discriminate|discriminate|].
    exists c. now split.
  - apply (proj2 (comparison_is_total (VFloat S754_nan) (VFloat S754_nan) Numeric Numeric
                    eq_refl eq_refl)); [|reflexivity|reflexivity].
    left. intros H. now apply H.
Defined.

(** ** Formulas over plain values raise no stray exception *)

Lemma rbind_expected {A B} (r : result A) (k : A -> result B) :
  raises_expected r -> (forall a, raises_expected (k a)) -> raises_expected (rbind r k).
Proof. intros Hr Hk. destruct r as [a|e]; simpl; [apply Hk|exact Hr]. Qed.

Lemma to_float_expected (x : num) : raises_expected (to_float x).
Proof.
  destruct x as [n|f]; [|exact I]. unfold to_float, float_of_Z.
  destruct (is_infinity _); [reflexivity|exact I].
Qed.

Ltac expected_steps :=
  repeat first
    [ apply to_float_expected
    | apply rbind_expected; [|intros ?]
    | match goal with
      | |- raises_expected (if ?c then _ else _) => destruct c
      | |- raises_expected (let '(_, _) := ?p in _) => destruct p
      | |- raises_expected (match ?x with _ => _ end) => destruct x
      end
    | exact I
    | reflexivity ].

Lemma plain_category (v : pyval) : plain v = true -> exists c, category_of v = Some c.
Proof. unfold plain. destruct (category_of v) as [c|]; [eauto|discriminate]. Qed.

Lemma in_ops (op : string) (ops : list string) :
  existsb (String.eqb op) ops = true -> In op ops.
Proof.
  intros H. apply existsb_exists in H as (x & Hx & E).
  apply String.eqb_eq in E. now subst.
Qed.

Lemma coordinate_raises (s : string) (e : exn) :
  coordinate_from_spreadsheet s = Raise e -> e = IndexError \/ e = ValueError.
Proof.
  unfold coordinate_from_spreadsheet.
  destruct (span_letters _) as [l d]. destruct l as [|c l].
  - intros [= <-]. now left.
  - destruct (digits_to_Z d) as [row|]; [|intros [= <-]; now right].
    destruct (row <? 1); [intros [= <-]; now left|discriminate].
Qed.

Lemma cell_lookup_sound (ref : option string * string * string) (wb : Workbook) :
  plain_host wb ->
  match fst (cell_lookup ref wb) with
  | Ok v => plain (unwrap v) = true
  | Raise e => expected e = true
  end.
Proof.
  intros [Hhome Hothers]. destruct ref as [[ref_sheet col] row]. unfold cell_lookup.
  assert (Hfound : match (match ref_sheet with
                          | None => Ok (home wb)
                          | Some name => get_sheet_by_name wb name
                          end) with
                   | Ok sh => plain_sheet sh
                   | Raise e => e = KeyError
                   end).
  { destruct ref_sheet as [n|]; [|exact Hhome]. unfold get_sheet_by_name.
    destruct (String.eqb n (home_title wb)); [exact Hhome|].
    destruct (others wb !! n) as [sh|] eqn:E; [|reflexivity].
    exact (Hothers n sh E). }
  destruct (match ref_sheet with None => _ | Some name => _ end) as [sh|e];
    [|subst e; reflexivity].
  destruct (coordinate_from_spreadsheet (col ++ row)) as [[r c]|e] eqn:Eco.
  - unfold sheet_cell. destruct (_ || _); [reflexivity|].
    destruct (cells sh !! (r, c)) as [v|] eqn:Ev; [|reflexivity].
    exact (Hfound (r, c) v Ev).
  - destruct (coordinate_raises _ _ Eco) as [-> | ->]; reflexivity.
Qed.

Lemma atomic_string_sound (name : string) (wb : Workbook) :
  plain_host wb -> sound_result (fst (atomic_string name wb)).
Proof.
  intros Hwb. unfold atomic_string.
  destruct (String.eqb name "TRUE"); [reflexivity|].
  destruct (String.eqb name "FALSE"); [reflexivity|].
  destruct (re_match name) as [[[sheet col] row]|]; [|reflexivity].
  unfold mbind, mret.
  match goal with
  | |- context [cell_lookup ?ref wb] =>
      pose proof (cell_lookup_sound ref wb Hwb) as H;
      destruct (cell_lookup ref wb) as [[v|e] wb']
  end; exact H.
Qed.

Lemma logical_sound (a b : pyval) (op : string) :
  plain a = true -> plain b = true -> In op logical_ops ->
  sound_result (logical a op b).
Proof.
  intros Ha Hb Hop.
  destruct (plain_category a Ha) as [ca Hca].
  destruct (plain_category b Hb) as [cb Hcb].
  assert (Hr : exists r, spec_logical a op b = Some r).
  { unfold spec_logical. rewrite Hca, Hcb.
    destruct (category_eqb ca cb); now apply spec_apply_op_total. }
  destruct Hr as [r Hr]. now rewrite (logical_refines_spec a b op r Hr).
Qed.

Section Soundness.

Variable float_repr : float64 -> string.
Variable libm_pow : float64 -> float64 -> float64.

Lemma numeric_operations_expected (x y : num) :
  raises_expected (py_add x y) /\ raises_expected (py_sub x y)
  /\ raises_expected (py_mul x y) /\ raises_expected (py_truediv x y)
  /\ raises_expected (math_pow libm_pow x y).
Proof.
  unfold py_add, py_sub, py_mul, py_truediv, int_true_divide, math_pow.
  repeat split; expected_steps.
Qed.

Lemma arithmetic_sound (a b : pyval) (op : string) :
  In op arithmetic_ops -> sound_result (arithmetic libm_pow a op b).
Proof.
  intros Hop.
  assert (Hraise : raises_expected (arithmetic libm_pow a op b)).
  { unfold arithmetic. destruct (_ || _) eqn:Hinst; [reflexivity|].
    apply orb_false_elim in Hinst as [Ia Ib].
    destruct (as_num a) as [x|] eqn:Ea; [|destruct a; discriminate].
    destruct (as_num b) as [y|] eqn:Eb; [|destruct b; discriminate].
    destruct (numeric_operations_expected x y) as (Hadd & Hsub & Hmul & Hdiv & Hpow).
    destruct (String.eqb op "+"); [exact Hadd|].
    destruct (String.eqb op "-"); [exact Hsub|].
    destruct (String.eqb op "*"); [exact Hmul|].
    destruct (String.eqb op "/"); [exact Hdiv|].
    destruct (String.eqb op "^"); [|exact I].
    destruct (math_pow libm_pow x y) as [v|[]]; try exact Hpow; reflexivity. }
  destruct (arithmetic libm_pow a op b) as [v|e] eqn:E; [|exact Hraise].
  destruct (arithmetic_result_kind libm_pow a b v op Hop E) as [Hn _].
  destruct v; try contradiction; reflexivity.
Qed.

Lemma function_sound (name : string) (vs : list pyval) :
  Forall (fun v => plain v = true) vs ->
  String.eqb (lower name) "len" = true -> List.length vs = 1%nat ->
  sound_result (function float_repr name vs).
Proof.
  intros _ Hname Hlen. unfold function. rewrite function_map_lookup, Hname.
  destruct (String.eqb (lower name) "abs") eqn:Habs.
  - apply String.eqb_eq in Habs. apply String.eqb_eq in Hname. congruence.
  - destruct vs as [|v [|w vs]]; try discriminate. reflexivity.
Qed.

Lemma function_other_sound (name : string) (vs : list pyval) :
  Forall (fun v => plain v = true) vs ->
  String.eqb (lower name) "len" = false ->
  sound_result (function float_repr name vs).
Proof.
  intros Hvs Hname. unfold function. rewrite function_map_lookup, Hname.
  destruct (String.eqb (lower name) "abs"); [|reflexivity].
  unfold py_abs. destruct vs as [|v [|w vs]].
  - reflexivity.
  - apply Forall_inv in Hvs. destruct v; try discriminate; reflexivity.
  - rewrite ?string_app_cons, ?string_app_nil. reflexivity.
Qed.

Lemma mapM_sound (ts : list tree) :
  Forall (fun t => regular_tree t = true ->
                   forall wb, plain_host wb ->
                              sound_result (fst (transform float_repr libm_pow t wb))) ts ->
  forallb regular_tree ts = true ->
  forall wb, plain_host wb ->
    match fst (mapM (transform float_repr libm_pow) ts wb) with
    | Ok vs => Forall (fun v => plain v = true) vs /\ List.length vs = List.length ts
    | Raise e => expected e = true
    end.
Proof.
  induction 1 as [|t ts Ht _ IH]; intros Hreg wb Hwb.
  - simpl. split; [constructor|reflexivity].
  - simpl in Hreg. apply andb_prop in Hreg as [Hrt Hrts].
    change (mapM (transform float_repr libm_pow) (t :: ts) wb)
      with (mbind (transform float_repr libm_pow t)
              (fun v => mbind (mapM (transform float_repr libm_pow) ts)
                          (fun vs => mret (v :: vs))) wb).
    unfold mbind, mret.
    pose proof (Ht Hrt wb Hwb) as St.
    pose proof (transform_read_only float_repr libm_pow t wb) as Rt.
    destruct (transform float_repr libm_pow t wb) as [[v|e] wb1]; simpl in *; [|exact St].
    subst wb1. pose proof (IH Hrts wb Hwb) as Sts.
    destruct (mapM (transform float_repr libm_pow) ts wb) as [[vs|e] wb2]; simpl in *;
      [|exact Sts].
    destruct Sts as [Hvs Hlen]. split; [now constructor|now rewrite Hlen].
Qed.

Lemma transform_sound (t : tree) :
  regular_tree t = true ->
  forall wb, plain_host wb -> sound_result (fst (transform float_repr libm_pow t wb)).
Proof.
  assert (Hbin : forall (a b : tree) (f : pyval -> pyval -> result pyval),
    (forall wb, plain_host wb -> sound_result (fst (transform float_repr libm_pow a wb))) ->
    (forall wb, plain_host wb -> sound_result (fst (transform float_repr libm_pow b wb))) ->
    (forall x y, plain x = true -> plain y = true -> sound_result (f x y)) ->
    forall wb, plain_host wb ->
      sound_result
        (fst (mbind (transform float_repr libm_pow a)
                (fun x => mbind (transform float_repr libm_pow b)
                            (fun y => mlift (f x y))) wb))).
  { intros a b f Ha Hb Hf wb Hwb. unfold mbind, mlift.
    pose proof (Ha wb Hwb) as Sa.
    pose proof (transform_read_only float_repr libm_pow a wb) as Ra.
    destruct (transform float_repr libm_pow a wb) as [[x|e] wb1]; simpl in *; [|exact Sa].
    subst wb1. pose proof (Hb wb Hwb) as Sb.
    destruct (transform float_repr libm_pow b wb) as [[y|e] wb2]; simpl in *; [|exact Sb].
    now apply Hf. }
  induction t as [val|a|name args IH| |name|a op b IHa IHb|a b IHa IHb|a op b IHa IHb]
    using tree_ind; intros Hreg wb Hwb.
  - simpl in *. unfold mlift. simpl.
    destruct (number_token_read val Hreg) as (v & -> & Hv).
    destruct v; try contradiction; reflexivity.
  - reflexivity.
  - simpl in Hreg. apply andb_prop in Hreg as [Hlen Hargs].
    change (transform float_repr libm_pow (T_function name args) wb)
      with (mbind (mapM (transform float_repr libm_pow) args)
              (fun vs => mlift (function float_repr name vs)) wb).
    unfold mbind, mlift.
    pose proof (mapM_sound args IH Hargs wb Hwb) as Svs.
    destruct (mapM (transform float_repr libm_pow) args wb) as [[vs|e] wb1]; simpl in *;
      [|exact Svs].
    destruct Svs as [Hvs Hl].
    destruct (String.eqb (lower name) "len") eqn:Hname; simpl in Hlen.
    + apply function_sound; auto. apply Nat.eqb_eq in Hlen. congruence.
    + now apply function_other_sound.
  - reflexivity.
  - apply atomic_string_sound. exact Hwb.
  - simpl in Hreg. apply andb_prop in Hreg as [Hreg Hb].
    apply andb_prop in Hreg as [Hop Ha].
    apply (Hbin a b (fun x y => logical x op y)); auto.
    intros x y Hx Hy. apply logical_sound; auto. now apply in_ops.
  - simpl in Hreg. apply andb_prop in Hreg as [Ha Hb].
    apply (Hbin a b (concat float_repr)); auto.
    intros x y _ _. reflexivity.
  - simpl in Hreg. apply andb_prop in Hreg as [Hreg Hb].
    apply andb_prop in Hreg as [Hop Ha].
    apply (Hbin a b (fun x y => arithmetic libm_pow x op y)); auto.
    intros x y _ _. apply arithmetic_sound. now apply in_ops.
Qed.

(** X24.  Formulas over plain values end well.  In a host whose cells
    hold numbers, texts and booleans (as they are or as the value of an
    object), a formula with NUMBER tokens, the operators of the grammar
    and LEN called with one argument returns a number, a text or a
    boolean, or returns an error member, or raises [OverflowError] or
    [ValueError]; it raises no [TypeError], [KeyError] or [IndexError]. *)
Theorem plain_formula_ends_well (t : tree) (wb : Workbook) :
  plain_host wb -> regular_tree t = true ->
  match fst (evaluate float_repr libm_pow t wb) with
  | Returns v => plain v = true
  | ReturnsError _ => True
  | Raises e => e = OverflowError \/ e = ValueError
  end.
Proof.
  intros Hwb Hreg. pose proof (transform_sound t Hreg wb Hwb) as H.
  unfold evaluate.
  destruct (transform float_repr libm_pow t wb) as [[v|e] wb']; simpl in *; [exact H|].
  destruct e; simpl in *; try exact I; try discriminate; auto.
Qed.

End Soundness.

Lemma example_workbook_plain : plain_host example_workbook.
Proof.
  split.
  - intros k v. unfold example_workbook, example_sheet. simpl.
    intros H. apply lookup_insert_Some in H as [[_ <-]|[_ H]]; [reflexivity|].
    apply lookup_insert_Some in H as [[_ <-]|[_ H]]; [reflexivity|].
    now rewrite lookup_empty in H.
  - intros n sh. unfold example_workbook. simpl.
    intros H. apply lookup_insert_Some in H as [[_ <-]|[_ H]];
      [|now rewrite lookup_empty in H].
    intros k v. unfold example_data_sheet. simpl.
    intros H. apply lookup_insert_Some in H as [[_ <-]|[_ H]]; [reflexivity|].
    now rewrite lookup_empty in H.
Qed.

Lemma plain_formula_ends_well_witness :
  match fst (evaluate model_float_repr model_pow
               (T_logical (T_arithmetic (T_atomic_string "A1") "*" (T_number "2.5")) "<"
                          (T_function "len" [T_atomic_string "Data!A1"]))
               example_workbook) with
  | Returns v => plain v = true
  | ReturnsError _ => True
  | Raises e => e = OverflowError \/ e = ValueError
  end.
Proof.
  apply (plain_formula_ends_well model_float_repr model_pow);
    [exact example_workbook_plain|reflexivity].
Defined.

(** ** Where an error member comes from *)

Lemma rbind_members (ks : list EvaluationError) {A B} (r : result A) (k : A -> result B) :
  members_among ks r -> (forall a, members_among ks (k a)) -> members_among ks (rbind r k).
Proof. intros Hr Hk. destruct r as [a|e]; simpl; [apply Hk|exact Hr]. Qed.

Lemma to_float_members (ks : list EvaluationError) (x : num) :
  members_among ks (to_float x).
Proof.
  destruct x as [n|f]; [|exact I]. unfold to_float, float_of_Z.
  destruct (is_infinity _); exact I.
Qed.

Ltac members_steps :=
  repeat first
    [ apply to_float_members
    | apply rbind_members; [|intros ?]
    | match goal with
      | |- members_among _ (if ?c then _ else _) => destruct c
      | |- members_among _ (let '(_, _) := ?p in _) => destruct p
      | |- members_among _ (match ?x with _ => _ end) => destruct x
      end
    | exact I
    | (simpl; tauto) ].

Lemma members_raise (ks : list EvaluationError) {A} (r : result A)
    (e : exn) (k : EvaluationError) :
  members_among ks r -> r = Raise e -> member_of e = Some k -> In k ks.
Proof. intros H -> Hk. simpl in H. now rewrite Hk in H. Qed.

Lemma logical_members (a b : pyval) (op : string) : members_among [] (logical a op b).
Proof.
  assert (Hmap : forall t, members_among [] (type_val_mapper t))
    by (intros t; destruct t; exact I).
  assert (Hord : forall sym test x y, members_among [] (py_order sym test x y)).
  { intros sym test x y. unfold py_order.
    destruct (as_num x); [destruct (as_num y)|]; try exact I;
      destruct x; try exact I; destruct y; exact I. }
  unfold logical. apply rbind_members.
  - destruct (negb _); [|exact I].
    repeat (apply rbind_members; [apply Hmap|intros ?]). exact I.
  - intros [x y].
    repeat match goal with
           | |- members_among _ (if ?c then _ else _) => destruct c
           end;
      try exact I;
      (apply rbind_members; [apply Hord|intros ?; exact I]).
Qed.

Lemma cell_lookup_raises (ref : option string * string * string) (wb : Workbook) (e : exn) :
  fst (cell_lookup ref wb) = Raise e ->
  e = ExpressionEvaluationException REF \/ e = ValueError.
Proof.
  destruct ref as [[ref_sheet col] row]. unfold cell_lookup.
  assert (Hfound : forall x, (match ref_sheet with
                              | None => Ok (home wb)
                              | Some name => get_sheet_by_name wb name
                              end) = Raise x -> x = KeyError).
  { destruct ref_sheet as [n|]; [|discriminate]. unfold get_sheet_by_name.
    destruct (String.eqb n (home_title wb)); [discriminate|].
    destruct (others wb !! n); [discriminate|]. now intros x [= <-]. }
  destruct (match ref_sheet with None => _ | Some name => _ end) as [sh|x].
  - destruct (coordinate_from_spreadsheet (col ++ row)) as [[r c]|x] eqn:Eco.
    + unfold sheet_cell. destruct (_ || _); [discriminate|].
      destruct (cells sh !! (r, c)); discriminate.
    + destruct (coordinate_raises _ _ Eco) as [-> | ->]; [discriminate|].
      intros [= <-]. now right.
  - rewrite (Hfound x eq_refl). intros [= <-]. now left.
Qed.

Lemma atomic_string_members (name : string) (wb : Workbook) :
  members_among [NAME; REF] (fst (atomic_string name wb)).
Proof.
  unfold atomic_string.
  destruct (String.eqb name "TRUE"); [exact I|].
  destruct (String.eqb name "FALSE"); [exact I|].
  destruct (re_match name) as [[[sheet col] row]|]; [|simpl; tauto].
  unfold mbind, mret.
  match goal with
  | |- context [cell_lookup ?ref wb] =>
      pose proof (cell_lookup_raises ref wb) as H;
      destruct (cell_lookup ref wb) as [[v|e] wb']
  end; [exact I|].
  destruct (H e eq_refl) as [-> | ->]; simpl; tauto.
Qed.

Section Provenance.

Variable float_repr : float64 -> string.
Variable libm_pow : float64 -> float64 -> float64.

Lemma numeric_operations_members (x y : num) :
  members_among [] (py_add x y) /\ members_among [] (py_sub x y)
  /\ members_among [] (py_mul x y) /\ members_among [DIV0] (py_truediv x y)
  /\ members_among [] (math_pow libm_pow x y).
Proof.
  unfold py_add, py_sub, py_mul, py_truediv, int_true_divide, math_pow.
  repeat split; members_steps.
Qed.

Lemma arithmetic_source (ta tb : tree) (a b : pyval) (op : string)
    (e : exn) (k : EvaluationError) :
  arithmetic libm_pow a op b = Raise e -> member_of e = Some k ->
  source_of k (T_arithmetic ta op tb) = true.
Proof.
  unfold arithmetic. destruct (_ || _); [intros [= <-] [= <-]; reflexivity|].
  destruct (as_num a) as [x|]; [|intros [= <-]; discriminate].
  destruct (as_num b) as [y|]; [|intros [= <-]; discriminate].
  destruct (numeric_operations_members x y) as (Hadd & Hsub & Hmul & Hdiv & Hpow).
  destruct (String.eqb op "+");
    [intros E K; destruct (members_raise _ _ _ _ Hadd E K)|].
  destruct (String.eqb op "-");
    [intros E K; destruct (members_raise _ _ _ _ Hsub E K)|].
  destruct (String.eqb op "*");
    [intros E K; destruct (members_raise _ _ _ _ Hmul E K)|].
  destruct (String.eqb op "/") eqn:Ediv.
  { intros E K. destruct (members_raise _ _ _ _ Hdiv E K) as [<-|[]].
    simpl. exact Ediv. }
  destruct (String.eqb op "^") eqn:Epow; [|discriminate].
  destruct (math_pow libm_pow x y) as [v|x0] eqn:Em; [discriminate|].
  destruct x0; try (intros E K; destruct (members_raise _ _ _ _ Hpow E K)).
  intros [= <-] [= <-]. simpl. exact Epow.
Qed.

Lemma registry_raises (key : string) (f : list pyval -> result pyval)
    (args : list pyval) (e : exn) :
  function_map float_repr !! key = Some f -> f args = Raise e ->
  exists msg, e = TypeError msg.
Proof.
  intros Hf. destruct (function_map_entries _ _ _ Hf) as [-> | ->].
  - unfold py_abs. destruct args as [|v [|w args]]; try destruct v;
      try discriminate; intros [= <-]; eauto.
  - unfold lambda_len. destruct args as [|v [|w args]];
      try discriminate; intros [= <-]; eauto.
Qed.

Lemma function_members (name : string) (args : list pyval) :
  members_among [NAME; VALUE; NA] (function float_repr name args).
Proof.
  unfold function.
  destruct (function_map float_repr !! lower name) as [f|] eqn:Hf; [|simpl; tauto].
  destruct (f args) as [v|e] eqn:E; [exact I|].
  destruct (registry_raises _ f args e Hf E) as [msg ->].
  destruct (startswith _ _); [simpl; tauto|].
  destruct (contains _ _); [simpl; tauto|exact I].
Qed.

Lemma mapM_source (k : EvaluationError) (ts : list tree) :
  Forall (fun t => forall wb e,
              fst (transform float_repr libm_pow t wb) = Raise e ->
              member_of e = Some k -> somewhere (source_of k) t = true) ts ->
  forall wb e,
    fst (mapM (transform float_repr libm_pow) ts wb) = Raise e ->
    member_of e = Some k -> existsb (somewhere (source_of k)) ts = true.
Proof.
  induction 1 as [|t ts Ht _ IH]; intros wb e; [discriminate|].
  change (mapM (transform float_repr libm_pow) (t :: ts) wb)
    with (mbind (transform float_repr libm_pow t)
            (fun v => mbind (mapM (transform float_repr libm_pow) ts)
                        (fun vs => mret (v :: vs))) wb).
  unfold mbind, mret. simpl existsb.
  pose proof (Ht wb) as St.
  destruct (transform float_repr libm_pow t wb) as [[v|x] wb1]; simpl in *.
  - pose proof (IH wb1) as Sts.
    destruct (mapM (transform float_repr libm_pow) ts wb1) as [[vs|x] wb2]; simpl in *;
      [discriminate|].
    intros [= <-] K. rewrite (Sts x eq_refl K). apply orb_true_r.
  - intros [= <-] K. now rewrite (St x eq_refl K).
Qed.

Lemma transform_source (k : EvaluationError) (t : tree) :
  forall wb e,
    fst (transform float_repr libm_pow t wb) = Raise e ->
    member_of e = Some k -> somewhere (source_of k) t = true.
Proof.
  assert (Hbin : forall (a b node : tree) (f : pyval -> pyval -> result pyval),
    (forall wb e, fst (transform float_repr libm_pow a wb) = Raise e ->
                  member_of e = Some k -> somewhere (source_of k) a = true) ->
    (forall wb e, fst (transform float_repr libm_pow b wb) = Raise e ->
                  member_of e = Some k -> somewhere (source_of k) b = true) ->
    (forall x y e, f x y = Raise e -> member_of e = Some k -> source_of k node = true) ->
    forall wb e,
      fst (mbind (transform float_repr libm_pow a)
             (fun x => mbind (transform float_repr libm_pow b)
                         (fun y => mlift (f x y))) wb) = Raise e ->
      member_of e = Some k ->
      source_of k node || (somewhere (source_of k) a || somewhere (source_of k) b) = true).
  { intros a b node f Ha Hb Hf wb e. unfold mbind, mlift.
    pose proof (Ha wb) as Sa.
    destruct (transform float_repr libm_pow a wb) as [[x|x] wb1]; simpl in *.
    - pose proof (Hb wb1) as Sb.
      destruct (transform float_repr libm_pow b wb1) as [[y|y] wb2]; simpl in *.
      + intros E K. now rewrite (Hf x y e E K).
      + intros [= <-] K. rewrite (Sb y eq_refl K). now rewrite !orb_true_r.
    - intros [= <-] K. rewrite (Sa x eq_refl K). now rewrite orb_true_r. }
  induction t as [val|a|name args IH| |name|a op b IHa IHb|a b IHa IHb|a op b IHa IHb]
    using tree_ind; intros wb e.
  - simpl. unfold mlift, number. simpl.
    destruct (py_int val); [discriminate|]. destruct (py_float val); [discriminate|].
    intros [= <-]; discriminate.
  - discriminate.
  - change (transform float_repr libm_pow (T_function name args) wb)
      with (mbind (mapM (transform float_repr libm_pow) args)
              (fun vs => mlift (function float_repr name vs)) wb).
    unfold mbind, mlift.
    pose proof (mapM_source k args IH wb) as Svs.
    destruct (mapM (transform float_repr libm_pow) args wb) as [[vs|x] wb1]; simpl in *.
    + intros E K. pose proof (members_raise _ _ _ _ (function_members name vs) E K) as Hk.
      simpl in Hk. destruct Hk as [<-|[<-|[<-|[]]]]; reflexivity.
    + intros [= <-] K. rewrite (Svs x eq_refl K). apply orb_true_r.
  - simpl. intros [= <-] [= <-]. reflexivity.
  - simpl somewhere. intros E K.
    pose proof (members_raise _ _ _ _ (atomic_string_members name wb) E K) as Hk.
    simpl in Hk. destruct Hk as [<-|[<-|[]]]; reflexivity.
  - apply (Hbin a b (T_logical a op b) (fun x y => logical x op y)); auto.
    intros x y e' E K. destruct (members_raise _ _ _ _ (logical_members x y op) E K).
  - apply (Hbin a b (T_concat a b) (concat float_repr)); auto.
    intros x y e'. discriminate.
  - apply (Hbin a b (T_arithmetic a op b) (fun x y => arithmetic libm_pow x op y)); auto.
    intros x y e'. apply arithmetic_source.
Qed.

(** X25.  Every error member has a source in the formula.  When
    [evaluate] returns DIV0 the formula holds a division, for NUM a
    power, for REF a bare token or the literal "#REF!", for NA a function
    call, for NAME a function call or a bare token, for VALUE an
    arithmetic node or a function call; NULL is never returned. *)
Theorem error_member_has_source (t : tree) (wb : Workbook) (k : EvaluationError) :
  fst (evaluate float_repr libm_pow t wb) = ReturnsError k ->
  somewhere (source_of k) t = true.
Proof.
  unfold evaluate. pose proof (transform_source k t wb) as H.
  destruct (transform float_repr libm_pow t wb) as [[v|e] wb']; simpl in *; [discriminate|].
  destruct e; simpl; try discriminate; intros [= <-]; now apply (H _ eq_refl).
Qed.

End Provenance.

Lemma error_member_has_source_witness :
  somewhere (source_of DIV0)
    (T_concat (T_string (quoted "x")) (T_arithmetic (T_number "1") "/" (T_number "0")))
  = true.
Proof.
  apply (error_member_has_source model_float_repr model_pow _ example_workbook DIV0).
  reflexivity.
Defined.

(** ** Addition and multiplication commute *)

Lemma SFadd_comm (f g : float64) : SFadd prec emax f g = SFadd prec emax g f.
Proof.
  destruct f as [s|s| |s m e], g as [s'|s'| |s' m' e']; simpl; try reflexivity;
    try (destruct s, s'; reflexivity).
  now rewrite Z.min_comm, Z.add_comm.
Qed.

Lemma SFmul_comm (f g : float64) : SFmul prec emax f g = SFmul prec emax g f.
Proof.
  destruct f as [s|s| |s m e], g as [s'|s'| |s' m' e']; simpl; try reflexivity;
    rewrite (xorb_comm s s'); try reflexivity.
  now rewrite Pos.mul_comm, Z.add_comm.
Qed.

Lemma float_operation_comm (h : float64 -> float64 -> float64) (x y : num) :
  (forall f g, h f g = h g f) ->
  (do f <- to_float x; do g <- to_float y; Ok (VFloat (h f g)))
  = (do g <- to_float y; do f <- to_float x; Ok (VFloat (h g f))).
Proof.
  intros Hh.
  assert (Hraise : forall z e, to_float z = Raise e -> e = OverflowError).
  { intros [n|f] e; [|discriminate]. unfold to_float, float_of_Z.
    destruct (is_infinity _); [now intros [= <-]|discriminate]. }
  destruct (to_float x) as [f|e] eqn:Ex, (to_float y) as [g|e'] eqn:Ey; simpl;
    try reflexivity.
  - now rewrite Hh.
  - now rewrite (Hraise x e Ex), (Hraise y e' Ey).
Qed.

Section Commutation.

Variable float_repr : float64 -> string.
Variable libm_pow : float64 -> float64 -> float64.

Lemma arithmetic_commutes (a b : pyval) :
  arithmetic libm_pow a "+" b = arithmetic libm_pow b "+" a
  /\ arithmetic libm_pow a "*" b = arithmetic libm_pow b "*" a.
Proof.
  unfold arithmetic.
  destruct (isinstance_int_float a) eqn:Ia, (isinstance_int_float b) eqn:Ib; simpl;
    try (split; reflexivity).
  destruct (as_num a) as [x|] eqn:Ea; [|destruct a; discriminate].
  destruct (as_num b) as [y|] eqn:Eb; [|destruct b; discriminate].
  unfold py_add, py_mul. split.
  - destruct x as [m|f], y as [n|g]; try (now rewrite Z.add_comm);
      apply (float_operation_comm (SFadd prec emax)); apply SFadd_comm.
  - destruct x as [m|f], y as [n|g]; try (now rewrite Z.mul_comm);
      apply (float_operation_comm (SFmul prec emax)); apply SFmul_comm.
Qed.

(** X26.  Addition and multiplication commute: [a + b] and [b + a], and
    [a * b] and [b * a], have the same outcome for all operand values,
    also the same exception; and two operand formulas that both have a
    value can be swapped. *)
Theorem addition_and_multiplication_commute (ta tb : tree) (wb wb1 wb2 : Workbook)
    (a b : pyval) :
  (arithmetic libm_pow a "+" b = arithmetic libm_pow b "+" a
   /\ arithmetic libm_pow a "*" b = arithmetic libm_pow b "*" a)
  /\ (transform float_repr libm_pow ta wb = (Ok a, wb1) ->
      transform float_repr libm_pow tb wb = (Ok b, wb2) ->
      evaluate float_repr libm_pow (T_arithmetic ta "+" tb) wb
      = evaluate float_repr libm_pow (T_arithmetic tb "+" ta) wb
      /\ evaluate float_repr libm_pow (T_arithmetic ta "*" tb) wb
         = evaluate float_repr libm_pow (T_arithmetic tb "*" ta) wb).
Proof.
  destruct (arithmetic_commutes a b) as [Hadd Hmul].
  split; [now split|]. intros Ha Hb.
  pose proof (transform_read_only float_repr libm_pow ta wb) as Ra.
  pose proof (transform_read_only float_repr libm_pow tb wb) as Rb.
  rewrite Ha in Ra. rewrite Hb in Rb. simpl in Ra, Rb. subst wb1 wb2.
  destruct (transform_binary float_repr libm_pow ta tb wb wb wb a b Ha Hb) as (_ & Hab & _).
  destruct (transform_binary float_repr libm_pow tb ta wb wb wb b a Hb Ha) as (_ & Hba & _).
  unfold evaluate. rewrite !Hab, !Hba. now rewrite Hadd, Hmul.
Qed.

End Commutation.

Lemma addition_and_multiplication_commute_witness :
  evaluate model_float_repr model_pow
    (T_arithmetic (T_atomic_string "A1") "+" (T_number "0.5")) example_workbook
  = evaluate model_float_repr model_pow
      (T_arithmetic (T_number "0.5") "+" (T_atomic_string "A1")) example_workbook.
Proof.
  apply (proj2 (addition_and_multiplication_commute model_float_repr model_pow
                  (T_atomic_string "A1") (T_number "0.5")
                  example_workbook example_workbook example_workbook
                  (VInt 7) (VFloat (S754_finite false 4503599627370496 (-53)))));
    vm_compute; reflexivity.
Defined.
